(** * PlotCanvas: bookkeeping of plots, variables and curves

    A shallow embedding of [gazebo/gui/plot/PlotCanvas.cc].  The canvas
    owns a [std::map] from plot ids to [PlotData] records; every record
    owns an [IncrementalPlot] handle and a [std::map] from variable ids
    (pills of the y-variable container) to curve ids.  The collaborators
    whose sources are other files of the repository (IncrementalPlot,
    PlotCurve, VariablePillContainer, PlotManager, the Qt layout) are
    modelled as plain data next to the canvas. *)

From Stdlib Require Import NArith ZArith List String Ascii Bool Lia.
From Stdlib Require Import DecimalString DecimalN.
Import ListNotations.

Local Open Scope N_scope.

(** ** Unsigned 32-bit identifiers *)

Definition UINT32_MOD : N := 4294967296.

(** [IGN_UINT32_MAX] *)
Definition IGN_UINT32_MAX : N := 4294967295.

(** [x++] on an [unsigned int]: the incremented value wraps around. *)
Definition uint32_succ (x : N) : N := (x + 1) mod UINT32_MOD.

(** ** [std::map<unsigned int, V>]

    The entries are kept in ascending key order, which is the order in
    which the C++ code iterates over them. *)

Module StdMap.

Section Ops.
Context {V : Type}.

Definition t : Type := list (N * V).

(** [m.find(k)] *)
Fixpoint find (k : N) (m : t) : option V :=
  match m with
  | [] => None
  | (k', v) :: m' => if k =? k' then Some v else find k m'
  end.

Definition mem (k : N) (m : t) : bool :=
  match find k m with Some _ => true | None => false end.

(** [m[k] = v] *)
Fixpoint insert (k : N) (v : V) (m : t) : t :=
  match m with
  | [] => [(k, v)]
  | (k', v') :: m' =>
      match k ?= k' with
      | Lt => (k, v) :: (k', v') :: m'
      | Eq => (k, v) :: m'
      | Gt => (k', v') :: insert k v m'
      end
  end.

(** [m.erase(k)] (also: erasing the iterator that points at key [k]) *)
Fixpoint erase (k : N) (m : t) : t :=
  match m with
  | [] => []
  | (k', v') :: m' => if k =? k' then m' else (k', v') :: erase k m'
  end.

(** [m.empty()] *)
Definition empty (m : t) : bool :=
  match m with [] => true | _ :: _ => false end.

(** [m.size()] *)
Definition size (m : t) : N := N.of_nat (List.length m).

(** [m.begin()] *)
Definition begin (m : t) : option (N * V) :=
  match m with [] => None | e :: _ => Some e end.

Definition keys (m : t) : list N := map fst m.

(** Keys strictly above [lo], in strictly ascending order. *)
Fixpoint above (lo : N) (m : t) : bool :=
  match m with
  | [] => true
  | (k, _) :: m' => (lo <? k) && above k m'
  end.

(** The representation invariant of a [std::map]. *)
Definition ok (m : t) : bool :=
  match m with
  | [] => true
  | (k, _) :: m' => above k m'
  end.
End Ops.

Arguments t : clear implicits.

End StdMap.

(** ** [std::string] helpers used by [Restart] *)

Local Open Scope string_scope.

(** [s.rfind(c)] for a one-character pattern; [None] is [std::string::npos]. *)
Fixpoint rfind (c : ascii) (s : string) : option nat :=
  match s with
  | EmptyString => None
  | String a s' =>
      match rfind c s' with
      | Some i => Some (S i)
      | None => if Ascii.eqb a c then Some 0%nat else None
      end
  end.

(** [s.substr(pos)] *)
Fixpoint substr (pos : nat) (s : string) : string :=
  match pos, s with
  | O, _ => s
  | S p, String _ s' => substr p s'
  | S _, EmptyString => EmptyString
  end.

(** [s.substr(0, n)] *)
Fixpoint substr0 (n : nat) (s : string) : string :=
  match n, s with
  | O, _ => EmptyString
  | S p, String a s' => String a (substr0 p s')
  | S _, EmptyString => EmptyString
  end.

(** [isspace] in the C locale *)
Definition isspace (c : ascii) : bool :=
  let n := N_of_ascii c in
  ((n =? 32) || ((9 <=? n) && (n <=? 13)))%N.

Definition digit_of (c : ascii) : option Z :=
  let n := N_of_ascii c in
  if ((48 <=? n) && (n <=? 57))%N then Some (Z.of_N (n - 48)) else None.

Fixpoint skip_space (s : string) : string :=
  match s with
  | String a s' => if isspace a then skip_space s' else s
  | EmptyString => s
  end.

Fixpoint atoi_digits (acc : Z) (s : string) : Z :=
  match s with
  | String a s' =>
      match digit_of a with
      | Some d => atoi_digits (10 * acc + d) s'
      | None => acc
      end
  | EmptyString => acc
  end.

(** The bounds of a [long] (64 bits). *)
Definition LONG_MAX : Z := 9223372036854775807.

Definition LONG_MIN : Z := -9223372036854775808.

(** [strtol(s, NULL, 10)]: optional white space, an optional sign, then
    the longest run of decimal digits; [0] when there is none; a value
    that does not fit a [long] is replaced by [LONG_MIN] or
    [LONG_MAX]. *)
Definition strtol (s : string) : Z :=
  let v :=
    match skip_space s with
    | String "-" s' => (- atoi_digits 0 s')%Z
    | String "+" s' => atoi_digits 0 s'
    | s' => atoi_digits 0 s'
    end in
  Z.max LONG_MIN (Z.min LONG_MAX v).

(** The conversion of a [long] to [int]: the low 32 bits, read as a
    two's-complement number. *)
Definition int_of_long (z : Z) : Z :=
  ((z + 2147483648) mod 4294967296 - 2147483648)%Z.

(** [std::atoi], whose result [Restart] stores in an [int].  The C
    standard leaves the result open when the digits denote a value that
    does not fit an [int]; the GNU C library, with which the program is
    built, computes [(int) strtol(s, NULL, 10)], and so does this
    definition: a suffix of 2147483648 parses to -2147483648, and a
    numeral beyond [LONG_MAX] to -1. *)
Definition atoi (s : string) : Z := int_of_long (strtol s).

(** [ss << n] for an [unsigned int] *)
Definition to_string (n : N) : string :=
  NilZero.string_of_uint (N.to_uint n).

(** ** Data model *)

(** Modelled from the spec: PlotCurve (PlotCurve.cc is a separate file of the
    repository), the curve object owned by the curve registry's
    clients: a label, the [Active] flag and the age counter.  A new curve
    is active and has age 0. *)
Record PlotCurve : Type := mkCurve {
  curveLabel : string;
  curveActive : bool;
  curveAge : N
}.

(** Modelled from the spec: IncrementalPlot, the Plot Container handle
    (IncrementalPlot.cc is a separate file of the repository).  [widget] is
    the identity of the Qt widget, [curves] the curves attached to the
    plot, keyed by curve id. *)
Record IncrementalPlot : Type := mkPlot {
  widget : N;
  curves : StdMap.t PlotCurve
}.

(** [class PlotData] *)
Record PlotData : Type := mkPlotData {
  id : N;
  plot : IncrementalPlot;
  variableCurves : StdMap.t N
}.

(** Modelled from the spec: VariablePill, one slot of the Variable Slot
    Container: the name of the variable it stands for and the text
    (label) it shows. *)
Record VariablePill : Type := mkPill {
  pillName : string;
  pillText : string
}.

(** [struct PlotCanvasPrivate], together with the collaborators the
    canvas talks to: the layout (widget identities in display order), the
    pills of the y-variable container, the curve registry
    ([PlotManager]: registered curve ids with the name they were
    registered under) and the process-wide id counters. *)
Record PlotCanvas : Type := mkCanvas {
  plotData : StdMap.t PlotData;
  emptyPlotVisible : bool;
  plotLayout : list N;
  yVariableContainer : StdMap.t VariablePill;
  manager : list (string * N);
  globalPlotId : N;
  globalVariableId : N;
  globalCurveId : N;
  nextWidget : N
}.

(** [PlotCanvas::EMPTY_PLOT] *)
Definition EMPTY_PLOT : N := IGN_UINT32_MAX.

(** Modelled from the spec: [VariablePill::EMPTY_VARIABLE], the "no
    anchor" sentinel (declared in VariablePill.cc), a maximum-value
    sentinel like [EMPTY_PLOT]. *)
Definition EMPTY_VARIABLE : N := IGN_UINT32_MAX.

Definition set_plotData (m : StdMap.t PlotData) (st : PlotCanvas) : PlotCanvas :=
  mkCanvas m (emptyPlotVisible st) (plotLayout st) (yVariableContainer st)
           (manager st) (globalPlotId st) (globalVariableId st)
           (globalCurveId st) (nextWidget st).

Definition set_emptyPlotVisible (b : bool) (st : PlotCanvas) : PlotCanvas :=
  mkCanvas (plotData st) b (plotLayout st) (yVariableContainer st)
           (manager st) (globalPlotId st) (globalVariableId st)
           (globalCurveId st) (nextWidget st).

Definition set_plotLayout (l : list N) (st : PlotCanvas) : PlotCanvas :=
  mkCanvas (plotData st) (emptyPlotVisible st) l (yVariableContainer st)
           (manager st) (globalPlotId st) (globalVariableId st)
           (globalCurveId st) (nextWidget st).

Definition set_yVariableContainer (c : StdMap.t VariablePill) (st : PlotCanvas)
  : PlotCanvas :=
  mkCanvas (plotData st) (emptyPlotVisible st) (plotLayout st) c
           (manager st) (globalPlotId st) (globalVariableId st)
           (globalCurveId st) (nextWidget st).

Definition set_manager (r : list (string * N)) (st : PlotCanvas) : PlotCanvas :=
  mkCanvas (plotData st) (emptyPlotVisible st) (plotLayout st)
           (yVariableContainer st) r (globalPlotId st) (globalVariableId st)
           (globalCurveId st) (nextWidget st).

Definition set_plot (p : IncrementalPlot) (pd : PlotData) : PlotData :=
  mkPlotData (id pd) p (variableCurves pd).

Definition set_variableCurves (m : StdMap.t N) (pd : PlotData) : PlotData :=
  mkPlotData (id pd) (plot pd) m.

Definition set_curves (m : StdMap.t PlotCurve) (p : IncrementalPlot)
  : IncrementalPlot :=
  mkPlot (widget p) m.

(** ** The collaborators *)

(** Modelled from the spec: the Plot Container handle's operations
    (IncrementalPlot.cc): CreateCurve(name), LookupCurve(curveId),
    RemoveCurve(curveId), DetachCurve(curveId), AttachCurve(curve-ref) and
    SetCurveLabel(curveId, label).  A curve reference is the curve's id,
    together with the curve object where the caller reads or moves it. *)
Module IncrementalPlotOps.

(** [plot->AddCurve(label)]: the new curve takes the next curve id. *)
Definition AddCurve (cid : N) (label : string) (p : IncrementalPlot)
  : IncrementalPlot :=
  set_curves (StdMap.insert cid (mkCurve label true 0) (curves p)) p.

(** [plot->Curve(id)]: empty when the plot holds no curve of that id. *)
Definition Curve (cid : N) (p : IncrementalPlot) : option PlotCurve :=
  StdMap.find cid (curves p).

(** [plot->RemoveCurve(id)] *)
Definition RemoveCurve (cid : N) (p : IncrementalPlot) : IncrementalPlot :=
  set_curves (StdMap.erase cid (curves p)) p.

(** [plot->DetachCurve(id)]: the curve leaves the plot and survives. *)
Definition DetachCurve (cid : N) (p : IncrementalPlot)
  : option PlotCurve * IncrementalPlot :=
  match StdMap.find cid (curves p) with
  | Some c => (Some c, set_curves (StdMap.erase cid (curves p)) p)
  | None => (None, p)
  end.

(** [plot->AttachCurve(curve)] *)
Definition AttachCurve (cid : N) (c : PlotCurve) (p : IncrementalPlot)
  : IncrementalPlot :=
  set_curves (StdMap.insert cid c (curves p)) p.

(** [plot->SetCurveLabel(id, label)] *)
Definition SetCurveLabel (cid : N) (label : string) (p : IncrementalPlot)
  : IncrementalPlot :=
  match StdMap.find cid (curves p) with
  | Some c =>
      set_curves
        (StdMap.insert cid (mkCurve label (curveActive c) (curveAge c))
                       (curves p)) p
  | None => p
  end.

(** [c->SetActive(b)] and [c->SetAge(n)] on a curve held by the plot *)
Definition SetCurve (cid : N) (c : PlotCurve) (p : IncrementalPlot)
  : IncrementalPlot :=
  set_curves (StdMap.insert cid c (curves p)) p.

End IncrementalPlotOps.

(** Modelled from the spec: the Curve Registry (PlotManager.cc):
    RegisterCurve(name, curve-ref) and UnregisterCurve(curve-ref); asking
    to remove a curve the registry does not hold, or an empty reference,
    does nothing. *)
Module PlotManager.

Definition AddCurve (name : string) (cid : N) (r : list (string * N))
  : list (string * N) :=
  r ++ [(name, cid)].

Definition RemoveCurve (c : option N) (r : list (string * N))
  : list (string * N) :=
  match c with
  | Some cid => filter (fun e => negb (snd e =? cid)%N) r
  | None => r
  end.

Definition registered (cid : N) (r : list (string * N)) : bool :=
  existsb (fun e => (snd e =? cid)%N) r.

End PlotManager.

(** [plotLayout->takeAt(plotLayout->indexOf(w))]: the first occurrence of
    the widget leaves the layout; [indexOf] gives -1 and [takeAt] does
    nothing when the widget is not in the layout. *)
Fixpoint layout_take (w : N) (l : list N) : list N :=
  match l with
  | [] => []
  | w' :: l' => if (w =? w')%N then l' else w' :: layout_take w l'
  end.

Definition set_globalCurveId (n : N) (st : PlotCanvas) : PlotCanvas :=
  mkCanvas (plotData st) (emptyPlotVisible st) (plotLayout st)
           (yVariableContainer st) (manager st) (globalPlotId st)
           (globalVariableId st) n (nextWidget st).

Definition set_globalVariableId (n : N) (st : PlotCanvas) : PlotCanvas :=
  mkCanvas (plotData st) (emptyPlotVisible st) (plotLayout st)
           (yVariableContainer st) (manager st) (globalPlotId st)
           n (globalCurveId st) (nextWidget st).

(** A weak reference to the curve that [plot->Curve(cid)] finds. *)
Definition curve_ref (cid : N) (p : IncrementalPlot) : option N :=
  match IncrementalPlotOps.Curve cid p with
  | Some _ => Some cid
  | None => None
  end.

(** Modelled from the spec: the Variable Slot Container's LookupSlot(id)
    and RemoveSlot(id) (VariablePillContainer.cc); RemoveSlot erases the
    entry of the slot, and does nothing for an id without slot. *)
Definition GetVariablePill (vid : N) (st : PlotCanvas) : option VariablePill :=
  StdMap.find vid (yVariableContainer st).

Definition RemoveVariablePill (vid : N) (st : PlotCanvas) : PlotCanvas :=
  set_yVariableContainer (StdMap.erase vid (yVariableContainer st)) st.

(** ** PlotCanvas.cc *)

(** The canvas as its constructor leaves it: no plot, the empty plot in
    the layout and shown.  The id counters are static, shared by all
    canvases of the process, so a new canvas starts from whatever they
    are. *)
Definition PlotCanvas_new (plotId variableId curveId : N) : PlotCanvas :=
  mkCanvas [] true [0%N] [] [] plotId variableId curveId 1.

(** [if (!plotData.empty() && emptyPlot) emptyPlot->setVisible(false)] *)
Definition hide_emptyPlot (st : PlotCanvas) : PlotCanvas :=
  if negb (StdMap.empty (plotData st)) then set_emptyPlotVisible false st
  else st.

(** [if (plotData.empty() && emptyPlot) emptyPlot->setVisible(true)] *)
Definition show_emptyPlot (st : PlotCanvas) : PlotCanvas :=
  if StdMap.empty (plotData st) then set_emptyPlotVisible true st else st.

(** [PlotCanvas::AddPlot] *)
Definition AddPlot (st : PlotCanvas) : N * PlotCanvas :=
  let newPlot := mkPlot (nextWidget st) [] in
  let newData := mkPlotData (globalPlotId st) newPlot [] in
  (globalPlotId st,
   mkCanvas (StdMap.insert (globalPlotId st) newData (plotData st))
            (emptyPlotVisible st)
            (plotLayout st ++ [nextWidget st])
            (yVariableContainer st) (manager st)
            (uint32_succ (globalPlotId st))
            (globalVariableId st) (globalCurveId st)
            (nextWidget st + 1)).

(** [PlotCanvas::AddVariable(_id, _variable, _plotId)] *)
Definition AddVariable (_id : N) (_variable : string) (_plotId : N)
    (st : PlotCanvas) : PlotCanvas :=
  let '(plotId, st) :=
    if (_plotId =? EMPTY_PLOT)%N then AddPlot st else (_plotId, st) in
  match StdMap.find plotId (plotData st) with
  | None => st
  | Some pd =>
      let c := globalCurveId st in
      let pd' :=
        mkPlotData (id pd)
                   (IncrementalPlotOps.AddCurve c _variable (plot pd))
                   (StdMap.insert _id c (variableCurves pd)) in
      let st := set_globalCurveId (uint32_succ c) st in
      let st := set_plotData (StdMap.insert plotId pd' (plotData st)) st in
      let st := hide_emptyPlot st in
      set_manager (PlotManager.AddCurve _variable c (manager st)) st
  end.

(** The body of the [if] in the loop of [PlotCanvas::RemoveVariable(_id)]:
    the variable was found in the plot [pd] stored under [k], with curve
    [curveId]. *)
Definition RemoveVariable_found (_id k : N) (pd : PlotData) (curveId : N)
    (st : PlotCanvas) : PlotCanvas :=
  let vars := StdMap.erase _id (variableCurves pd) in
  if StdMap.empty vars then
    let st :=
      set_manager
        (PlotManager.RemoveCurve (curve_ref _id (plot pd)) (manager st))
        st in
    let st := RemoveVariablePill _id st in
    let st :=
      set_plotLayout (layout_take (widget (plot pd)) (plotLayout st)) st in
    set_plotData (StdMap.erase k (plotData st)) st
  else
    let pd' :=
      mkPlotData (id pd)
                 (IncrementalPlotOps.RemoveCurve curveId (plot pd))
                 vars in
    set_plotData (StdMap.insert k pd' (plotData st)) st.

(** The loop of [PlotCanvas::RemoveVariable(_id)]; it stops at the first
    plot that holds the variable. *)
Fixpoint RemoveVariable_loop (_id : N) (its : list (N * PlotData))
    (st : PlotCanvas) : PlotCanvas :=
  match its with
  | [] => st
  | (k, pd) :: rest =>
      match StdMap.find _id (variableCurves pd) with
      | Some curveId => RemoveVariable_found _id k pd curveId st
      | None => RemoveVariable_loop _id rest st
      end
  end.

(** [PlotCanvas::RemoveVariable(_id)] *)
Definition RemoveVariable (_id : N) (st : PlotCanvas) : PlotCanvas :=
  show_emptyPlot (RemoveVariable_loop _id (plotData st) st).

(** [PlotCanvas::OnRemoveVariable] *)
Definition OnRemoveVariable (_id _targetId : N) (st : PlotCanvas)
  : PlotCanvas :=
  RemoveVariable _id st.

(** [PlotCanvas::RemoveVariable(_id, _plotId)] *)
Definition RemoveVariable_plot (_id _plotId : N) (st : PlotCanvas)
  : PlotCanvas :=
  match StdMap.find _plotId (plotData st) with
  | None => st
  | Some pd =>
      match StdMap.find _id (variableCurves pd) with
      | None => st
      | Some curveId =>
          let st :=
            set_manager
              (PlotManager.RemoveCurve (curve_ref _id (plot pd)) (manager st))
              st in
          let vars := StdMap.erase _id (variableCurves pd) in
          let st :=
            if StdMap.empty vars then
              let st :=
                set_plotLayout (layout_take (widget (plot pd)) (plotLayout st))
                               st in
              set_plotData (StdMap.erase _plotId (plotData st)) st
            else
              let pd' :=
                mkPlotData (id pd)
                           (IncrementalPlotOps.RemoveCurve curveId (plot pd))
                           vars in
              set_plotData (StdMap.insert _plotId pd' (plotData st)) st in
          let st := show_emptyPlot st in
          RemoveVariablePill _id st
      end
  end.

(** The [while (variableCurves.size() > 1)] loop of [RemovePlot]; every
    round removes one variable, so [fuel] rounds are enough for a plot of
    [fuel] variables. *)
Fixpoint RemovePlot_loop (fuel : nat) (plotId : N) (st : PlotCanvas)
  : PlotCanvas :=
  match fuel with
  | O => st
  | S fuel' =>
      match StdMap.find plotId (plotData st) with
      | Some pd =>
          if (1 <? StdMap.size (variableCurves pd))%N then
            match StdMap.begin (variableCurves pd) with
            | Some (v, _) =>
                RemovePlot_loop fuel' plotId (RemoveVariable_plot v plotId st)
            | None => st
            end
          else st
      | None => st
      end
  end.

(** [PlotCanvas::RemovePlot] *)
Definition RemovePlot (_id : N) (st : PlotCanvas) : PlotCanvas :=
  match StdMap.find _id (plotData st) with
  | None => st
  | Some pd =>
      if StdMap.empty (variableCurves pd) then
        let st :=
          set_plotLayout (layout_take (widget (plot pd)) (plotLayout st)) st in
        set_plotData (StdMap.erase _id (plotData st)) st
      else
        let plotId := _id in
        let st :=
          RemovePlot_loop (List.length (variableCurves pd)) plotId st in
        match StdMap.find plotId (plotData st) with
        | Some pd' =>
            match StdMap.begin (variableCurves pd') with
            | Some (v, _) => RemoveVariable_plot v plotId st
            | None => st
            end
        | None => st
        end
  end.

(** The loop of [PlotCanvas::Clear]; every round removes one plot. *)
Fixpoint Clear_loop (fuel : nat) (st : PlotCanvas) : PlotCanvas :=
  match fuel with
  | O => st
  | S fuel' =>
      match StdMap.begin (plotData st) with
      | Some (p, _) => Clear_loop fuel' (RemovePlot p st)
      | None => st
      end
  end.

(** [PlotCanvas::Clear] *)
Definition Clear (st : PlotCanvas) : PlotCanvas :=
  Clear_loop (List.length (plotData st)) st.

(** [PlotCanvas::PlotByVariable] *)
Fixpoint PlotByVariable_loop (_variableId : N) (its : list (N * PlotData))
  : N :=
  match its with
  | [] => EMPTY_PLOT
  | (k, pd) :: rest =>
      if StdMap.mem _variableId (variableCurves pd) then k
      else PlotByVariable_loop _variableId rest
  end.

Definition PlotByVariable (_variableId : N) (st : PlotCanvas) : N :=
  PlotByVariable_loop _variableId (plotData st).

(** [PlotCanvas::PlotCount] *)
Definition PlotCount (st : PlotCanvas) : N :=
  (StdMap.size (plotData st) + (if emptyPlotVisible st then 1 else 0))
    mod UINT32_MOD.

(** [PlotCanvas::VariableCount] *)
Definition VariableCount (_plotId : N) (st : PlotCanvas) : N :=
  match StdMap.find _plotId (plotData st) with
  | None => 0
  | Some pd => StdMap.size (variableCurves pd) mod UINT32_MOD
  end.

(** The loop of [PlotCanvas::OnAddVariable] *)
Fixpoint OnAddVariable_loop (_id : N) (_variable : string) (_targetId : N)
    (its : list (N * PlotData)) (st : PlotCanvas) : PlotCanvas :=
  match its with
  | [] => st
  | (_, pd) :: rest =>
      if StdMap.mem _targetId (variableCurves pd) then
        AddVariable _id _variable (id pd) st
      else OnAddVariable_loop _id _variable _targetId rest st
  end.

(** [PlotCanvas::OnAddVariable] *)
Definition OnAddVariable (_id : N) (_variable : string) (_targetId : N)
    (st : PlotCanvas) : PlotCanvas :=
  if negb (_targetId =? EMPTY_VARIABLE)%N then
    OnAddVariable_loop _id _variable _targetId (plotData st) st
  else AddVariable _id _variable EMPTY_PLOT st.

(** Modelled from the spec: the Variable Slot Container's
    AddSlot(name, anchorId) (VariablePillContainer.cc): the new slot takes
    the next variable id, shows the variable's name, and the container
    raises the event that [OnAddVariable] consumes. *)
Definition AddVariablePill (name : string) (targetId : N) (st : PlotCanvas)
  : N * PlotCanvas :=
  let vid := globalVariableId st in
  let st :=
    set_yVariableContainer
      (StdMap.insert vid (mkPill name name) (yVariableContainer st)) st in
  let st := set_globalVariableId (uint32_succ vid) st in
  (vid, OnAddVariable vid name targetId st).

(** [PlotCanvas::AddVariable(_variable, _plotId)] *)
Definition AddVariable_name (_variable : string) (_plotId : N)
    (st : PlotCanvas) : N * PlotCanvas :=
  let targetId :=
    if negb (_plotId =? EMPTY_PLOT)%N then
      match StdMap.find _plotId (plotData st) with
      | Some pd =>
          match StdMap.begin (variableCurves pd) with
          | Some (v, _) => v
          | None => EMPTY_VARIABLE
          end
      | None => EMPTY_VARIABLE
      end
    else EMPTY_VARIABLE in
  AddVariablePill _variable targetId st.

(** The loop of [PlotCanvas::OnSetVariableLabel] *)
Fixpoint OnSetVariableLabel_loop (_id : N) (_label : string)
    (its : list (N * PlotData)) (st : PlotCanvas) : PlotCanvas :=
  match its with
  | [] => st
  | (k, pd) :: rest =>
      match StdMap.find _id (variableCurves pd) with
      | Some c =>
          let pd' :=
            set_plot (IncrementalPlotOps.SetCurveLabel c _label (plot pd)) pd in
          set_plotData (StdMap.insert k pd' (plotData st)) st
      | None => OnSetVariableLabel_loop _id _label rest st
      end
  end.

(** [PlotCanvas::OnSetVariableLabel] *)
Definition OnSetVariableLabel (_id : N) (_label : string) (st : PlotCanvas)
  : PlotCanvas :=
  OnSetVariableLabel_loop _id _label (plotData st) st.

(** [PlotCanvas::SetVariableLabel].  Modelled from the spec: the Variable
    Slot Container's SetSlotLabel(id, label) (VariablePillContainer.cc)
    stores the label in the slot and raises the event that
    [OnSetVariableLabel] consumes; an unknown id changes nothing. *)
Definition SetVariableLabel (_id : N) (_label : string) (st : PlotCanvas)
  : PlotCanvas :=
  match GetVariablePill _id st with
  | Some pill =>
      OnSetVariableLabel _id _label
        (set_yVariableContainer
           (StdMap.insert _id (mkPill (pillName pill) _label)
                          (yVariableContainer st)) st)
  | None => st
  end.

(** The search loop of [PlotCanvas::OnMoveVariable]: [plotIt] (with the
    curve id found there) and [targetPlotIt], both [end()] at first. *)
Fixpoint OnMoveVariable_find (_id _targetId : N) (its : list (N * PlotData))
    (plotIt : option (N * N)) (targetPlotIt : option N)
  : option (N * N) * option N :=
  match its with
  | [] => (plotIt, targetPlotIt)
  | (k, pd) :: rest =>
      let plotIt :=
        match StdMap.find _id (variableCurves pd) with
        | Some c => Some (k, c)
        | None => plotIt
        end in
      let targetPlotIt :=
        if StdMap.mem _targetId (variableCurves pd) then Some k
        else targetPlotIt in
      match plotIt, targetPlotIt with
      | Some _, Some _ => (plotIt, targetPlotIt)
      | _, _ => OnMoveVariable_find _id _targetId rest plotIt targetPlotIt
      end
  end.

(** [PlotCanvas::OnMoveVariable].  [None] is the dereference of the null
    pointer that [DetachCurve] returns when the source plot does not hold
    the curve.  The [PlotData] object [plotData] is the record stored
    under [sk] unless [AddPlot] has just bound that key to its new record
    (the counter wrapped around); then the final search by pointer finds
    nothing to erase. *)
Definition OnMoveVariable (_id _targetId : N) (st : PlotCanvas)
  : option PlotCanvas :=
  match OnMoveVariable_find _id _targetId (plotData st) None None with
  | (None, _) => Some st
  | (Some (sk, curveId), targetPlotIt) =>
      match StdMap.find sk (plotData st) with
      | None => Some st
      | Some src =>
          match IncrementalPlotOps.DetachCurve curveId (plot src) with
          | (None, _) => None
          | (Some plotCurve, plot') =>
              let src' :=
                mkPlotData (id src) plot'
                           (StdMap.erase _id (variableCurves src)) in
              let st := set_plotData (StdMap.insert sk src' (plotData st)) st in
              let '(st, srcVars, srcBound) :=
                match targetPlotIt with
                | Some tk =>
                    match StdMap.find tk (plotData st) with
                    | Some tgt =>
                        let tgt' :=
                          mkPlotData (id tgt)
                            (IncrementalPlotOps.AttachCurve curveId plotCurve
                                                            (plot tgt))
                            (StdMap.insert _id curveId (variableCurves tgt)) in
                        let st :=
                          set_plotData (StdMap.insert tk tgt' (plotData st))
                                       st in
                        (st,
                         if (tk =? sk)%N then variableCurves tgt'
                         else variableCurves src',
                         true)
                    | None => (st, variableCurves src', true)
                    end
                | None =>
                    let '(plotId, st) := AddPlot st in
                    match StdMap.find plotId (plotData st) with
                    | Some newPlotData =>
                        let newPlotData' :=
                          mkPlotData (id newPlotData)
                            (IncrementalPlotOps.AttachCurve curveId plotCurve
                                                            (plot newPlotData))
                            (StdMap.insert _id curveId
                                           (variableCurves newPlotData)) in
                        let st :=
                          set_plotData
                            (StdMap.insert plotId newPlotData' (plotData st))
                            st in
                        (hide_emptyPlot st, variableCurves src',
                         negb (plotId =? sk)%N)
                    | None => (st, variableCurves src', negb (plotId =? sk)%N)
                    end
                end in
              if StdMap.empty srcVars then
                let st :=
                  set_plotLayout
                    (layout_take (widget (plot src)) (plotLayout st)) st in
                if srcBound then
                  Some (set_plotData (StdMap.erase sk (plotData st)) st)
                else Some st
              else Some st
          end
      end
  end.

(** An entry of [variableCurvesToClone]: the original label, the pill and
    the id of the plot to add the new variable to. *)
Definition CloneEntry : Type := (string * N * N)%type.

(** The new label of a pill whose curve has reached age [age], if it gets
    one (lines 617-638 of [Restart]); the parsed suffix is the [int]
    that [atoi] returns. *)
Definition aged_label (varText : string) (age : N) : option string :=
  if (age =? 1)%N then Some (varText ++ "_1")
  else
    match rfind "_"%char varText with
    | Some idx =>
        if (0 <? atoi (substr (idx + 1) varText))%Z then
          Some (substr0 (idx + 1) varText ++ to_string age)
        else None
    | None => None
    end.

(** The body of the loops of [PlotCanvas::Restart], for the variable
    [variableId] with curve [curveId] of the plot stored under [k]. *)
Definition Restart_variable (k variableId curveId : N)
    (acc : PlotCanvas * list CloneEntry) : PlotCanvas * list CloneEntry :=
  let '(st, toClone) := acc in
  match GetVariablePill variableId st with
  | None => acc
  | Some variablePill =>
      match StdMap.find k (plotData st) with
      | None => acc
      | Some pd =>
          match IncrementalPlotOps.Curve curveId (plot pd) with
          | None => acc
          | Some c =>
              let '(active, reg, toClone) :=
                if curveActive c then
                  (false,
                   PlotManager.RemoveCurve (Some curveId) (manager st),
                   (toClone ++ [(pillText variablePill, variableId, k)])%list)
                else (curveActive c, manager st, toClone) in
              let age := uint32_succ (curveAge c) in
              let c' := mkCurve (curveLabel c) active age in
              let pd' :=
                set_plot (IncrementalPlotOps.SetCurve curveId c' (plot pd)) pd in
              let st :=
                set_manager reg
                  (set_plotData (StdMap.insert k pd' (plotData st)) st) in
              match aged_label (pillText variablePill) age with
              | Some label => (SetVariableLabel variableId label st, toClone)
              | None => (st, toClone)
              end
          end
      end
  end.

Fixpoint Restart_variables (k : N) (vs : list (N * N))
    (acc : PlotCanvas * list CloneEntry) : PlotCanvas * list CloneEntry :=
  match vs with
  | [] => acc
  | (variableId, curveId) :: rest =>
      Restart_variables k rest (Restart_variable k variableId curveId acc)
  end.

Fixpoint Restart_plots (its : list (N * PlotData))
    (acc : PlotCanvas * list CloneEntry) : PlotCanvas * list CloneEntry :=
  match its with
  | [] => acc
  | (k, pd) :: rest =>
      Restart_plots rest (Restart_variables k (variableCurves pd) acc)
  end.

(** The second loop of [Restart]: a new pill under the variable's name,
    relabelled if the original pill showed another text. *)
Fixpoint Restart_clone (toClone : list CloneEntry) (st : PlotCanvas)
  : PlotCanvas :=
  match toClone with
  | [] => st
  | (varText, varPill, plotId) :: rest =>
      match GetVariablePill varPill st with
      | Some pill =>
          let '(newId, st) := AddVariable_name (pillName pill) plotId st in
          let st :=
            if negb (String.eqb varText (pillName pill)) then
              SetVariableLabel newId varText st
            else st in
          Restart_clone rest st
      | None => Restart_clone rest st
      end
  end.

(** [PlotCanvas::Restart] *)
Definition Restart (st : PlotCanvas) : PlotCanvas :=
  let '(st', toClone) := Restart_plots (plotData st) (st, []) in
  Restart_clone toClone st'.

(** ** Queries used in the statements *)

(** The curve of variable [v], as [PlotCanvas::PlotCurve] finds it. *)
Fixpoint PlotCurve_loop (_variableId : N) (its : list (N * PlotData))
  : option PlotCurve :=
  match its with
  | [] => None
  | (_, pd) :: rest =>
      match StdMap.find _variableId (variableCurves pd) with
      | Some c => IncrementalPlotOps.Curve c (plot pd)
      | None => PlotCurve_loop _variableId rest
      end
  end.

Definition PlotCurveOf (_variableId : N) (st : PlotCanvas) : option PlotCurve :=
  PlotCurve_loop _variableId (plotData st).

(** The number of variable-to-curve entries of all plots together. *)
Fixpoint total_curves (m : StdMap.t PlotData) : nat :=
  match m with
  | [] => O
  | (_, pd) :: m' => (List.length (variableCurves pd) + total_curves m')%nat
  end.

(** ** Well-formedness and ownership *)

(** No plot of the canvas holds the variable. *)
Definition var_absent (v : N) (st : PlotCanvas) : bool :=
  forallb (fun e => negb (StdMap.mem v (variableCurves (snd e))))
          (plotData st).

(** The plot stored under [p] holds the variable [v]. *)
Definition owns (p v : N) (st : PlotCanvas) : bool :=
  match StdMap.find p (plotData st) with
  | Some pd => StdMap.mem v (variableCurves pd)
  | None => false
  end.

(** The variable-to-curve mapping of the plot stored under [p]; empty
    when there is no such plot. *)
Definition vars_of (p : N) (st : PlotCanvas) : StdMap.t N :=
  match StdMap.find p (plotData st) with
  | Some pd => variableCurves pd
  | None => []
  end.

(** The maps of the canvas are well-formed [std::map]s. *)
Definition records_ok (m : StdMap.t PlotData) : bool :=
  forallb (fun e => StdMap.ok (variableCurves (snd e))
                    && StdMap.ok (curves (plot (snd e)))) m.

Definition canvas_ok (st : PlotCanvas) : bool :=
  StdMap.ok (plotData st) && records_ok (plotData st).

(** At most the plot stored under [p] holds the variable [v]: the data
    model's "a variable id appears in at most one Plot Record". *)
Definition sole_owner (v p : N) (st : PlotCanvas) : Prop :=
  forall k, owns k v st = true -> k = p.

(** The plot id counter has not wrapped around onto a live plot: plot ids
    are never reused. *)
Definition fresh_plot_id (st : PlotCanvas) : Prop :=
  StdMap.find (globalPlotId st) (plotData st) = None.


(** All keys of [l1] are smaller than [p]: [l1] is what precedes key [p]
    in a map. *)
Definition below {V : Type} (p : N) (l1 : StdMap.t V) : Prop :=
  forallb (fun e => (fst e <? p)%N) l1 = true.

(** The plot that [Clear] removes last, the one with the largest id,
    holds a variable. *)
Definition last_plot_has_variable (st : PlotCanvas) : bool :=
  match List.last (map (fun e => Some (snd e)) (plotData st)) None with
  | Some pd => negb (StdMap.empty (variableCurves pd))
  | None => false
  end.

(** ** Sample canvases *)

(** A new canvas whose first plot is 0, first y-variable 1 (the x-axis
    pill took 0) and first curve 0. *)
Definition canvas0 : PlotCanvas := PlotCanvas_new 0 1 0.

(** Three plots with one variable each: variables 1, 2, 3 with curves
    0, 1, 2 in plots 0, 1, 2. *)
Definition canvas_three_plots : PlotCanvas :=
  snd (AddVariable_name "z" EMPTY_PLOT
         (snd (AddVariable_name "y" EMPTY_PLOT
                 (snd (AddVariable_name "x" EMPTY_PLOT canvas0))))).

(** A variable in plot 0, an empty plot 1 beside it, then the variable
    and the empty plot removed again: no plot is left and the placeholder
    is still hidden. *)
Definition canvas_hidden_empty : PlotCanvas :=
  RemovePlot 1
    (RemoveVariable 1
       (snd (AddPlot (snd (AddVariable_name "x" EMPTY_PLOT canvas0))))).

(** ** Sequences of operations *)

(** The operations of the canvas that the placeholder invariant is about,
    both overloads of [AddVariable] and of [RemoveVariable] included. *)
Inductive Op : Type :=
| OpAddPlot
| OpAddVariable (_id : N) (_variable : string) (_plotId : N)
| OpAddVariable_name (_variable : string) (_plotId : N)
| OpRemoveVariable (_id : N)
| OpRemoveVariable_plot (_id _plotId : N)
| OpRemovePlot (_id : N)
| OpOnMoveVariable (_id _targetId : N)
| OpClear.

Definition run (o : Op) (st : PlotCanvas) : option PlotCanvas :=
  match o with
  | OpAddPlot => Some (snd (AddPlot st))
  | OpAddVariable i n p => Some (AddVariable i n p st)
  | OpAddVariable_name n p => Some (snd (AddVariable_name n p st))
  | OpRemoveVariable i => Some (RemoveVariable i st)
  | OpRemoveVariable_plot i p => Some (RemoveVariable_plot i p st)
  | OpRemovePlot p => Some (RemovePlot p st)
  | OpOnMoveVariable i t => OnMoveVariable i t st
  | OpClear => Some (Clear st)
  end.

Definition any_op (o : Op) : bool := true.

Definition not_AddPlot (o : Op) : bool :=
  match o with OpAddPlot => false | _ => true end.

(** The canvases that a sequence of the operations allowed by [allowed]
    leads to, from a new canvas. *)
Inductive reachable (allowed : Op -> bool) : PlotCanvas -> Prop :=
| reachable_new plotId variableId curveId :
    reachable allowed (PlotCanvas_new plotId variableId curveId)
| reachable_step st o st' :
    reachable allowed st -> allowed o = true -> run o st = Some st' ->
    reachable allowed st'.

(** Every plot of the map holds a variable, and the placeholder is shown
    exactly when the map is empty. *)
Definition placeholder_inv (m : StdMap.t PlotData) (visible : bool) : Prop :=
  StdMap.ok m = true
  /\ (forall k pd, StdMap.find k m = Some pd -> variableCurves pd <> [])
  /\ visible = StdMap.empty m.

(** The invariant, but for a placeholder that may still have to be shown:
    what holds just before [show_emptyPlot]. *)
Definition placeholder_pre (m : StdMap.t PlotData) (visible : bool) : Prop :=
  StdMap.ok m = true
  /\ (forall k pd, StdMap.find k m = Some pd -> variableCurves pd <> [])
  /\ (StdMap.empty m = false -> visible = false).

(** At most one plot holds the variable [t]. *)
Definition single_owner (t : N) (st : PlotCanvas) : Prop :=
  forall k k', owns k t st = true -> owns k' t st = true -> k = k'.

(** The plot [pd] holds the curve [c] in its handle; otherwise
    [DetachCurve] has no curve to hand over. *)
Definition holds_curve (c : N) (pd : PlotData) : Prop :=
  StdMap.find c (curves (plot pd)) <> None.

(** Variables 1 and 2 in plot 0, with curves 0 and 1. *)
Definition canvas_two_vars : PlotCanvas :=
  snd (AddVariable_name "y" 0 (snd (AddVariable_name "x" EMPTY_PLOT canvas0))).

(** Variables 1 and 2 in plot 0, variable 3 in plot 1. *)
Definition canvas_two_plots : PlotCanvas :=
  snd (AddVariable_name "z" EMPTY_PLOT canvas_two_vars).

(** One variable, 1, with curve 0, in plot 0. *)
Definition canvas_one_var : PlotCanvas :=
  snd (AddVariable_name "x" EMPTY_PLOT canvas0).

(** The string contains an underscore. *)
Fixpoint has_underscore (s : string) : bool :=
  match s with
  | EmptyString => false
  | String a s' => Ascii.eqb a "_" || has_underscore s'
  end.


(** ** The data model as an invariant *)

(** The plot stored under [k] maps the variable [v] to the curve [c]. *)
Definition entry (m : StdMap.t PlotData) (k v c : N) : Prop :=
  exists pd, StdMap.find k m = Some pd
             /\ StdMap.find v (variableCurves pd) = Some c.

(** The data model of the canvas, for a map of Plot Records and the
    counters that hand out plot, variable and curve ids: well-formed
    maps, every record stored under its own id, ids below the counters,
    every variable in one plot only, every curve under one variable only
    and held by the handle of that variable's plot. *)
Definition wf_map (m : StdMap.t PlotData) (gp gv gc : N) : Prop :=
  StdMap.ok m = true
  /\ (forall k pd, StdMap.find k m = Some pd ->
        StdMap.ok (variableCurves pd) = true
        /\ StdMap.ok (curves (plot pd)) = true
        /\ id pd = k /\ k < gp)
  /\ (forall k v c, entry m k v c -> v < gv /\ c < gc)
  /\ (forall k k' v c c', entry m k v c -> entry m k' v c' -> k = k')
  /\ (forall k k' v v' c,
        entry m k v c -> entry m k' v' c -> k = k' /\ v = v')
  /\ (forall k pd v c,
        StdMap.find k m = Some pd ->
        StdMap.find v (variableCurves pd) = Some c -> holds_curve c pd).

Definition well_formed (st : PlotCanvas) : Prop :=
  wf_map (plotData st) (globalPlotId st) (globalVariableId st)
         (globalCurveId st).

(** No counter is about to wrap around. *)
Definition counters_in_range (st : PlotCanvas) : Prop :=
  globalPlotId st < IGN_UINT32_MAX
  /\ globalVariableId st < IGN_UINT32_MAX
  /\ globalCurveId st < IGN_UINT32_MAX.

(** The operations driven through the slot container, which hands out
    the variable ids. *)
Definition container_op (o : Op) : bool :=
  match o with OpAddVariable _ _ _ => false | _ => true end.

(** The canvases reached from a new one by container-driven operations,
    none of them started with a counter about to wrap around. *)
Inductive reachable_in_range : PlotCanvas -> Prop :=
| in_range_new plotId variableId curveId :
    reachable_in_range (PlotCanvas_new plotId variableId curveId)
| in_range_step st o st' :
    reachable_in_range st -> container_op o = true ->
    counters_in_range st -> run o st = Some st' ->
    reachable_in_range st'.

(** ** Queries used in the statements about whole plots *)

(** [m.erase(k)] for every key of [ks], in that order. *)
Definition erase_keys {V : Type} (ks : list N) (m : StdMap.t V) : StdMap.t V :=
  fold_left (fun acc k => StdMap.erase k acc) ks m.

(** The variables of all plots, plot by plot in ascending order of plot
    id, and in ascending order of variable id within a plot. *)
Definition all_variables (m : StdMap.t PlotData) : list N :=
  flat_map (fun e => StdMap.keys (variableCurves (snd e))) m.

(** The first plot, in iteration order, whose mapping holds the variable
    [v]: where the loops over [plotData] that look for a variable stop. *)
Fixpoint first_owner (v : N) (its : list (N * PlotData))
  : option (N * PlotData) :=
  match its with
  | [] => None
  | (k, pd) :: rest =>
      if StdMap.mem v (variableCurves pd) then Some (k, pd)
      else first_owner v rest
  end.

(** ** What [Restart] leaves of a curve and of its slot *)

(** The curve [c] of a variable with slot [pill] after a round of the
    first loop of [Restart]: not active, one run older, and labelled
    like the slot if the slot gets a new text. *)
Definition frozen_curve (pill : VariablePill) (c : PlotCurve) : PlotCurve :=
  let age := uint32_succ (curveAge c) in
  mkCurve match aged_label (pillText pill) age with
          | Some label => label
          | None => curveLabel c
          end
          false age.

(** The slot after that round: the name stays, the text shows the age. *)
Definition aged_pill (pill : VariablePill) (c : PlotCurve) : VariablePill :=
  mkPill (pillName pill)
         match aged_label (pillText pill) (uint32_succ (curveAge c)) with
         | Some label => label
         | None => pillText pill
         end.

(** [st'] has the plots of [st] with the variables and curve ids of
    [st], and the id counters of [st]. *)
Definition same_variables (st st' : PlotCanvas) : Prop :=
  (forall k, vars_of k st' = vars_of k st)
  /\ globalPlotId st' = globalPlotId st
  /\ globalVariableId st' = globalVariableId st
  /\ globalCurveId st' = globalCurveId st.

(** The variable [y] has in [st'] the curve and the slot it has in
    [st]. *)
Definition same_curve (y : N) (st st' : PlotCanvas) : Prop :=
  PlotCurveOf y st' = PlotCurveOf y st
  /\ GetVariablePill y st' = GetVariablePill y st.

(** The curve and the slot of [x] in [st'] are those of [st] after a
    round of the first loop of [Restart]; a variable without slot is
    skipped. *)
Definition frozen_in (x : N) (st st' : PlotCanvas) : Prop :=
  match GetVariablePill x st, PlotCurveOf x st with
  | Some pill, Some c =>
      PlotCurveOf x st' = Some (frozen_curve pill c)
      /\ GetVariablePill x st' = Some (aged_pill pill c)
  | _, _ => same_curve x st st'
  end.

(** ** Where a variable and its curve are *)

(** The plot stored under [k] maps the variable [v] to the curve id [c]
    and holds under that id the curve object [cv]. *)
Definition curve_in_plot (v c : N) (cv : PlotCurve) (k : N) (st : PlotCanvas)
  : Prop :=
  exists pd,
    StdMap.find k (plotData st) = Some pd
    /\ StdMap.find v (variableCurves pd) = Some c
    /\ IncrementalPlotOps.Curve c (plot pd) = Some cv.

(** The plot stored under [k], if there still is one, holds neither the
    variable [v] nor a curve under the id [c]. *)
Definition curve_left_plot (v c k : N) (st : PlotCanvas) : Prop :=
  forall pd,
    StdMap.find k (plotData st) = Some pd ->
    StdMap.find v (variableCurves pd) = None
    /\ IncrementalPlotOps.Curve c (plot pd) = None.
(** * Properties *)

Local Close Scope string_scope.
Local Open Scope N_scope.

(** ** Facts about [StdMap] *)

Section StdMapFacts.
Context {V : Type}.
Implicit Types (m : StdMap.t V) (k lo : N) (v : V).

Lemma find_insert_eq k v m : StdMap.find k (StdMap.insert k v m) = Some v.
Proof.
  induction m as [|[k' v'] m IH]; simpl.
  - now rewrite N.eqb_refl.
  - destruct (N.compare_spec k k') as [->|Hlt|Hgt]; simpl.
    + now rewrite N.eqb_refl.
    + now rewrite N.eqb_refl.
    + destruct (N.eqb_spec k k'); [lia|exact IH].
Qed.

Lemma find_insert_ne k k' v m :
  k <> k' -> StdMap.find k (StdMap.insert k' v m) = StdMap.find k m.
Proof.
  intros Hne. induction m as [|[k0 v0] m IH]; simpl.
  - destruct (N.eqb_spec k k'); [contradiction|reflexivity].
  - destruct (N.compare_spec k' k0) as [->|Hlt|Hgt]; simpl.
    + destruct (N.eqb_spec k k0); [contradiction|reflexivity].
    + destruct (N.eqb_spec k k'); [contradiction|reflexivity].
    + destruct (N.eqb_spec k k0); [reflexivity|exact IH].
Qed.

Lemma find_erase_ne k k' m :
  k <> k' -> StdMap.find k (StdMap.erase k' m) = StdMap.find k m.
Proof.
  intros Hne. induction m as [|[k0 v0] m IH]; simpl; [reflexivity|].
  destruct (N.eqb_spec k' k0) as [->|Hne0]; simpl.
  - destruct (N.eqb_spec k k0); [contradiction|reflexivity].
  - destruct (N.eqb_spec k k0); [reflexivity|exact IH].
Qed.

Lemma above_find_none lo k m :
  StdMap.above lo m = true -> k <= lo -> StdMap.find k m = None.
Proof.
  revert lo. induction m as [|[k0 v0] m IH]; intros lo Hab Hle; simpl;
    [reflexivity|].
  simpl in Hab. apply andb_true_iff in Hab as [Hlt Hab].
  apply N.ltb_lt in Hlt.
  destruct (N.eqb_spec k k0); [lia|].
  apply (IH k0); [exact Hab|lia].
Qed.

Lemma above_weaken lo lo' m :
  StdMap.above lo m = true -> lo' <= lo -> StdMap.above lo' m = true.
Proof.
  destruct m as [|[k0 v0] m]; simpl; [reflexivity|].
  intros Hab Hle. apply andb_true_iff in Hab as [Hlt Hab].
  apply N.ltb_lt in Hlt. apply andb_true_iff; split; [|exact Hab].
  apply N.ltb_lt; lia.
Qed.

Lemma above_ok lo m : StdMap.above lo m = true -> StdMap.ok m = true.
Proof.
  destruct m as [|[k0 v0] m]; simpl; [reflexivity|].
  intros Hab. now apply andb_true_iff in Hab as [_ Hab].
Qed.

Lemma ok_tail k v m : StdMap.ok ((k, v) :: m) = true -> StdMap.ok m = true.
Proof. simpl. apply above_ok. Qed.

Lemma above_insert lo k v m :
  StdMap.above lo m = true -> lo < k ->
  StdMap.above lo (StdMap.insert k v m) = true.
Proof.
  revert lo. induction m as [|[k0 v0] m IH]; intros lo Hab Hlt; simpl.
  - apply andb_true_iff; split; [now apply N.ltb_lt|reflexivity].
  - simpl in Hab. apply andb_true_iff in Hab as [Hlt0 Hab].
    apply N.ltb_lt in Hlt0.
    destruct (N.compare_spec k k0) as [->|Hk|Hk]; simpl.
    + apply andb_true_iff; split; [now apply N.ltb_lt|exact Hab].
    + apply andb_true_iff; split; [now apply N.ltb_lt|].
      apply andb_true_iff; split; [now apply N.ltb_lt|exact Hab].
    + apply andb_true_iff; split; [now apply N.ltb_lt|].
      apply IH; assumption.
Qed.

Lemma ok_insert k v m :
  StdMap.ok m = true -> StdMap.ok (StdMap.insert k v m) = true.
Proof.
  destruct m as [|[k0 v0] m]; simpl; [reflexivity|].
  intros Hab.
  destruct (N.compare_spec k k0) as [->|Hk|Hk]; simpl.
  - exact Hab.
  - apply andb_true_iff; split; [now apply N.ltb_lt|exact Hab].
  - now apply above_insert.
Qed.

Lemma above_erase lo k m :
  StdMap.above lo m = true -> StdMap.above lo (StdMap.erase k m) = true.
Proof.
  revert lo. induction m as [|[k0 v0] m IH]; intros lo Hab; simpl;
    [reflexivity|].
  simpl in Hab. apply andb_true_iff in Hab as [Hlt0 Hab].
  destruct (N.eqb_spec k k0) as [->|Hne].
  - apply above_weaken with (lo := k0); [exact Hab|].
    apply N.ltb_lt in Hlt0; lia.
  - simpl. apply andb_true_iff; split; [exact Hlt0|now apply IH].
Qed.

Lemma ok_erase k m :
  StdMap.ok m = true -> StdMap.ok (StdMap.erase k m) = true.
Proof.
  destruct m as [|[k0 v0] m]; simpl; [reflexivity|].
  intros Hab. destruct (N.eqb_spec k k0) as [->|Hne].
  - now apply above_ok with (lo := k0).
  - simpl. now apply above_erase.
Qed.

Lemma find_erase_eq k m :
  StdMap.ok m = true -> StdMap.find k (StdMap.erase k m) = None.
Proof.
  induction m as [|[k0 v0] m IH]; intros Hok; simpl; [reflexivity|].
  destruct (N.eqb_spec k k0) as [->|Hne].
  - apply above_find_none with (lo := k0); [exact Hok|lia].
  - simpl. destruct (N.eqb_spec k k0); [contradiction|].
    apply IH. now apply ok_tail in Hok.
Qed.

Lemma insert_erase_id k v m :
  StdMap.ok m = true -> StdMap.find k m = Some v ->
  StdMap.insert k v (StdMap.erase k m) = m.
Proof.
  induction m as [|[k0 v0] m IH]; intros Hok Hf; simpl in *; [discriminate|].
  destruct (N.eqb_spec k k0) as [->|Hne].
  - injection Hf as ->.
    destruct m as [|[k1 v1] m]; simpl; [reflexivity|].
    simpl in Hok. apply andb_true_iff in Hok as [Hlt _].
    apply N.ltb_lt in Hlt.
    destruct (N.compare_spec k0 k1); try lia. reflexivity.
  - simpl. destruct (N.compare_spec k k0) as [->|Hk|Hk].
    + contradiction.
    + rewrite (above_find_none k0 k m) in Hf; [discriminate|exact Hok|lia].
    + f_equal. apply IH; [now apply ok_tail in Hok|exact Hf].
Qed.

Lemma insert_id k v m :
  StdMap.ok m = true -> StdMap.find k m = Some v -> StdMap.insert k v m = m.
Proof.
  induction m as [|[k0 v0] m IH]; intros Hok Hf; simpl in *; [discriminate|].
  destruct (N.eqb_spec k k0) as [->|Hne].
  - injection Hf as ->. now rewrite N.compare_refl.
  - destruct (N.compare_spec k k0) as [->|Hk|Hk].
    + contradiction.
    + rewrite (above_find_none k0 k m) in Hf; [discriminate|exact Hok|lia].
    + f_equal. apply IH; [now apply ok_tail in Hok|exact Hf].
Qed.

Lemma insert_insert k v v' m :
  StdMap.insert k v (StdMap.insert k v' m) = StdMap.insert k v m.
Proof.
  induction m as [|[k0 v0] m IH]; simpl.
  - now rewrite N.compare_refl.
  - destruct (N.compare_spec k k0) as [->|Hk|Hk]; simpl.
    + now rewrite N.compare_refl.
    + now rewrite N.compare_refl.
    + destruct (N.compare_spec k k0); try lia. now rewrite IH.
Qed.

Lemma erase_insert_eq k v m :
  StdMap.ok m = true ->
  StdMap.erase k (StdMap.insert k v m) = StdMap.erase k m.
Proof.
  induction m as [|[k0 v0] m IH]; intros Hok; simpl.
  - now rewrite N.eqb_refl.
  - destruct (N.compare_spec k k0) as [->|Hk|Hk]; simpl.
    + now rewrite N.eqb_refl.
    + rewrite N.eqb_refl. destruct (N.eqb_spec k k0); [lia|].
      f_equal. symmetry.
      assert (Hn : StdMap.find k m = None)
        by (apply above_find_none with (lo := k0); [exact Hok|lia]).
      clear - Hn. induction m as [|[k1 v1] m IH]; simpl in *; [reflexivity|].
      destruct (N.eqb_spec k k1); [discriminate|]. f_equal. now apply IH.
    + destruct (N.eqb_spec k k0); [lia|]. f_equal. apply IH.
      now apply ok_tail in Hok.
Qed.

Lemma erase_absent k m : StdMap.find k m = None -> StdMap.erase k m = m.
Proof.
  induction m as [|[k1 v1] m IH]; simpl; [reflexivity|].
  destruct (N.eqb_spec k k1); [discriminate|]. intros H. f_equal. now apply IH.
Qed.

Lemma length_insert_new k v m :
  StdMap.find k m = None ->
  List.length (StdMap.insert k v m) = S (List.length m).
Proof.
  induction m as [|[k0 v0] m IH]; simpl; [reflexivity|].
  destruct (N.eqb_spec k k0) as [->|Hne]; [discriminate|]. intros Hf.
  destruct (N.compare_spec k k0) as [->|Hk|Hk]; simpl.
  - contradiction.
  - reflexivity.
  - f_equal. now apply IH.
Qed.

Lemma length_erase k v m :
  StdMap.find k m = Some v ->
  S (List.length (StdMap.erase k m)) = List.length m.
Proof.
  induction m as [|[k0 v0] m IH]; simpl; [discriminate|].
  destruct (N.eqb_spec k k0) as [->|Hne]; [reflexivity|].
  intros Hf. simpl. f_equal. now apply IH.
Qed.

Lemma find_some_In k v m : StdMap.find k m = Some v -> In (k, v) m.
Proof.
  induction m as [|[k0 v0] m IH]; simpl; [discriminate|].
  destruct (N.eqb_spec k k0) as [->|Hne].
  - intros [= ->]. now left.
  - intros Hf. right. now apply IH.
Qed.

Lemma In_find_some k v m :
  StdMap.ok m = true -> In (k, v) m -> StdMap.find k m = Some v.
Proof.
  induction m as [|[k0 v0] m IH]; intros Hok Hin; simpl in *; [contradiction|].
  destruct Hin as [[= -> ->]|Hin].
  - now rewrite N.eqb_refl.
  - destruct (N.eqb_spec k k0) as [->|Hne].
    + assert (Hn : StdMap.find k0 m = None)
        by (apply above_find_none with (lo := k0); [exact Hok|lia]).
      rewrite (IH (above_ok _ _ Hok) Hin) in Hn. discriminate.
    + apply IH; [now apply above_ok in Hok|exact Hin].
Qed.

End StdMapFacts.

(** ** Removing a variable that no plot holds *)

Lemma RemoveVariable_loop_absent v its st :
  forallb (fun e => negb (StdMap.mem v (variableCurves (snd e)))) its = true ->
  RemoveVariable_loop v its st = st.
Proof.
  induction its as [|[k pd] its IH]; simpl; [reflexivity|].
  intros H. apply andb_true_iff in H as [Hh Ht].
  unfold StdMap.mem in Hh.
  destruct (StdMap.find v (variableCurves pd)); [discriminate|].
  now apply IH.
Qed.

Lemma show_emptyPlot_idem st :
  show_emptyPlot (show_emptyPlot st) = show_emptyPlot st.
Proof.
  unfold show_emptyPlot.
  destruct (StdMap.empty (plotData st)) eqn:E; simpl; rewrite E; reflexivity.
Qed.

Lemma var_absent_show v st :
  var_absent v (show_emptyPlot st) = var_absent v st.
Proof.
  unfold show_emptyPlot. now destruct (StdMap.empty (plotData st)).
Qed.

Lemma show_emptyPlot_id st :
  plotData st <> [] \/ emptyPlotVisible st = true -> show_emptyPlot st = st.
Proof.
  unfold show_emptyPlot. destruct st as [m vis l y r g1 g2 g3 w]; simpl.
  destruct m; simpl; [|reflexivity].
  intros [H|H]; [contradiction|]. now subst.
Qed.

(** ** A map split at one of its keys *)

Section Split.
Context {V : Type}.
Implicit Types (m : StdMap.t V) (k p : N) (v : V).

Lemma split_find p v l1 l2 :
  below p l1 -> StdMap.find p (l1 ++ (p, v) :: l2) = Some v.
Proof.
  unfold below. induction l1 as [|[k0 v0] l1 IH]; simpl; intros H.
  - now rewrite N.eqb_refl.
  - apply andb_true_iff in H as [Hlt H]. apply N.ltb_lt in Hlt.
    destruct (N.eqb_spec p k0); [lia|now apply IH].
Qed.

Lemma split_insert p v v' l1 l2 :
  below p l1 ->
  StdMap.insert p v' (l1 ++ (p, v) :: l2) = l1 ++ (p, v') :: l2.
Proof.
  unfold below. induction l1 as [|[k0 v0] l1 IH]; simpl; intros H.
  - now rewrite N.compare_refl.
  - apply andb_true_iff in H as [Hlt H]. apply N.ltb_lt in Hlt.
    destruct (N.compare_spec p k0); try lia. now rewrite IH.
Qed.

Lemma split_erase p v l1 l2 :
  below p l1 -> StdMap.erase p (l1 ++ (p, v) :: l2) = l1 ++ l2.
Proof.
  unfold below. induction l1 as [|[k0 v0] l1 IH]; simpl; intros H.
  - now rewrite N.eqb_refl.
  - apply andb_true_iff in H as [Hlt H]. apply N.ltb_lt in Hlt.
    destruct (N.eqb_spec p k0); [lia|now rewrite IH].
Qed.

Lemma find_split p v m :
  StdMap.ok m = true -> StdMap.find p m = Some v ->
  exists l1 l2, m = l1 ++ (p, v) :: l2 /\ below p l1.
Proof.
  induction m as [|[k0 v0] m IH]; simpl; intros Hok Hf; [discriminate|].
  destruct (N.eqb_spec p k0) as [->|Hne].
  - injection Hf as ->. exists [], m. split; reflexivity.
  - destruct (IH (above_ok _ _ Hok) Hf) as (l1 & l2 & -> & Hb).
    exists ((k0, v0) :: l1), l2. split; [reflexivity|].
    unfold below; simpl. apply andb_true_iff; split; [|exact Hb].
    apply N.ltb_lt. destruct (N.lt_ge_cases k0 p) as [Hlt|Hge]; [exact Hlt|].
    rewrite (above_find_none k0 p) in Hf; [discriminate|exact Hok|exact Hge].
Qed.

Lemma split_absent p v l1 l2 :
  StdMap.ok (l1 ++ (p, v) :: l2) = true -> StdMap.find p (l1 ++ l2) = None.
Proof.
  intros Hok.
  destruct (StdMap.find p (l1 ++ l2)) as [v'|] eqn:Hf; [|reflexivity].
  exfalso. apply find_some_In in Hf.
  assert (Hin : In (p, v') (l1 ++ (p, v) :: l2))
    by (apply in_app_iff; apply in_app_iff in Hf as [H|H];
        [now left|right; now right]).
  revert Hok Hf. clear Hin. induction l1 as [|[k0 v0] l1 IH]; intros Hok Hf.
  - simpl in *. apply In_find_some in Hf; [|now apply above_ok in Hok].
    rewrite (above_find_none p p) in Hf; [discriminate|exact Hok|lia].
  - simpl in Hf. destruct Hf as [[= -> ->]|Hf].
    + assert (Hn : StdMap.find p (l1 ++ (p, v) :: l2) = None)
        by (apply above_find_none with (lo := p); [exact Hok|lia]).
      assert (Hs : In (p, v) (l1 ++ (p, v) :: l2))
        by (apply in_app_iff; right; now left).
      apply In_find_some in Hs; [|now apply above_ok in Hok].
      rewrite Hs in Hn. discriminate.
    + apply IH; [now apply ok_tail in Hok|exact Hf].
Qed.

End Split.

(** ** [RemoveVariable(_id, _plotId)], [RemovePlot] and [Clear] *)

Lemma RemoveVariable_plot_plotData st p pd l1 l2 v c vs :
  plotData st = l1 ++ (p, pd) :: l2 -> below p l1 ->
  variableCurves pd = (v, c) :: vs ->
  plotData (RemoveVariable_plot v p st) =
    match vs with
    | [] => l1 ++ l2
    | _ :: _ =>
        l1 ++ (p, mkPlotData (id pd)
                    (IncrementalPlotOps.RemoveCurve c (plot pd)) vs) :: l2
    end
  /\ emptyPlotVisible (RemoveVariable_plot v p st) =
       match vs, l1 ++ l2 with
       | [], [] => true
       | _, _ => emptyPlotVisible st
       end.
Proof.
  intros Hm Hb Hv. unfold RemoveVariable_plot.
  rewrite Hm, (split_find _ _ _ _ Hb), Hv. simpl. rewrite N.eqb_refl.
  destruct vs as [|e vs]; simpl.
  - rewrite Hm, (split_erase _ _ _ _ Hb). unfold show_emptyPlot; simpl.
    destruct (l1 ++ l2); simpl; split; reflexivity.
  - rewrite Hm, (split_insert _ _ _ _ _ Hb). unfold show_emptyPlot; simpl.
    destruct l1; simpl; split; reflexivity.
Qed.

Lemma RemovePlot_loop_plotData p l1 l2 :
  below p l1 ->
  forall n fuel st pd,
    (n <= fuel)%nat ->
    plotData st = l1 ++ (p, pd) :: l2 ->
    List.length (variableCurves pd) = S n ->
    exists pd',
      plotData (RemovePlot_loop fuel p st) = l1 ++ (p, pd') :: l2
      /\ List.length (variableCurves pd') = 1%nat
      /\ emptyPlotVisible (RemovePlot_loop fuel p st) = emptyPlotVisible st.
Proof.
  intros Hb. induction n as [|n IH]; intros fuel st pd Hle Hm Hlen.
  - exists pd. destruct fuel as [|fuel]; simpl; [now repeat split|].
    rewrite Hm, (split_find _ _ _ _ Hb). unfold StdMap.size. rewrite Hlen.
    simpl. now repeat split.
  - destruct fuel as [|fuel]; [lia|]. simpl.
    rewrite Hm, (split_find _ _ _ _ Hb). unfold StdMap.size. rewrite Hlen.
    destruct (variableCurves pd) as [|[v c] vs] eqn:Hv; [discriminate|].
    replace (1 <? N.of_nat (S (S n))) with true
      by (symmetry; apply N.ltb_lt; lia).
    simpl.
    destruct (RemoveVariable_plot_plotData st p pd l1 l2 v c vs Hm Hb Hv)
      as [Hp Hvis].
    simpl in Hlen. destruct vs as [|e vs]; [discriminate|].
    destruct (IH fuel (RemoveVariable_plot v p st) _ ltac:(lia) Hp)
      as (pd' & H1 & H2 & H3); [simpl in *; lia|].
    exists pd'. rewrite H1, H2, H3, Hvis. now repeat split.
Qed.

Lemma RemovePlot_plotData st p pd l1 l2 :
  plotData st = l1 ++ (p, pd) :: l2 -> below p l1 ->
  plotData (RemovePlot p st) = l1 ++ l2
  /\ emptyPlotVisible (RemovePlot p st) =
       match variableCurves pd, l1 ++ l2 with
       | _ :: _, [] => true
       | _, _ => emptyPlotVisible st
       end.
Proof.
  intros Hm Hb. unfold RemovePlot. rewrite Hm, (split_find _ _ _ _ Hb).
  destruct (variableCurves pd) as [|[v c] vs] eqn:Hv.
  - simpl. rewrite Hm, (split_erase _ _ _ _ Hb). split; reflexivity.
  - change (StdMap.empty ((v, c) :: vs)) with false. cbv iota zeta.
    change (List.length ((v, c) :: vs)) with (S (List.length vs)).
    destruct (RemovePlot_loop_plotData p l1 l2 Hb (List.length vs)
                (S (List.length vs)) st pd ltac:(lia) Hm)
      as (pd' & H1 & H2 & H3); [now rewrite Hv|].
    rewrite H1, (split_find _ _ _ _ Hb).
    destruct (variableCurves pd') as [|[v' c'] vs'] eqn:Hv'; [discriminate|].
    destruct vs' as [|e vs']; [|discriminate]. cbv [StdMap.begin]. cbv iota beta.
    destruct (RemoveVariable_plot_plotData _ p pd' l1 l2 v' c' [] H1 Hb Hv')
      as [Hp Hvis].
    rewrite Hp, Hvis, H3. split; reflexivity.
Qed.

Lemma RemovePlot_absent p st :
  StdMap.find p (plotData st) = None -> RemovePlot p st = st.
Proof. intros H. unfold RemovePlot. now rewrite H. Qed.

Lemma RemovePlot_removes p st :
  StdMap.ok (plotData st) = true ->
  StdMap.find p (plotData (RemovePlot p st)) = None.
Proof.
  intros Hok. destruct (StdMap.find p (plotData st)) as [pd|] eqn:Hf.
  - destruct (find_split p pd _ Hok Hf) as (l1 & l2 & Hm & Hb).
    destruct (RemovePlot_plotData st p pd l1 l2 Hm Hb) as [-> _].
    apply split_absent with (v := pd). now rewrite <- Hm.
  - now rewrite RemovePlot_absent.
Qed.

Lemma Clear_loop_spec :
  forall fuel st,
    List.length (plotData st) = fuel ->
    plotData (Clear_loop fuel st) = []
    /\ emptyPlotVisible (Clear_loop fuel st) =
         emptyPlotVisible st || last_plot_has_variable st.
Proof.
  induction fuel as [|fuel IH]; intros st Hlen.
  - destruct (plotData st) eqn:Hm; [|discriminate]. simpl.
    unfold last_plot_has_variable. rewrite Hm. simpl.
    now rewrite orb_false_r.
  - destruct (plotData st) as [|[p pd] tl] eqn:Hm; [discriminate|].
    simpl. rewrite Hm. simpl.
    destruct (RemovePlot_plotData st p pd [] tl Hm eq_refl) as [Hp Hvis].
    simpl in Hp, Hvis.
    destruct (IH (RemovePlot p st)) as [H1 H2];
      [rewrite Hp; simpl in Hlen; lia|].
    split; [exact H1|]. rewrite H2, Hvis.
    unfold last_plot_has_variable. rewrite Hp, Hm.
    destruct tl as [|e tl]; simpl.
    + destruct (variableCurves pd); simpl;
        [now rewrite orb_false_r|now rewrite orb_true_r].
    + destruct (variableCurves pd); reflexivity.
Qed.

(** C5, as stated, fails: on a canvas of three plots with one variable
    each, [Clear] leaves no plot but shows the placeholder, which
    [PlotCount] counts. *)
Lemma Clear_three_plots_PlotCount :
  List.length (plotData canvas_three_plots) = 3%nat
  /\ ~ (plotData (Clear canvas_three_plots) = []
        /\ PlotCount (Clear canvas_three_plots) = 0).
Proof.
  split; [reflexivity|]. intros [_ H]. vm_compute in H. discriminate.
Qed.

(** C5 (amended): after [Clear] on any canvas no Plot Record remains,
    and [PlotCount] returns 1 if the placeholder is then visible and 0 if
    it is hidden.  [Clear] never hides the placeholder, and it shows it
    when the canvas held a plot and every plot held a variable: then
    [PlotCount] returns 1. *)
Theorem Clear_leaves_no_plot st :
  plotData (Clear st) = []
  /\ PlotCount (Clear st) = (if emptyPlotVisible (Clear st) then 1 else 0)
  /\ (emptyPlotVisible st = true -> emptyPlotVisible (Clear st) = true)
  /\ (plotData st <> [] ->
      forallb (fun e => negb (StdMap.empty (variableCurves (snd e))))
              (plotData st) = true ->
      emptyPlotVisible (Clear st) = true /\ PlotCount (Clear st) = 1).
Proof.
  destruct (Clear_loop_spec (List.length (plotData st)) st eq_refl)
    as [H1 H2].
  fold (Clear st) in H1, H2.
  assert (Hc : PlotCount (Clear st)
               = if emptyPlotVisible (Clear st) then 1 else 0).
  { unfold PlotCount. rewrite H1. simpl. now destruct (emptyPlotVisible _). }
  assert (Hlast : plotData st <> [] ->
                  forallb (fun e => negb (StdMap.empty (variableCurves (snd e))))
                          (plotData st) = true ->
                  last_plot_has_variable st = true).
  { unfold last_plot_has_variable. generalize (plotData st) as m.
    induction m as [|[k pd] m IH]; intros Hne Hall; [contradiction|].
    simpl in Hall. apply andb_true_iff in Hall as [Hh Hall].
    destruct m as [|e m]; [exact Hh|].
    apply IH; [discriminate|exact Hall]. }
  split; [exact H1|]. split; [exact Hc|]. split.
  - intros Hv. now rewrite H2, Hv.
  - intros Hne Hall. rewrite Hc, H2, (Hlast Hne Hall), orb_true_r.
    split; reflexivity.
Qed.

Lemma Clear_leaves_no_plot_witness :
  plotData (Clear canvas_three_plots) = []
  /\ emptyPlotVisible (Clear canvas_three_plots) = true
  /\ PlotCount (Clear canvas_three_plots) = 1.
Proof.
  destruct (Clear_leaves_no_plot canvas_three_plots) as (H1 & _ & _ & H4).
  split; [exact H1|]. apply H4; [discriminate|reflexivity].
Defined.

(** C9, as stated, fails: in a canvas without plots whose placeholder is
    hidden, removing a variable that no plot holds shows the placeholder. *)
Lemma RemoveVariable_absent_changes :
  var_absent 1 canvas_hidden_empty = true
  /\ RemoveVariable 1 canvas_hidden_empty <> canvas_hidden_empty.
Proof.
  split; [reflexivity|]. intros H.
  apply (f_equal emptyPlotVisible) in H. vm_compute in H. discriminate.
Qed.

Lemma RemoveVariable_absent_show v st :
  var_absent v st = true -> RemoveVariable v st = show_emptyPlot st.
Proof.
  intros H. unfold RemoveVariable.
  now rewrite (RemoveVariable_loop_absent v (plotData st) st H).
Qed.

(** ** The placeholder invariant *)

Lemma empty_insert {V} k (v : V) m : StdMap.empty (StdMap.insert k v m) = false.
Proof.
  destruct m as [|[k0 v0] m]; simpl; [reflexivity|].
  now destruct (k ?= k0).
Qed.

Lemma find_not_empty {V} k (v : V) m :
  StdMap.find k m = Some v -> StdMap.empty m = false.
Proof. destruct m; [discriminate|reflexivity]. Qed.

Lemma empty_true {V} (m : StdMap.t V) : StdMap.empty m = true -> m = [].
Proof. destruct m; [reflexivity|discriminate]. Qed.

Lemma empty_false {V} (m : StdMap.t V) : StdMap.empty m = false -> m <> [].
Proof. destruct m; [discriminate|intros _ H; discriminate]. Qed.

Lemma inv_pre m vis : placeholder_inv m vis -> placeholder_pre m vis.
Proof.
  intros (H1 & H2 & H3). repeat split; try assumption.
  intros E. now rewrite H3.
Qed.

Lemma pre_show st :
  placeholder_pre (plotData st) (emptyPlotVisible st) ->
  placeholder_inv (plotData (show_emptyPlot st))
                  (emptyPlotVisible (show_emptyPlot st)).
Proof.
  intros (H1 & H2 & H3). unfold show_emptyPlot.
  destruct (StdMap.empty (plotData st)) eqn:E; simpl.
  - repeat split; try assumption. now rewrite E.
  - repeat split; try assumption. rewrite E. now apply H3.
Qed.

Lemma pre_erase k m vis :
  placeholder_pre m vis -> placeholder_pre (StdMap.erase k m) vis.
Proof.
  intros (H1 & H2 & H3). repeat split.
  - now apply ok_erase.
  - intros k0 pd Hf. destruct (N.eq_dec k0 k) as [->|Hne].
    + now rewrite find_erase_eq in Hf.
    + rewrite find_erase_ne in Hf by assumption. now apply (H2 k0).
  - intros E. apply H3. destruct m; [discriminate|reflexivity].
Qed.

Lemma pre_insert k pd m vis :
  placeholder_pre m vis -> variableCurves pd <> [] ->
  placeholder_pre (StdMap.insert k pd m) false.
Proof.
  intros (H1 & H2 & H3) Hne. repeat split.
  - now apply ok_insert.
  - intros k0 pd0 Hf. destruct (N.eq_dec k0 k) as [->|Hk].
    + rewrite find_insert_eq in Hf. now injection Hf as <-.
    + rewrite find_insert_ne in Hf by assumption. now apply (H2 k0).
Qed.

Lemma pre_insert_keep k pd x m vis :
  placeholder_pre m vis -> StdMap.find k m = Some x ->
  variableCurves pd <> [] ->
  placeholder_pre (StdMap.insert k pd m) vis.
Proof.
  intros H Hf Hne. pose proof H as (_ & _ & H3).
  rewrite (H3 (find_not_empty _ _ _ Hf)). now apply pre_insert with (vis := vis).
Qed.

Lemma pre_inv_nonempty m :
  placeholder_pre m false -> StdMap.empty m = false -> placeholder_inv m false.
Proof.
  intros (H1 & H2 & H3) E. repeat split; try assumption. now rewrite E.
Qed.

Lemma insert_not_nil {V} k (v : V) m : StdMap.insert k v m <> [].
Proof. apply empty_false, empty_insert. Qed.

Lemma AddVariable_inv i n p st :
  placeholder_inv (plotData st) (emptyPlotVisible st) ->
  placeholder_inv (plotData (AddVariable i n p st))
                  (emptyPlotVisible (AddVariable i n p st)).
Proof.
  intros Hinv. unfold AddVariable.
  destruct (p =? EMPTY_PLOT).
  - simpl. rewrite find_insert_eq. simpl.
    unfold hide_emptyPlot. simpl. rewrite insert_insert, empty_insert. simpl.
    apply pre_inv_nonempty; [|apply empty_insert].
    apply pre_insert with (vis := emptyPlotVisible st);
      [now apply inv_pre|discriminate].
  - destruct (StdMap.find p (plotData st)) as [pd|] eqn:Hf; [|exact Hinv].
    unfold hide_emptyPlot. simpl. rewrite empty_insert. simpl.
    apply pre_inv_nonempty; [|apply empty_insert].
    apply pre_insert with (vis := emptyPlotVisible st);
      [now apply inv_pre|apply insert_not_nil].
Qed.

Lemma RemoveVariable_found_pre v k pd c st :
  placeholder_pre (plotData st) (emptyPlotVisible st) ->
  StdMap.find k (plotData st) = Some pd ->
  placeholder_pre (plotData (RemoveVariable_found v k pd c st))
                  (emptyPlotVisible (RemoveVariable_found v k pd c st)).
Proof.
  intros Hpre Hf. unfold RemoveVariable_found.
  destruct (StdMap.empty (StdMap.erase v (variableCurves pd))) eqn:E; simpl.
  - now apply pre_erase.
  - apply pre_insert_keep with (x := pd); try assumption.
    simpl. now apply empty_false.
Qed.

Lemma RemoveVariable_loop_pre v st :
  StdMap.ok (plotData st) = true ->
  placeholder_pre (plotData st) (emptyPlotVisible st) ->
  forall its,
    (forall k pd, In (k, pd) its -> In (k, pd) (plotData st)) ->
    placeholder_pre (plotData (RemoveVariable_loop v its st))
                    (emptyPlotVisible (RemoveVariable_loop v its st)).
Proof.
  intros Hok Hpre. induction its as [|[k pd] its IH]; intros Hin; simpl.
  - exact Hpre.
  - destruct (StdMap.find v (variableCurves pd)) as [c|].
    + apply RemoveVariable_found_pre; [exact Hpre|].
      apply In_find_some; [exact Hok|]. apply Hin. now left.
    + apply IH. intros k0 pd0 H. apply Hin. now right.
Qed.

Lemma RemoveVariable_inv v st :
  placeholder_inv (plotData st) (emptyPlotVisible st) ->
  placeholder_inv (plotData (RemoveVariable v st))
                  (emptyPlotVisible (RemoveVariable v st)).
Proof.
  intros Hinv. unfold RemoveVariable. apply pre_show.
  apply RemoveVariable_loop_pre; [apply Hinv|now apply inv_pre|auto].
Qed.

Lemma RemoveVariable_plot_inv v p st :
  placeholder_inv (plotData st) (emptyPlotVisible st) ->
  placeholder_inv (plotData (RemoveVariable_plot v p st))
                  (emptyPlotVisible (RemoveVariable_plot v p st)).
Proof.
  intros Hinv. unfold RemoveVariable_plot.
  destruct (StdMap.find p (plotData st)) as [pd|] eqn:Hf; [|exact Hinv].
  destruct (StdMap.find v (variableCurves pd)) as [c|]; [|exact Hinv].
  apply inv_pre in Hinv.
  destruct (StdMap.empty (StdMap.erase v (variableCurves pd))) eqn:E.
  - apply (pre_show (set_plotData _ (set_plotLayout _ (set_manager _ st)))).
    simpl. now apply pre_erase.
  - apply (pre_show (set_plotData _ (set_manager _ st))). simpl.
    apply pre_insert_keep with (x := pd); try assumption.
    simpl. now apply empty_false.
Qed.

(** What [RemoveVariable(_id, _plotId)] and the removal of an empty plot
    preserve, [RemovePlot] and [Clear] preserve. *)
Section Preserved.
Variable P : PlotCanvas -> Prop.
Hypothesis P_RemoveVariable_plot :
  forall v p st, P st -> P (RemoveVariable_plot v p st).
Hypothesis P_remove_empty_plot :
  forall p pd st,
    P st -> StdMap.find p (plotData st) = Some pd ->
    StdMap.empty (variableCurves pd) = true ->
    P (set_plotData (StdMap.erase p (plotData st))
         (set_plotLayout (layout_take (widget (plot pd)) (plotLayout st)) st)).

Lemma RemovePlot_loop_preserves p :
  forall fuel st, P st -> P (RemovePlot_loop fuel p st).
Proof.
  induction fuel as [|fuel IH]; intros st HP; simpl; [exact HP|].
  destruct (StdMap.find p (plotData st)) as [pd|]; [|exact HP].
  destruct (1 <? StdMap.size (variableCurves pd)); [|exact HP].
  destruct (StdMap.begin (variableCurves pd)) as [[v c]|]; [|exact HP].
  apply IH. now apply P_RemoveVariable_plot.
Qed.

Lemma RemovePlot_preserves p st : P st -> P (RemovePlot p st).
Proof.
  intros HP. unfold RemovePlot.
  destruct (StdMap.find p (plotData st)) as [pd|] eqn:Hf; [|exact HP].
  destruct (StdMap.empty (variableCurves pd)) eqn:E.
  - exact (P_remove_empty_plot p pd st HP Hf E).
  - cbv zeta.
    pose proof (RemovePlot_loop_preserves p
                  (List.length (variableCurves pd)) st HP) as Hl.
    destruct (StdMap.find p (plotData (RemovePlot_loop _ p st))) as [pd'|];
      [|exact Hl].
    destruct (StdMap.begin (variableCurves pd')) as [[v c]|]; [|exact Hl].
    now apply P_RemoveVariable_plot.
Qed.

Lemma Clear_preserves st : P st -> P (Clear st).
Proof.
  unfold Clear. generalize (List.length (plotData st)) as fuel.
  intros fuel. revert st.
  induction fuel as [|fuel IH]; intros st HP; simpl; [exact HP|].
  destruct (StdMap.begin (plotData st)) as [[p pd]|]; [|exact HP].
  apply IH. now apply RemovePlot_preserves.
Qed.

End Preserved.

Lemma RemovePlot_inv p st :
  placeholder_inv (plotData st) (emptyPlotVisible st) ->
  placeholder_inv (plotData (RemovePlot p st))
                  (emptyPlotVisible (RemovePlot p st)).
Proof.
  apply (RemovePlot_preserves
           (fun s => placeholder_inv (plotData s) (emptyPlotVisible s))).
  - intros v q s. apply RemoveVariable_plot_inv.
  - intros q pd s (_ & Hne & _) Hf E. exfalso.
    apply (Hne q pd Hf). now apply empty_true.
Qed.

Lemma Clear_inv st :
  placeholder_inv (plotData st) (emptyPlotVisible st) ->
  placeholder_inv (plotData (Clear st)) (emptyPlotVisible (Clear st)).
Proof.
  apply (Clear_preserves
           (fun s => placeholder_inv (plotData s) (emptyPlotVisible s))).
  - intros v q s. apply RemoveVariable_plot_inv.
  - intros q pd s (_ & Hne & _) Hf E. exfalso.
    apply (Hne q pd Hf). now apply empty_true.
Qed.

Lemma OnAddVariable_loop_inv i n t st its :
  placeholder_inv (plotData st) (emptyPlotVisible st) ->
  placeholder_inv (plotData (OnAddVariable_loop i n t its st))
                  (emptyPlotVisible (OnAddVariable_loop i n t its st)).
Proof.
  intros Hinv. induction its as [|[k pd] its IH]; simpl; [exact Hinv|].
  destruct (StdMap.mem t (variableCurves pd)); [|exact IH].
  now apply AddVariable_inv.
Qed.

Lemma OnAddVariable_inv i n t st :
  placeholder_inv (plotData st) (emptyPlotVisible st) ->
  placeholder_inv (plotData (OnAddVariable i n t st))
                  (emptyPlotVisible (OnAddVariable i n t st)).
Proof.
  intros Hinv. unfold OnAddVariable.
  destruct (negb (t =? EMPTY_VARIABLE));
    [now apply OnAddVariable_loop_inv|now apply AddVariable_inv].
Qed.

Lemma AddVariable_name_inv n p st :
  placeholder_inv (plotData st) (emptyPlotVisible st) ->
  placeholder_inv (plotData (snd (AddVariable_name n p st)))
                  (emptyPlotVisible (snd (AddVariable_name n p st))).
Proof.
  intros Hinv. unfold AddVariable_name, AddVariablePill. simpl.
  now apply OnAddVariable_inv.
Qed.

(** ** [OnMoveVariable], step by step *)

Lemma OnMoveVariable_exec v t st sk c tgt src pc :
  OnMoveVariable_find v t (plotData st) None None = (Some (sk, c), tgt) ->
  StdMap.find sk (plotData st) = Some src ->
  StdMap.find c (curves (plot src)) = Some pc ->
  let src' :=
    mkPlotData (id src)
      (set_curves (StdMap.erase c (curves (plot src))) (plot src))
      (StdMap.erase v (variableCurves src)) in
  let m1 := StdMap.insert sk src' (plotData st) in
  exists st',
    OnMoveVariable v t st = Some st'
    /\ match tgt with
       | Some tk =>
           match StdMap.find tk m1 with
           | Some tg =>
               let tg' :=
                 mkPlotData (id tg)
                   (IncrementalPlotOps.AttachCurve c pc (plot tg))
                   (StdMap.insert v c (variableCurves tg)) in
               let m2 := StdMap.insert tk tg' m1 in
               plotData st' =
                 (if StdMap.empty (if tk =? sk then variableCurves tg'
                                   else variableCurves src')
                  then StdMap.erase sk m2 else m2)
               /\ emptyPlotVisible st' = emptyPlotVisible st
           | None =>
               plotData st' =
                 (if StdMap.empty (variableCurves src')
                  then StdMap.erase sk m1 else m1)
               /\ emptyPlotVisible st' = emptyPlotVisible st
           end
       | None =>
           let g := globalPlotId st in
           let new' :=
             mkPlotData g
               (IncrementalPlotOps.AttachCurve c pc (mkPlot (nextWidget st) []))
               (StdMap.insert v c []) in
           let m3 := StdMap.insert g new' m1 in
           plotData st' =
             (if StdMap.empty (variableCurves src')
              then if g =? sk then m3 else StdMap.erase sk m3
              else m3)
           /\ emptyPlotVisible st' = false
       end
    /\ globalVariableId st' = globalVariableId st
    /\ globalCurveId st' = globalCurveId st
    /\ globalPlotId st' =
         match tgt with
         | Some _ => globalPlotId st
         | None => uint32_succ (globalPlotId st)
         end.
Proof.
  intros Hscan Hsrc Hc src' m1. unfold OnMoveVariable.
  rewrite Hscan, Hsrc. unfold IncrementalPlotOps.DetachCurve. rewrite Hc.
  fold src'. cbv zeta.
  change (plotData (set_plotData (StdMap.insert sk src' (plotData st)) st))
    with m1.
  destruct tgt as [tk|].
  - destruct (StdMap.find tk m1) as [tg|] eqn:Htg.
    + destruct (StdMap.empty
                  (if tk =? sk
                   then variableCurves
                          (mkPlotData (id tg)
                             (IncrementalPlotOps.AttachCurve c pc (plot tg))
                             (StdMap.insert v c (variableCurves tg)))
                   else variableCurves src')) eqn:E;
        eexists; (split; [reflexivity|]); simpl; rewrite ?E;
        repeat split; reflexivity.
    + destruct (StdMap.empty (variableCurves src')) eqn:E;
        eexists; (split; [reflexivity|]); simpl; repeat split; reflexivity.
  - unfold AddPlot. cbv zeta.
    change (plotData (set_plotData m1 st)) with m1.
    cbn [plotData globalPlotId set_plotData nextWidget].
    rewrite find_insert_eq. rewrite insert_insert.
    unfold hide_emptyPlot. cbn [plotData set_plotData]. rewrite empty_insert.
    cbn [negb].
    destruct (StdMap.empty (variableCurves src')) eqn:E.
    + destruct (globalPlotId st =? sk) eqn:Eg; cbn [negb];
        eexists; (split; [reflexivity|]); simpl; repeat split; reflexivity.
    + eexists; (split; [reflexivity|]); simpl; repeat split; reflexivity.
Qed.

Lemma OnMoveVariable_find_target v t its :
  forall pI tI r tk,
    OnMoveVariable_find v t its pI tI = (r, Some tk) ->
    tI = Some tk \/ exists pd, In (tk, pd) its.
Proof.
  induction its as [|[k pd] its IH]; intros pI tI r tk H; simpl in H.
  - injection H as _ ->. now left.
  - set (pI' := match StdMap.find v (variableCurves pd) with
                | Some c => Some (k, c) | None => pI end) in *.
    set (tI' := if StdMap.mem t (variableCurves pd) then Some k else tI) in *.
    assert (Ht : tI' = Some tk -> tI = Some tk \/ exists pd0, In (tk, pd0) ((k, pd) :: its)).
    { unfold tI'. destruct (StdMap.mem t (variableCurves pd)).
      - intros [= <-]. right. exists pd. now left.
      - now left. }
    destruct pI' as [x|]; [destruct tI' as [y|]|].
    + injection H as _ <-. now apply Ht.
    + apply IH in H as [H|[pd0 H]]; [discriminate|].
      right. exists pd0. now right.
    + apply IH in H as [H|[pd0 H]]; [now apply Ht|].
      right. exists pd0. now right.
Qed.

Ltac find_at k k0 H :=
  destruct (N.eq_dec k k0) as [->|?];
  [rewrite ?find_insert_eq in H
  |rewrite ?find_insert_ne in H by assumption].

Lemma OnMoveVariable_inv v t st st' :
  placeholder_inv (plotData st) (emptyPlotVisible st) ->
  OnMoveVariable v t st = Some st' ->
  placeholder_inv (plotData st') (emptyPlotVisible st').
Proof.
  intros Hinv Hrun.
  destruct (OnMoveVariable_find v t (plotData st) None None)
    as [[[sk c]|] tgt] eqn:Hscan;
    [|unfold OnMoveVariable in Hrun; rewrite Hscan in Hrun;
      now injection Hrun as <-].
  destruct (StdMap.find sk (plotData st)) as [src|] eqn:Hsrc;
    [|unfold OnMoveVariable in Hrun; rewrite Hscan, Hsrc in Hrun;
      now injection Hrun as <-].
  destruct (StdMap.find c (curves (plot src))) as [pc|] eqn:Hc;
    [|unfold OnMoveVariable, IncrementalPlotOps.DetachCurve in Hrun;
      rewrite Hscan, Hsrc, Hc in Hrun; discriminate].
  destruct (OnMoveVariable_exec v t st sk c tgt src pc Hscan Hsrc Hc)
    as (st'' & Hrun' & Hres & _).
  rewrite Hrun in Hrun'. injection Hrun' as <-.
  destruct Hinv as (Hok & Hne & Hvis).
  assert (Hfalse : emptyPlotVisible st = false)
    by (rewrite Hvis; exact (find_not_empty _ _ _ Hsrc)).
  set (src' := mkPlotData (id src)
                 (set_curves (StdMap.erase c (curves (plot src))) (plot src))
                 (StdMap.erase v (variableCurves src))) in *.
  set (m1 := StdMap.insert sk src' (plotData st)) in *.
  assert (Hok1 : StdMap.ok m1 = true) by now apply ok_insert.
  destruct tgt as [tk|].
  - destruct (StdMap.find tk m1) as [tg|] eqn:Htg.
    + cbv zeta in Hres.
      set (tg' := mkPlotData (id tg)
                    (IncrementalPlotOps.AttachCurve c pc (plot tg))
                    (StdMap.insert v c (variableCurves tg))) in *.
      destruct Hres as [Hp Hv]. rewrite Hv, Hfalse.
      assert (Htg' : variableCurves tg' <> []) by apply insert_not_nil.
      destruct (N.eqb_spec tk sk) as [->|Hts].
      * assert (E : StdMap.empty (variableCurves tg') = false)
          by exact (empty_insert _ _ _).
        rewrite E in Hp. rewrite Hp. unfold m1. rewrite insert_insert.
        apply pre_inv_nonempty; [|apply empty_insert].
        apply pre_insert with (vis := false); [|exact Htg'].
        repeat split; auto.
      * destruct (StdMap.empty (variableCurves src')) eqn:E; rewrite Hp.
        -- repeat split.
           ++ now apply ok_erase, ok_insert.
           ++ intros k pd Hf. destruct (N.eq_dec k sk) as [->|Hk].
              ** rewrite find_erase_eq in Hf; [discriminate|now apply ok_insert].
              ** rewrite find_erase_ne in Hf by assumption.
                 find_at k tk Hf; [now injection Hf as <-|].
                 unfold m1 in Hf. rewrite find_insert_ne in Hf by assumption.
                 now apply (Hne k).
           ++ symmetry. apply (find_not_empty tk tg').
              rewrite find_erase_ne by assumption. apply find_insert_eq.
        -- repeat split.
           ++ now apply ok_insert.
           ++ intros k pd Hf.
              find_at k tk Hf; [now injection Hf as <-|].
              unfold m1 in Hf. find_at k sk Hf.
              ** injection Hf as <-. now apply empty_false.
              ** now apply (Hne k).
           ++ symmetry. apply empty_insert.
    + exfalso.
      apply OnMoveVariable_find_target in Hscan as [H|[pd Hin]];
        [discriminate|].
      apply In_find_some in Hin; [|exact Hok].
      unfold m1 in Htg. destruct (N.eq_dec tk sk) as [->|Hk].
      * now rewrite find_insert_eq in Htg.
      * rewrite find_insert_ne in Htg by assumption. congruence.
  - cbv zeta in Hres.
    set (g := globalPlotId st) in *.
    set (new' := mkPlotData g
                   (IncrementalPlotOps.AttachCurve c pc
                      (mkPlot (nextWidget st) []))
                   (StdMap.insert v c [])) in *.
    destruct Hres as [Hp Hv]. rewrite Hv.
    assert (Hnew : variableCurves new' <> []) by discriminate.
    destruct (StdMap.empty (variableCurves src')) eqn:E.
    + destruct (N.eqb_spec g sk) as [Hg|Hg]; rewrite Hp.
      * rewrite Hg. unfold m1. rewrite insert_insert.
        apply pre_inv_nonempty; [|apply empty_insert].
        apply pre_insert with (vis := false); [|exact Hnew].
        repeat split; auto.
      * repeat split.
        -- now apply ok_erase, ok_insert.
        -- intros k pd Hf. destruct (N.eq_dec k sk) as [->|Hk].
           ++ rewrite find_erase_eq in Hf; [discriminate|now apply ok_insert].
           ++ rewrite find_erase_ne in Hf by assumption.
              find_at k g Hf; [now injection Hf as <-|].
              unfold m1 in Hf. rewrite find_insert_ne in Hf by assumption.
              now apply (Hne k).
        -- symmetry. apply (find_not_empty g new').
           rewrite find_erase_ne by assumption. apply find_insert_eq.
    + rewrite Hp. repeat split.
      * now apply ok_insert.
      * intros k pd Hf.
        find_at k g Hf; [now injection Hf as <-|].
        unfold m1 in Hf. find_at k sk Hf.
        -- injection Hf as <-. now apply empty_false.
        -- now apply (Hne k).
      * symmetry. apply empty_insert.
Qed.

Lemma run_inv o st st' :
  not_AddPlot o = true ->
  placeholder_inv (plotData st) (emptyPlotVisible st) ->
  run o st = Some st' ->
  placeholder_inv (plotData st') (emptyPlotVisible st').
Proof.
  intros Ho Hinv Hrun. destruct o; simpl in Hrun; try discriminate Ho;
    try (injection Hrun as <-).
  - now apply AddVariable_inv.
  - now apply AddVariable_name_inv.
  - now apply RemoveVariable_inv.
  - now apply RemoveVariable_plot_inv.
  - now apply RemovePlot_inv.
  - now apply (OnMoveVariable_inv _id _targetId st).
  - now apply Clear_inv.
Qed.

Lemma reachable_inv st :
  reachable not_AddPlot st ->
  placeholder_inv (plotData st) (emptyPlotVisible st).
Proof.
  induction 1 as [g1 g2 g3|st o st' _ IH Ho Hrun].
  - simpl. repeat split. intros k pd H. discriminate.
  - exact (run_inv o st st' Ho IH Hrun).
Qed.

(** C1, as stated, fails: [AddPlot] on a new canvas adds a Plot Record
    and leaves the placeholder visible. *)
Lemma AddPlot_keeps_placeholder :
  reachable any_op (snd (AddPlot canvas0))
  /\ ~ (emptyPlotVisible (snd (AddPlot canvas0)) = true
        <-> plotData (snd (AddPlot canvas0)) = []).
Proof.
  split.
  - apply reachable_step with (st := canvas0) (o := OpAddPlot);
      [apply reachable_new|reflexivity|reflexivity].
  - intros [H _]. specialize (H eq_refl). discriminate.
Qed.

(** C1 (amended): at every state that a sequence of [AddVariable],
    [RemoveVariable] (both overloads of each), [RemovePlot],
    [OnMoveVariable] and [Clear] reaches from a new canvas, the
    placeholder is visible if and only if there is no Plot Record. *)
Theorem placeholder_visible_iff_no_plot st :
  reachable not_AddPlot st ->
  (emptyPlotVisible st = true <-> plotData st = []).
Proof.
  intros H. apply reachable_inv in H as (_ & _ & Hvis). rewrite Hvis.
  destruct (plotData st); simpl; split; intros; congruence.
Qed.

Lemma placeholder_visible_iff_no_plot_witness :
  reachable not_AddPlot (RemoveVariable 1 (AddVariable 1 "x" EMPTY_PLOT canvas0))
  /\ (emptyPlotVisible (RemoveVariable 1 (AddVariable 1 "x" EMPTY_PLOT canvas0))
        = true
      <-> plotData (RemoveVariable 1 (AddVariable 1 "x" EMPTY_PLOT canvas0))
        = []).
Proof.
  assert (H : reachable not_AddPlot
                (RemoveVariable 1 (AddVariable 1 "x" EMPTY_PLOT canvas0))).
  { apply reachable_step
      with (st := AddVariable 1 "x" EMPTY_PLOT canvas0)
           (o := OpRemoveVariable 1); [|reflexivity|reflexivity].
    apply reachable_step
      with (st := canvas0) (o := OpAddVariable 1 "x" EMPTY_PLOT);
      [apply reachable_new|reflexivity|reflexivity]. }
  split; [exact H|].
  exact (placeholder_visible_iff_no_plot _ H).
Defined.

(** ** What the search loop of [OnMoveVariable] finds *)

Lemma OnMoveVariable_find_spec v t its :
  forall pI tI r1 r2,
    OnMoveVariable_find v t its pI tI = (r1, r2) ->
    match r1 with
    | Some (k, c) =>
        pI = Some (k, c)
        \/ exists pd, In (k, pd) its
                      /\ StdMap.find v (variableCurves pd) = Some c
    | None =>
        pI = None
        /\ forall k pd, In (k, pd) its ->
                        StdMap.find v (variableCurves pd) = None
    end
    /\ match r2 with
       | Some k =>
           tI = Some k
           \/ exists pd, In (k, pd) its
                         /\ StdMap.mem t (variableCurves pd) = true
       | None =>
           tI = None
           /\ forall k pd, In (k, pd) its ->
                           StdMap.mem t (variableCurves pd) = false
       end.
Proof.
  induction its as [|[k pd] its IH]; intros pI tI r1 r2 H; simpl in H.
  - injection H as <- <-. split.
    + destruct pI as [[k c]|]; [now left|split; [reflexivity|intros ? ? []]].
    + destruct tI as [k|]; [now left|split; [reflexivity|intros ? ? []]].
  - destruct (StdMap.find v (variableCurves pd)) as [c|] eqn:Hv;
      destruct (StdMap.mem t (variableCurves pd)) eqn:Ht.
    + injection H as <- <-. split; right; exists pd; split; auto; now left.
    + destruct tI as [k0|].
      * injection H as <- <-. split; [right; exists pd; split; auto; now left|].
        now left.
      * apply IH in H as [H1 H2]. split.
        -- destruct r1 as [[k1 c1]|].
           ++ destruct H1 as [[= <- <-]|(pd1 & Hin & Hf)].
              ** right. exists pd. split; auto. now left.
              ** right. exists pd1. split; auto. now right.
           ++ destruct H1 as [H1 _]. discriminate.
        -- destruct r2 as [k2|].
           ++ destruct H2 as [H2|(pd2 & Hin & Hf)]; [discriminate|].
              right. exists pd2. split; auto. now right.
           ++ destruct H2 as [_ H2]. split; [reflexivity|].
              intros k0 pd0 [[= <- <-]|Hin]; [exact Ht|now apply (H2 k0)].
    + destruct pI as [x|].
      * injection H as <- <-. split; [destruct x; now left|].
        right. exists pd. split; auto. now left.
      * apply IH in H as [H1 H2]. split.
        -- destruct r1 as [[k1 c1]|].
           ++ destruct H1 as [H1|(pd1 & Hin & Hf)]; [discriminate|].
              right. exists pd1. split; auto. now right.
           ++ destruct H1 as [_ H1]. split; [reflexivity|].
              intros k0 pd0 [[= <- <-]|Hin]; [exact Hv|now apply (H1 k0)].
        -- destruct r2 as [k2|].
           ++ destruct H2 as [[= <-]|(pd2 & Hin & Hf)].
              ** right. exists pd. split; auto. now left.
              ** right. exists pd2. split; auto. now right.
           ++ destruct H2 as [H2 _]. discriminate.
    + assert (Hgo : (exists x y, pI = Some x /\ tI = Some y
                                 /\ r1 = pI /\ r2 = tI)
                    \/ OnMoveVariable_find v t its pI tI = (r1, r2)).
      { destruct pI as [x|]; [destruct tI as [y|]|]; try (right; exact H).
        injection H as <- <-. left. exists x, y. now repeat split. }
      destruct Hgo as [(x & y & -> & -> & -> & ->)|Hgo];
        [split; [destruct x|]; now left|].
      apply IH in Hgo as [H1 H2]. split.
      * destruct r1 as [[k1 c1]|].
        -- destruct H1 as [H1|(pd1 & Hin & Hf)]; [now left|].
           right. exists pd1. split; auto. now right.
        -- destruct H1 as [H1 H1']. split; [exact H1|].
           intros k0 pd0 [[= <- <-]|Hin]; [exact Hv|now apply (H1' k0)].
      * destruct r2 as [k2|].
        -- destruct H2 as [H2|(pd2 & Hin & Hf)]; [now left|].
           right. exists pd2. split; auto. now right.
        -- destruct H2 as [H2 H2']. split; [exact H2|].
           intros k0 pd0 [[= <- <-]|Hin]; [exact Ht|now apply (H2' k0)].
Qed.

Lemma owns_intro k v pd st :
  StdMap.find k (plotData st) = Some pd ->
  StdMap.mem v (variableCurves pd) = true -> owns k v st = true.
Proof. intros H1 H2. unfold owns. now rewrite H1. Qed.

Lemma mem_of_find {V} k (x : V) m :
  StdMap.find k m = Some x -> StdMap.mem k m = true.
Proof. intros H. unfold StdMap.mem. now rewrite H. Qed.

Lemma canvas_ok_record k pd st :
  canvas_ok st = true -> StdMap.find k (plotData st) = Some pd ->
  StdMap.ok (variableCurves pd) = true
  /\ StdMap.ok (curves (plot pd)) = true.
Proof.
  unfold canvas_ok, records_ok. intros H Hf.
  apply andb_true_iff in H as [_ H].
  rewrite forallb_forall in H. apply find_some_In in Hf.
  specialize (H _ Hf). simpl in H. now apply andb_true_iff in H.
Qed.

Lemma canvas_ok_plotData st :
  canvas_ok st = true -> StdMap.ok (plotData st) = true.
Proof. unfold canvas_ok. intros H. now apply andb_true_iff in H. Qed.

(** With the variable in one plot only, the search finds that plot, and
    as target a plot that holds [t], if there is one. *)
Lemma OnMoveVariable_find_owner v t s src c st :
  StdMap.ok (plotData st) = true ->
  StdMap.find s (plotData st) = Some src ->
  StdMap.find v (variableCurves src) = Some c ->
  sole_owner v s st ->
  exists tgt,
    OnMoveVariable_find v t (plotData st) None None = (Some (s, c), tgt)
    /\ match tgt with
       | Some tk => owns tk t st = true
       | None => forall k, owns k t st = false
       end.
Proof.
  intros Hok Hs Hv Hsole.
  destruct (OnMoveVariable_find v t (plotData st) None None) as [r1 r2] eqn:E.
  apply OnMoveVariable_find_spec in E as [H1 H2].
  exists r2. split.
  - f_equal. destruct r1 as [[k c']|].
    + destruct H1 as [H1|(pd & Hin & Hf)]; [discriminate|].
      apply In_find_some in Hin; [|exact Hok].
      assert (k = s) as ->
          by (apply Hsole; eapply owns_intro; eauto using mem_of_find).
      congruence.
    + destruct H1 as [_ H1]. apply find_some_In in Hs.
      rewrite (H1 _ _ Hs) in Hv. discriminate.
  - destruct r2 as [tk|].
    + destruct H2 as [H2|(pd & Hin & Hf)]; [discriminate|].
      apply In_find_some in Hin; [|exact Hok]. eapply owns_intro; eauto.
    + destruct H2 as [_ H2]. intros k. unfold owns.
      destruct (StdMap.find k (plotData st)) as [pd|] eqn:Hk; [|reflexivity].
      apply find_some_In in Hk. now apply (H2 k).
Qed.

(** A move within one plot: the curve is detached and attached again,
    the entry erased and inserted again. *)
Lemma OnMoveVariable_within_plot v t s src c st :
  canvas_ok st = true ->
  StdMap.find s (plotData st) = Some src ->
  StdMap.find v (variableCurves src) = Some c ->
  StdMap.mem t (variableCurves src) = true ->
  sole_owner v s st ->
  single_owner t st ->
  holds_curve c src ->
  OnMoveVariable v t st = Some st.
Proof.
  intros Hok Hs Hv Ht Hsole Hsingle Hhold.
  pose proof (canvas_ok_plotData _ Hok) as Hokm.
  destruct (canvas_ok_record _ _ _ Hok Hs) as [Hokv Hokc].
  destruct (OnMoveVariable_find_owner v t s src c st Hokm Hs Hv Hsole)
    as (tgt & Hscan & Htgt).
  assert (tgt = Some s) as ->.
  { pose proof (owns_intro _ _ _ _ Hs Ht) as Hown.
    destruct tgt as [tk|]; [|now rewrite Htgt in Hown].
    f_equal. now apply Hsingle. }
  unfold holds_curve in Hhold.
  destruct (StdMap.find c (curves (plot src))) as [pc|] eqn:Hc;
    [|contradiction].
  unfold OnMoveVariable, IncrementalPlotOps.DetachCurve.
  rewrite Hscan, Hs, Hc. cbv zeta.
  cbn [plotData set_plotData]. rewrite find_insert_eq, N.eqb_refl.
  cbn [variableCurves plot id]. rewrite empty_insert.
  f_equal. rewrite insert_insert.
  unfold IncrementalPlotOps.AttachCurve, set_curves. cbn [curves widget].
  rewrite (insert_erase_id _ _ _ Hokv Hv), (insert_erase_id _ _ _ Hokc Hc).
  destruct src as [i [w cs] vs]. cbn [id plot widget curves variableCurves].
  rewrite (insert_id _ _ _ Hokm Hs).
  now destruct st.
Qed.

Lemma sole_owner_check v p st :
  forallb (fun e => negb (StdMap.mem v (variableCurves (snd e)))
                    || (fst e =? p)) (plotData st) = true ->
  sole_owner v p st.
Proof.
  intros H k Hk. unfold owns in Hk.
  destruct (StdMap.find k (plotData st)) as [pd|] eqn:Hf; [|discriminate].
  apply find_some_In in Hf. rewrite forallb_forall in H.
  specialize (H _ Hf). simpl in H. rewrite Hk in H. simpl in H.
  now apply N.eqb_eq.
Qed.

Lemma sole_single v p st : sole_owner v p st -> single_owner v st.
Proof. intros H k k' Hk Hk'. rewrite (H k Hk). symmetry. now apply H. Qed.

(** ** Counting the entries of all plots *)

Lemma total_curves_app l1 l2 :
  total_curves (l1 ++ l2) = (total_curves l1 + total_curves l2)%nat.
Proof.
  induction l1 as [|[k pd] l1 IH]; simpl; [reflexivity|]. rewrite IH. lia.
Qed.

Lemma total_curves_insert_old k old new m :
  StdMap.ok m = true -> StdMap.find k m = Some old ->
  (total_curves (StdMap.insert k new m) + List.length (variableCurves old)
   = total_curves m + List.length (variableCurves new))%nat.
Proof.
  intros Hok Hf. destruct (find_split k old m Hok Hf) as (l1 & l2 & -> & Hb).
  rewrite (split_insert _ _ _ _ _ Hb), !total_curves_app. simpl. lia.
Qed.

Lemma total_curves_erase k old m :
  StdMap.ok m = true -> StdMap.find k m = Some old ->
  (total_curves (StdMap.erase k m) + List.length (variableCurves old)
   = total_curves m)%nat.
Proof.
  intros Hok Hf. destruct (find_split k old m Hok Hf) as (l1 & l2 & -> & Hb).
  rewrite (split_erase _ _ _ _ Hb), !total_curves_app. simpl. lia.
Qed.

Lemma total_curves_insert_new k new m :
  StdMap.find k m = None ->
  total_curves (StdMap.insert k new m)
  = (total_curves m + List.length (variableCurves new))%nat.
Proof.
  induction m as [|[k0 pd0] m IH]; simpl; intros Hf; [lia|].
  destruct (N.eqb_spec k k0) as [->|Hne]; [discriminate|].
  destruct (N.compare_spec k k0) as [->|Hk|Hk]; simpl.
  - contradiction.
  - lia.
  - rewrite IH by assumption. lia.
Qed.

Lemma vars_of_find k pd st :
  StdMap.find k (plotData st) = Some pd -> vars_of k st = variableCurves pd.
Proof. intros H. unfold vars_of. now rewrite H. Qed.

Lemma vars_of_none k st :
  StdMap.find k (plotData st) = None -> vars_of k st = [].
Proof. intros H. unfold vars_of. now rewrite H. Qed.

Lemma owns_find k v st :
  owns k v st = true ->
  exists pd, StdMap.find k (plotData st) = Some pd
             /\ StdMap.mem v (variableCurves pd) = true.
Proof.
  unfold owns. destruct (StdMap.find k (plotData st)) as [pd|];
    [|discriminate].
  intros H. now exists pd.
Qed.

Lemma mem_false_find {V} k (m : StdMap.t V) :
  StdMap.mem k m = false -> StdMap.find k m = None.
Proof. unfold StdMap.mem. now destruct (StdMap.find k m). Qed.

(** ** Moving a variable *)

(** The entries before and after a move, spelled out with the
    assumptions it needs. *)
Lemma OnMoveVariable_moves_entry v t s src c st :
  canvas_ok st = true ->
  StdMap.find s (plotData st) = Some src ->
  StdMap.find v (variableCurves src) = Some c ->
  sole_owner v s st ->
  single_owner t st ->
  holds_curve c src ->
  fresh_plot_id st ->
  exists st',
    OnMoveVariable v t st = Some st'
    /\ total_curves (plotData st') = total_curves (plotData st)
    /\ (forall tk, owns tk t st = true -> tk <> s ->
          StdMap.find v (vars_of tk st) = None
          /\ vars_of tk st' = StdMap.insert v c (vars_of tk st)
          /\ vars_of s st' = StdMap.erase v (vars_of s st))
    /\ (owns s t st = true -> vars_of s st' = vars_of s st)
    /\ ((forall k, owns k t st = false) ->
          vars_of (globalPlotId st) st = []
          /\ vars_of (globalPlotId st) st' = [(v, c)]
          /\ vars_of s st' = StdMap.erase v (vars_of s st)).
Proof.
  intros Hok Hs Hv Hsole Hsingle Hhold Hfresh.
  pose proof (canvas_ok_plotData _ Hok) as Hokm.
  destruct (canvas_ok_record _ _ _ Hok Hs) as [Hokv Hokc].
  destruct (OnMoveVariable_find_owner v t s src c st Hokm Hs Hv Hsole)
    as (tgt & Hscan & Htgt).
  pose proof Hhold as Hhold'. unfold holds_curve in Hhold'.
  destruct (StdMap.find c (curves (plot src))) as [pc|] eqn:Hc;
    [clear Hhold'|contradiction].
  destruct (OnMoveVariable_exec v t st s c tgt src pc Hscan Hs Hc)
    as (st' & Hrun & Hres & _).
  exists st'. split; [exact Hrun|].
  set (src' := mkPlotData (id src)
                 (set_curves (StdMap.erase c (curves (plot src))) (plot src))
                 (StdMap.erase v (variableCurves src))) in *.
  set (m1 := StdMap.insert s src' (plotData st)) in *.
  assert (Hok1 : StdMap.ok m1 = true) by now apply ok_insert.
  assert (Hlen : S (List.length (variableCurves src'))
                 = List.length (variableCurves src))
    by exact (length_erase _ _ _ Hv).
  assert (Ht1 : (total_curves m1 + List.length (variableCurves src)
                 = total_curves (plotData st)
                   + List.length (variableCurves src'))%nat)
    by exact (total_curves_insert_old _ _ _ _ Hokm Hs).
  rewrite (vars_of_find _ _ _ Hs).
  destruct tgt as [tk|].
  - (* a plot owns the target variable *)
    destruct (owns_find _ _ _ Htgt) as (tg0 & Htg0 & Hmem).
    destruct (N.eq_dec tk s) as [->|Hts].
    + (* the source plot itself *)
      pose proof (OnMoveVariable_within_plot v t s src c st Hok Hs Hv
                    ltac:(congruence) Hsole Hsingle Hhold) as Hsame.
      rewrite Hrun in Hsame. injection Hsame as ->.
      split; [reflexivity|]. split; [|split].
      * intros tk Hown Hne. exfalso. apply Hne. now apply Hsingle.
      * intros _. now apply vars_of_find.
      * intros Hnone. now rewrite Hnone in Htgt.
    + (* another plot *)
      assert (Htg : StdMap.find tk m1 = Some tg0)
        by (unfold m1; now rewrite find_insert_ne).
      rewrite Htg in Hres. cbv zeta in Hres.
      set (tg' := mkPlotData (id tg0)
                    (IncrementalPlotOps.AttachCurve c pc (plot tg0))
                    (StdMap.insert v c (variableCurves tg0))) in *.
      destruct (N.eqb_spec tk s) as [|_]; [contradiction|].
      destruct Hres as [Hp _].
      assert (Hvt : StdMap.find v (variableCurves tg0) = None).
      { destruct (StdMap.find v (variableCurves tg0)) as [c0|] eqn:E;
          [|reflexivity].
        exfalso. apply Hts. apply Hsole.
        eapply owns_intro; eauto using mem_of_find. }
      assert (Hlen' : List.length (variableCurves tg')
                      = S (List.length (variableCurves tg0)))
        by exact (length_insert_new _ _ _ Hvt).
      assert (Ht2 : (total_curves (StdMap.insert tk tg' m1)
                     + List.length (variableCurves tg0)
                     = total_curves m1 + List.length (variableCurves tg'))%nat)
        by exact (total_curves_insert_old _ _ _ _ Hok1 Htg).
      assert (Hs2 : StdMap.find s (StdMap.insert tk tg' m1) = Some src')
        by (rewrite find_insert_ne by congruence; apply find_insert_eq).
      assert (Hfinal :
        total_curves (plotData st') = total_curves (plotData st)
        /\ StdMap.find tk (plotData st') = Some tg'
        /\ vars_of s st' = StdMap.erase v (variableCurves src)).
      { destruct (StdMap.empty (variableCurves src')) eqn:E; rewrite Hp.
        - pose proof (total_curves_erase _ _ _ (ok_insert tk tg' _ Hok1) Hs2)
            as Ht3.
          assert (Hz : List.length (variableCurves src') = 0%nat)
            by (apply empty_true in E; now rewrite E).
          split; [lia|]. split.
          + rewrite find_erase_ne by assumption. apply find_insert_eq.
          + rewrite vars_of_none.
            * symmetry. now apply empty_true.
            * rewrite Hp. apply find_erase_eq. now apply ok_insert.
        - split; [lia|]. split; [apply find_insert_eq|].
          rewrite (vars_of_find s src'); [reflexivity|now rewrite Hp]. }
      destruct Hfinal as (Hf1 & Hf2 & Hf3).
      split; [exact Hf1|]. split; [|split].
      * intros tk' Hown Hne.
        assert (tk' = tk) as -> by now apply Hsingle.
        rewrite (vars_of_find _ _ _ Htg0), (vars_of_find _ _ _ Hf2).
        now repeat split.
      * intros Hown. exfalso. apply Hts. now apply Hsingle.
      * intros Hnone. now rewrite Hnone in Htgt.
  - (* no plot owns the target variable: a new plot *)
    cbv zeta in Hres. unfold fresh_plot_id in Hfresh.
    set (g := globalPlotId st) in *.
    set (new' := mkPlotData g
                   (IncrementalPlotOps.AttachCurve c pc
                      (mkPlot (nextWidget st) []))
                   (StdMap.insert v c [])) in *.
    assert (Hgs : g <> s) by congruence.
    destruct (N.eqb_spec g s) as [|_]; [contradiction|].
    destruct Hres as [Hp _].
    assert (Hg1 : StdMap.find g m1 = None)
      by (unfold m1; now rewrite find_insert_ne).
    pose proof (total_curves_insert_new g new' m1 Hg1) as Ht2.
    assert (Hs2 : StdMap.find s (StdMap.insert g new' m1) = Some src')
      by (rewrite find_insert_ne by congruence; apply find_insert_eq).
    assert (Hfinal :
      total_curves (plotData st') = total_curves (plotData st)
      /\ StdMap.find g (plotData st') = Some new'
      /\ vars_of s st' = StdMap.erase v (variableCurves src)).
    { destruct (StdMap.empty (variableCurves src')) eqn:E; rewrite Hp.
      - pose proof (total_curves_erase _ _ _ (ok_insert g new' _ Hok1) Hs2)
          as Ht3.
        assert (Hz : List.length (variableCurves src') = 0%nat)
          by (apply empty_true in E; now rewrite E).
        simpl in Ht2. split; [lia|]. split.
        + rewrite find_erase_ne by assumption. apply find_insert_eq.
        + rewrite vars_of_none.
          * symmetry. now apply empty_true.
          * rewrite Hp. apply find_erase_eq. now apply ok_insert.
      - simpl in Ht2. split; [lia|]. split; [apply find_insert_eq|].
        rewrite (vars_of_find s src'); [reflexivity|now rewrite Hp]. }
    destruct Hfinal as (Hf1 & Hf2 & Hf3).
    split; [exact Hf1|]. split; [|split].
    + intros tk Hown _. now rewrite Htgt in Hown.
    + intros Hown. now rewrite Htgt in Hown.
    + intros _. rewrite (vars_of_none _ _ Hfresh), (vars_of_find _ _ _ Hf2).
      now repeat split.
Qed.

Lemma PlotByVariable_loop_In x its :
  forallb (fun e => negb (StdMap.mem x (variableCurves (snd e)))) its = false ->
  exists pd, In (PlotByVariable_loop x its, pd) its.
Proof.
  induction its as [|[k pd] its IH]; simpl; [discriminate|].
  destruct (StdMap.mem x (variableCurves pd)); simpl.
  - intros _. exists pd. now left.
  - intros H. destruct (IH H) as (pd' & Hin). exists pd'. now right.
Qed.

(** The source record is erased when its only variable moves away. *)
Lemma OnMoveVariable_erases_source v t s src c st :
  canvas_ok st = true ->
  StdMap.find s (plotData st) = Some src ->
  variableCurves src = [(v, c)] ->
  t <> v ->
  sole_owner v s st ->
  holds_curve c src ->
  fresh_plot_id st ->
  exists st',
    OnMoveVariable v t st = Some st'
    /\ StdMap.find s (plotData st') = None
    /\ forall x, var_absent x st' = false -> PlotByVariable x st' <> s.
Proof.
  intros Hok Hs Hvars Hne Hsole Hhold Hfresh.
  pose proof (canvas_ok_plotData _ Hok) as Hokm.
  assert (Hv : StdMap.find v (variableCurves src) = Some c)
    by (rewrite Hvars; simpl; now rewrite N.eqb_refl).
  destruct (OnMoveVariable_find_owner v t s src c st Hokm Hs Hv Hsole)
    as (tgt & Hscan & Htgt).
  unfold holds_curve in Hhold.
  destruct (StdMap.find c (curves (plot src))) as [pc|] eqn:Hc;
    [|contradiction].
  destruct (OnMoveVariable_exec v t st s c tgt src pc Hscan Hs Hc)
    as (st' & Hrun & Hres & _).
  exists st'. split; [exact Hrun|].
  assert (Hnil : StdMap.erase v (variableCurves src) = [])
    by (rewrite Hvars; simpl; now rewrite N.eqb_refl).
  cbn [variableCurves] in Hres. rewrite Hnil in Hres.
  set (src' := mkPlotData (id src)
                 (set_curves (StdMap.erase c (curves (plot src))) (plot src))
                 []) in *.
  set (m1 := StdMap.insert s src' (plotData st)) in *.
  assert (Hok1 : StdMap.ok m1 = true) by now apply ok_insert.
  assert (Hgone : StdMap.find s (plotData st') = None
                  /\ StdMap.ok (plotData st') = true).
  { destruct tgt as [tk|].
    - destruct (owns_find _ _ _ Htgt) as (tg0 & Htg0 & Hmem).
      assert (Hts : tk <> s).
      { intros ->. rewrite Hs in Htg0. injection Htg0 as <-.
        rewrite Hvars in Hmem. unfold StdMap.mem in Hmem. simpl in Hmem.
        destruct (N.eqb_spec t v); [contradiction|discriminate]. }
      assert (Htg : StdMap.find tk m1 = Some tg0)
        by (unfold m1; now rewrite find_insert_ne).
      rewrite Htg in Hres. cbv zeta in Hres.
      destruct (N.eqb_spec tk s) as [|_]; [contradiction|].
      simpl in Hres. destruct Hres as [-> _]. split.
      + apply find_erase_eq. now apply ok_insert.
      + now apply ok_erase, ok_insert.
    - cbv zeta in Hres. unfold fresh_plot_id in Hfresh.
      destruct (N.eqb_spec (globalPlotId st) s) as [E|_]; [congruence|].
      simpl in Hres. destruct Hres as [-> _]. split.
      + apply find_erase_eq. now apply ok_insert.
      + now apply ok_erase, ok_insert. }
  destruct Hgone as [Hgone Hok']. split; [exact Hgone|].
  intros x Hx Heq. unfold var_absent in Hx.
  destruct (PlotByVariable_loop_In x _ Hx) as (pd & Hin).
  apply In_find_some in Hin; [|exact Hok'].
  unfold PlotByVariable in Heq. rewrite Heq in Hin. congruence.
Qed.

(** ** The two overloads of [RemoveVariable] *)

Lemma RemoveVariable_loop_owner v p pd c st :
  StdMap.find p (plotData st) = Some pd ->
  StdMap.find v (variableCurves pd) = Some c ->
  sole_owner v p st ->
  forall its,
    (forall k pd', In (k, pd') its -> StdMap.find k (plotData st) = Some pd') ->
    In (p, pd) its ->
    RemoveVariable_loop v its st = RemoveVariable_found v p pd c st.
Proof.
  intros Hp Hv Hsole. induction its as [|[k0 pd0] its IH]; intros Hsub Hin;
    [contradiction|]. simpl.
  assert (H0 : StdMap.find k0 (plotData st) = Some pd0)
    by (apply Hsub; now left).
  destruct (StdMap.find v (variableCurves pd0)) as [c0|] eqn:E.
  - assert (k0 = p) as ->
        by (apply Hsole; eapply owns_intro; eauto using mem_of_find).
    congruence.
  - apply IH.
    + intros k pd' H. apply Hsub. now right.
    + destruct Hin as [[= -> ->]|Hin]; [congruence|exact Hin].
Qed.

Lemma RemoveVariable_owner v p pd c st :
  StdMap.ok (plotData st) = true ->
  StdMap.find p (plotData st) = Some pd ->
  StdMap.find v (variableCurves pd) = Some c ->
  sole_owner v p st ->
  RemoveVariable v st = show_emptyPlot (RemoveVariable_found v p pd c st).
Proof.
  intros Hok Hp Hv Hsole. unfold RemoveVariable. f_equal.
  apply RemoveVariable_loop_owner; try assumption.
  - intros k pd' Hin. now apply In_find_some.
  - now apply find_some_In.
Qed.

(** C6, as stated, fails: with variables 1 and 2 in plot 0, the overload
    that scans all plots leaves the pill of variable 1 in the slot
    container, the overload that is given the plot removes it. *)
Lemma RemoveVariable_overloads_differ :
  owns 0 1 canvas_two_vars = true
  /\ RemoveVariable 1 canvas_two_vars <> RemoveVariable_plot 1 0 canvas_two_vars.
Proof.
  split; [reflexivity|]. intros H.
  apply (f_equal yVariableContainer) in H. vm_compute in H. discriminate.
Qed.

(** The two overloads compared, for a variable in one plot only. *)
Lemma RemoveVariable_overloads_sole v p pd c st :
  StdMap.ok (plotData st) = true ->
  StdMap.find p (plotData st) = Some pd ->
  StdMap.find v (variableCurves pd) = Some c ->
  sole_owner v p st ->
  plotData (RemoveVariable v st) = plotData (RemoveVariable_plot v p st)
  /\ emptyPlotVisible (RemoveVariable v st)
     = emptyPlotVisible (RemoveVariable_plot v p st)
  /\ plotLayout (RemoveVariable v st) = plotLayout (RemoveVariable_plot v p st)
  /\ (StdMap.erase v (variableCurves pd) = [] ->
      RemoveVariable v st = RemoveVariable_plot v p st)
  /\ (StdMap.erase v (variableCurves pd) <> [] ->
      yVariableContainer (RemoveVariable v st) = yVariableContainer st
      /\ manager (RemoveVariable v st) = manager st
      /\ yVariableContainer (RemoveVariable_plot v p st)
         = StdMap.erase v (yVariableContainer st)
      /\ manager (RemoveVariable_plot v p st)
         = PlotManager.RemoveCurve (curve_ref v (plot pd)) (manager st)).
Proof.
  intros Hok Hp Hv Hsole.
  rewrite (RemoveVariable_owner v p pd c st Hok Hp Hv Hsole).
  unfold RemoveVariable_plot, RemoveVariable_found. rewrite Hp, Hv.
  destruct (StdMap.erase v (variableCurves pd)) as [|e vs] eqn:E.
  - cbn [StdMap.empty]. cbv zeta. unfold show_emptyPlot.
    cbn [plotData set_plotData set_plotLayout set_manager RemoveVariablePill
         set_yVariableContainer].
    destruct (StdMap.empty (StdMap.erase p (plotData st))) eqn:Ee;
      (split; [reflexivity|]); (split; [reflexivity|]);
      (split; [reflexivity|]); (split; [reflexivity|]);
      intros H; now contradiction H.
  - cbn [StdMap.empty]. cbv zeta. unfold show_emptyPlot.
    cbn [plotData set_plotData set_plotLayout set_manager RemoveVariablePill
         set_yVariableContainer].
    rewrite !empty_insert.
    (split; [reflexivity|]); (split; [reflexivity|]);
      (split; [reflexivity|]); (split; [intros H; discriminate H|]).
    intros _. repeat split; reflexivity.
Qed.

(** ** Removing the only variable of a plot *)

Lemma registered_RemoveCurve_other c r ref :
  ref <> Some c ->
  PlotManager.registered c (PlotManager.RemoveCurve ref r)
  = PlotManager.registered c r.
Proof.
  intros Hne. destruct ref as [c'|]; [|reflexivity].
  assert (Hc : c <> c') by congruence.
  unfold PlotManager.registered, PlotManager.RemoveCurve.
  induction r as [|[n x] r IH]; simpl; [reflexivity|].
  destruct (N.eqb_spec x c') as [->|Hx]; simpl.
  - destruct (N.eqb_spec c' c); [congruence|exact IH].
  - now rewrite IH.
Qed.

(** Removing the only variable of a plot, for a variable in one plot
    only. *)
Lemma RemoveVariable_only_variable_sole v p pd c st :
  StdMap.ok (plotData st) = true ->
  StdMap.ok (yVariableContainer st) = true ->
  StdMap.find p (plotData st) = Some pd ->
  variableCurves pd = [(v, c)] ->
  sole_owner v p st ->
  StdMap.find p (plotData (RemoveVariable v st)) = None
  /\ GetVariablePill v (RemoveVariable v st) = None
  /\ plotLayout (RemoveVariable v st)
     = layout_take (widget (plot pd)) (plotLayout st)
  /\ manager (RemoveVariable v st)
     = PlotManager.RemoveCurve (curve_ref v (plot pd)) (manager st)
  /\ (v <> c ->
      PlotManager.registered c (manager (RemoveVariable v st))
      = PlotManager.registered c (manager st)).
Proof.
  intros Hok Hoky Hp Hvars Hsole.
  assert (Hv : StdMap.find v (variableCurves pd) = Some c)
    by (rewrite Hvars; simpl; now rewrite N.eqb_refl).
  rewrite (RemoveVariable_owner v p pd c st Hok Hp Hv Hsole).
  unfold RemoveVariable_found. rewrite Hvars. simpl StdMap.erase.
  rewrite N.eqb_refl. cbn [StdMap.empty]. cbv zeta.
  unfold show_emptyPlot, GetVariablePill.
  cbn [plotData set_plotData set_plotLayout set_manager RemoveVariablePill
       set_yVariableContainer].
  destruct (StdMap.empty (StdMap.erase p (plotData st))); simpl;
    (split; [now apply find_erase_eq|]);
    (split; [now apply find_erase_eq|]);
    (split; [reflexivity|]); (split; [reflexivity|]);
    intros Hne; apply registered_RemoveCurve_other;
    unfold curve_ref; destruct (IncrementalPlotOps.Curve v (plot pd));
    congruence.
Qed.

(** At the sample canvas the curve of the removed variable is still
    registered. *)
Lemma RemoveVariable_only_variable_keeps_curve_registered :
  PlotManager.registered 0 (manager canvas_one_var) = true
  /\ PlotManager.registered 0 (manager (RemoveVariable 1 canvas_one_var))
     = true.
Proof. split; reflexivity. Qed.

(** ** The age suffix of a label *)

Lemma rfind_none_iff s :
  rfind "_" s = None <-> has_underscore s = false.
Proof.
  induction s as [|a s IH]; simpl; [tauto|].
  destruct (rfind "_" s) as [i|].
  - split; [discriminate|]. intros H. apply orb_false_iff in H as [_ H].
    apply IH in H. discriminate.
  - destruct (Ascii.eqb a "_"); simpl; [split; discriminate|].
    split; intros _; [now apply IH|reflexivity].
Qed.

Lemma rfind_last_underscore pre suf :
  has_underscore suf = false ->
  rfind "_" (pre ++ String "_" suf)%string = Some (String.length pre).
Proof.
  intros H. apply rfind_none_iff in H.
  induction pre as [|a pre IH]; simpl.
  - now rewrite H.
  - now rewrite IH.
Qed.

Lemma substr_after pre suf :
  substr (String.length pre + 1) (pre ++ String "_" suf)%string = suf.
Proof. induction pre as [|a pre IH]; simpl; [reflexivity|exact IH]. Qed.

Lemma substr0_upto pre suf :
  substr0 (String.length pre + 1) (pre ++ String "_" suf)%string
  = (pre ++ "_")%string.
Proof. induction pre as [|a pre IH]; simpl; [reflexivity|now rewrite IH]. Qed.

Lemma string_app_assoc (a b c : string) :
  ((a ++ b) ++ c)%string = (a ++ b ++ c)%string.
Proof. induction a as [|x a IH]; simpl; [reflexivity|now rewrite IH]. Qed.

(** A label has no underscore, or a last one. *)
Lemma last_underscore_split s :
  has_underscore s = true ->
  exists pre suf,
    s = (pre ++ String "_" suf)%string /\ has_underscore suf = false.
Proof.
  induction s as [|a s IH]; simpl; [discriminate|].
  destruct (has_underscore s) eqn:E.
  - intros _. destruct (IH eq_refl) as (pre & suf & -> & H).
    exists (String a pre), suf. split; [reflexivity|exact H].
  - rewrite orb_false_r. intros H. apply Ascii.eqb_eq in H as ->.
    exists EmptyString, s. split; [reflexivity|exact E].
Qed.

Lemma aged_label_suffix pre suf age :
  age <> 1 -> has_underscore suf = false ->
  aged_label (pre ++ String "_" suf) age
  = if (0 <? atoi suf)%Z then Some (pre ++ "_" ++ to_string age)%string
    else None.
Proof.
  intros Hage Hsuf. unfold aged_label.
  destruct (N.eqb_spec age 1); [contradiction|].
  rewrite (rfind_last_underscore _ _ Hsuf), substr_after, substr0_upto.
  destruct (0 <? atoi suf)%Z; [|reflexivity].
  f_equal. apply string_app_assoc.
Qed.


Lemma OnSetVariableLabel_loop_pills x label its st :
  yVariableContainer (OnSetVariableLabel_loop x label its st)
  = yVariableContainer st.
Proof.
  induction its as [|[k pd] its IH]; simpl; [reflexivity|].
  now destruct (StdMap.find x (variableCurves pd)).
Qed.

Lemma SetVariableLabel_pill x label pill st :
  GetVariablePill x st = Some pill ->
  GetVariablePill x (SetVariableLabel x label st)
  = Some (mkPill (pillName pill) label).
Proof.
  intros H. unfold SetVariableLabel. rewrite H.
  unfold GetVariablePill, OnSetVariableLabel.
  rewrite OnSetVariableLabel_loop_pills. simpl. apply find_insert_eq.
Qed.

(** ** [Restart] on one plot with one active curve *)

Lemma aged_label_second v :
  aged_label (v ++ "_1") 2 = Some (v ++ "_2")%string.
Proof.
  change (v ++ "_1")%string with (v ++ String "_" "1")%string.
  rewrite aged_label_suffix; [reflexivity|discriminate|reflexivity].
Qed.


(** ** The data model is an invariant *)

Lemma find_insert_iff {V} k k0 (v v0 : V) m :
  StdMap.find k (StdMap.insert k0 v0 m) = Some v
  <-> (k = k0 /\ v = v0) \/ (k <> k0 /\ StdMap.find k m = Some v).
Proof.
  destruct (N.eq_dec k k0) as [->|Hne].
  - rewrite find_insert_eq. split.
    + intros [= ->]. now left.
    + intros [[_ ->]|[H _]]; [reflexivity|contradiction].
  - rewrite find_insert_ne by assumption. split.
    + intros H. now right.
    + intros [[H _]|[_ H]]; [contradiction|exact H].
Qed.

Lemma find_erase_iff {V} k k0 (v : V) m :
  StdMap.ok m = true ->
  StdMap.find k (StdMap.erase k0 m) = Some v
  <-> k <> k0 /\ StdMap.find k m = Some v.
Proof.
  intros Hok. destruct (N.eq_dec k k0) as [->|Hne].
  - rewrite find_erase_eq by assumption. split; [discriminate|].
    intros [H _]. contradiction.
  - rewrite find_erase_ne by assumption. split.
    + intros H. now split.
    + now intros [_ H].
Qed.

Lemma entry_insert m k0 pd0 k v c :
  entry (StdMap.insert k0 pd0 m) k v c
  <-> (k = k0 /\ StdMap.find v (variableCurves pd0) = Some c)
      \/ (k <> k0 /\ entry m k v c).
Proof.
  unfold entry. split.
  - intros (pd & Hf & Hv). apply find_insert_iff in Hf as [[-> ->]|[Hne Hf]].
    + now left.
    + right. split; [exact Hne|]. now exists pd.
  - intros [[-> Hv]|[Hne (pd & Hf & Hv)]].
    + exists pd0. split; [apply find_insert_eq|exact Hv].
    + exists pd. split; [|exact Hv]. now rewrite find_insert_ne.
Qed.

Lemma entry_erase m k0 k v c :
  StdMap.ok m = true ->
  entry (StdMap.erase k0 m) k v c <-> k <> k0 /\ entry m k v c.
Proof.
  intros Hok. unfold entry. split.
  - intros (pd & Hf & Hv). apply find_erase_iff in Hf as [Hne Hf];
      [|exact Hok].
    split; [exact Hne|]. now exists pd.
  - intros [Hne (pd & Hf & Hv)]. exists pd. split; [|exact Hv].
    now rewrite find_erase_ne.
Qed.

Lemma wf_map_counters m gp gv gc gp' gv' gc' :
  wf_map m gp gv gc -> gp <= gp' -> gv <= gv' -> gc <= gc' ->
  wf_map m gp' gv' gc'.
Proof.
  intros (H1 & H2 & H3 & H4 & H5 & H6) Hp Hv Hc.
  split; [exact H1|]. split; [|split; [|split; [|split]]]; try assumption.
  - intros k pd Hf. destruct (H2 k pd Hf) as (Ha & Hb & Hi & Hk).
    repeat split; try assumption. lia.
  - intros k v c He. destruct (H3 k v c He). split; lia.
Qed.

(** A record is erased. *)
Lemma wf_map_erase m gp gv gc k0 :
  wf_map m gp gv gc -> wf_map (StdMap.erase k0 m) gp gv gc.
Proof.
  intros (H1 & H2 & H3 & H4 & H5 & H6).
  split; [now apply ok_erase|]. split; [|split; [|split; [|split]]].
  - intros k pd Hf. apply find_erase_iff in Hf as [_ Hf]; [|exact H1].
    now apply H2.
  - intros k v c He. apply entry_erase in He as [_ He]; [|exact H1].
    now apply (H3 k).
  - intros k k' v c c' He He'.
    apply entry_erase in He as [_ He]; [|exact H1].
    apply entry_erase in He' as [_ He']; [|exact H1].
    exact (H4 _ _ _ _ _ He He').
  - intros k k' v v' c He He'.
    apply entry_erase in He as [_ He]; [|exact H1].
    apply entry_erase in He' as [_ He']; [|exact H1].
    exact (H5 _ _ _ _ _ He He').
  - intros k pd v c Hf Hv. apply find_erase_iff in Hf as [_ Hf]; [|exact H1].
    exact (H6 _ _ _ _ Hf Hv).
Qed.

(** A new, empty record under the next plot id. *)
Lemma wf_map_new_plot m gp gv gc w gp' :
  wf_map m gp gv gc -> gp < gp' ->
  wf_map (StdMap.insert gp (mkPlotData gp (mkPlot w []) []) m) gp' gv gc.
Proof.
  intros (H1 & H2 & H3 & H4 & H5 & H6) Hlt.
  assert (Hent : forall k v c,
    entry (StdMap.insert gp (mkPlotData gp (mkPlot w []) []) m) k v c ->
    entry m k v c).
  { intros k v c He. apply entry_insert in He as [[_ He]|[_ He]];
      [discriminate|exact He]. }
  split; [now apply ok_insert|]. split; [|split; [|split; [|split]]].
  - intros k pd Hf. apply find_insert_iff in Hf as [[-> ->]|[Hne Hf]].
    + simpl. now repeat split.
    + destruct (H2 k pd Hf) as (Ha & Hb & Hc & Hd).
      repeat split; try assumption. lia.
  - intros k v c He. now apply (H3 k), Hent.
  - intros k k' v c c' He He'. exact (H4 _ _ _ _ _ (Hent _ _ _ He) (Hent _ _ _ He')).
  - intros k k' v v' c He He'. exact (H5 _ _ _ _ _ (Hent _ _ _ He) (Hent _ _ _ He')).
  - intros k pd v c Hf Hv. apply find_insert_iff in Hf as [[-> ->]|[Hne Hf]].
    + discriminate.
    + exact (H6 _ _ _ _ Hf Hv).
Qed.

(** The entry of [v] leaves a record, and its curve the record's plot. *)
Lemma wf_map_remove_entry m gp gv gc k pd v c :
  wf_map m gp gv gc ->
  StdMap.find k m = Some pd ->
  StdMap.find v (variableCurves pd) = Some c ->
  wf_map (StdMap.insert k
            (mkPlotData (id pd)
               (set_curves (StdMap.erase c (curves (plot pd))) (plot pd))
               (StdMap.erase v (variableCurves pd))) m)
         gp gv gc.
Proof.
  intros (H1 & H2 & H3 & H4 & H5 & H6) Hk Hv.
  destruct (H2 k pd Hk) as (Hokv & Hokc & Hid & Hlt).
  set (pd' := mkPlotData (id pd)
                (set_curves (StdMap.erase c (curves (plot pd))) (plot pd))
                (StdMap.erase v (variableCurves pd))).
  assert (Hent : forall k1 v1 c1,
    entry (StdMap.insert k pd' m) k1 v1 c1 ->
    entry m k1 v1 c1 /\ (k1 = k -> v1 <> v)).
  { intros k1 v1 c1 He. apply entry_insert in He as [[-> He]|[Hne He]].
    - simpl in He. apply find_erase_iff in He as [Hn He]; [|exact Hokv].
      split; [now exists pd|now intros _].
    - split; [exact He|]. intros ->. contradiction. }
  split; [now apply ok_insert|]. split; [|split; [|split; [|split]]].
  - intros k1 pd1 Hf. apply find_insert_iff in Hf as [[-> ->]|[Hne Hf]].
    + simpl. repeat split; try assumption; now apply ok_erase.
    + now apply H2.
  - intros k1 v1 c1 He. now apply (H3 k1), Hent.
  - intros k1 k2 v1 c1 c2 He He'.
    exact (H4 _ _ _ _ _ (proj1 (Hent _ _ _ He)) (proj1 (Hent _ _ _ He'))).
  - intros k1 k2 v1 v2 c1 He He'.
    exact (H5 _ _ _ _ _ (proj1 (Hent _ _ _ He)) (proj1 (Hent _ _ _ He'))).
  - intros k1 pd1 v1 c1 Hf Hv1.
    apply find_insert_iff in Hf as [[-> ->]|[Hne Hf]].
    + simpl in Hv1. apply find_erase_iff in Hv1 as [Hn Hv1]; [|exact Hokv].
      unfold holds_curve. simpl.
      assert (Hc : c1 <> c).
      { intros ->.
        destruct (H5 k k v1 v c) as [_ E];
          [now exists pd|now exists pd|contradiction]. }
      rewrite find_erase_ne by assumption. exact (H6 _ _ _ _ Hk Hv1).
    + exact (H6 _ _ _ _ Hf Hv1).
Qed.

(** A record gets the entry of a variable and a curve that no record has,
    and its plot the curve. *)
Lemma wf_map_add_entry m gp gv gc k pd v c pc gv' gc' :
  wf_map m gp gv gc ->
  StdMap.find k m = Some pd ->
  (forall k' c', ~ entry m k' v c') ->
  (forall k' v', ~ entry m k' v' c) ->
  v < gv' -> c < gc' -> gv <= gv' -> gc <= gc' ->
  wf_map (StdMap.insert k
            (mkPlotData (id pd)
               (set_curves (StdMap.insert c pc (curves (plot pd))) (plot pd))
               (StdMap.insert v c (variableCurves pd))) m)
         gp gv' gc'.
Proof.
  intros (H1 & H2 & H3 & H4 & H5 & H6) Hk Hnv Hnc Hv Hc Hgv Hgc.
  destruct (H2 k pd Hk) as (Hokv & Hokc & Hid & Hlt).
  set (pd' := mkPlotData (id pd)
                (set_curves (StdMap.insert c pc (curves (plot pd))) (plot pd))
                (StdMap.insert v c (variableCurves pd))).
  assert (Hent : forall k1 v1 c1,
    entry (StdMap.insert k pd' m) k1 v1 c1 ->
    (k1 = k /\ v1 = v /\ c1 = c) \/ entry m k1 v1 c1).
  { intros k1 v1 c1 He. apply entry_insert in He as [[-> He]|[Hne He]].
    - simpl in He. apply find_insert_iff in He as [[-> ->]|[Hn He]].
      + now left.
      + right. now exists pd.
    - now right. }
  split; [now apply ok_insert|]. split; [|split; [|split; [|split]]].
  - intros k1 pd1 Hf. apply find_insert_iff in Hf as [[-> ->]|[Hne Hf]].
    + simpl. repeat split; try assumption; now apply ok_insert.
    + now apply H2.
  - intros k1 v1 c1 He. apply Hent in He as [(-> & -> & ->)|He].
    + now split.
    + destruct (H3 _ _ _ He). split; lia.
  - intros k1 k2 v1 c1 c2 He He'.
    apply Hent in He as [(-> & -> & ->)|He];
      apply Hent in He' as [(-> & E & ->)|He'].
    + reflexivity.
    + now apply Hnv in He'.
    + subst v1. now apply Hnv in He.
    + exact (H4 _ _ _ _ _ He He').
  - intros k1 k2 v1 v2 c1 He He'.
    apply Hent in He as [(-> & -> & ->)|He];
      apply Hent in He' as [(-> & -> & E)|He'].
    + now split.
    + now apply Hnc in He'.
    + subst c1. now apply Hnc in He.
    + exact (H5 _ _ _ _ _ He He').
  - intros k1 pd1 v1 c1 Hf Hv1.
    apply find_insert_iff in Hf as [[-> ->]|[Hne Hf]].
    + simpl in Hv1. unfold holds_curve. simpl.
      destruct (N.eq_dec c1 c) as [->|Hcc].
      * rewrite find_insert_eq. discriminate.
      * rewrite find_insert_ne by assumption.
        apply find_insert_iff in Hv1 as [[_ E]|[_ Hv1]]; [contradiction|].
        exact (H6 _ _ _ _ Hk Hv1).
    + exact (H6 _ _ _ _ Hf Hv1).
Qed.

Lemma uint32_succ_in_range x : x < IGN_UINT32_MAX -> uint32_succ x = x + 1.
Proof.
  intros H. unfold uint32_succ, UINT32_MOD, IGN_UINT32_MAX in *.
  apply N.mod_small. lia.
Qed.

Lemma well_formed_hide st : well_formed (hide_emptyPlot st) <-> well_formed st.
Proof.
  unfold hide_emptyPlot. now destruct (negb (StdMap.empty (plotData st))).
Qed.

Lemma well_formed_show st : well_formed (show_emptyPlot st) <-> well_formed st.
Proof.
  unfold show_emptyPlot. now destruct (StdMap.empty (plotData st)).
Qed.

Lemma entry_new_plot m g w k v c :
  entry (StdMap.insert g (mkPlotData g (mkPlot w []) []) m) k v c ->
  entry m k v c.
Proof.
  intros He. apply entry_insert in He as [[_ He]|[_ He]];
    [discriminate|exact He].
Qed.

Lemma AddPlot_wf st :
  well_formed st -> globalPlotId st < IGN_UINT32_MAX ->
  well_formed (snd (AddPlot st)).
Proof.
  intros Hwf Hr. unfold well_formed, AddPlot. simpl.
  rewrite (uint32_succ_in_range _ Hr).
  apply wf_map_new_plot; [exact Hwf|lia].
Qed.

Lemma AddVariable_wf i n p st :
  well_formed st ->
  (forall k c, ~ entry (plotData st) k i c) ->
  i < globalVariableId st ->
  globalPlotId st < IGN_UINT32_MAX ->
  globalCurveId st < IGN_UINT32_MAX ->
  well_formed (AddVariable i n p st).
Proof.
  intros Hwf Hni Hi Hrp Hrc. unfold AddVariable.
  assert (Hfc : forall m, (forall k v c, entry m k v c ->
                             c < globalCurveId st) ->
                forall k v, ~ entry m k v (globalCurveId st)).
  { intros m H k v He. apply H in He. lia. }
  destruct (p =? EMPTY_PLOT).
  - cbn [AddPlot fst snd plotData globalCurveId]. rewrite find_insert_eq.
    apply (well_formed_hide
             (set_plotData _ (set_globalCurveId _ (snd (AddPlot st))))).
    unfold well_formed. simpl.
    rewrite (uint32_succ_in_range _ Hrp), (uint32_succ_in_range _ Hrc).
    apply (wf_map_add_entry _ (globalPlotId st + 1) (globalVariableId st)
             (globalCurveId st) (globalPlotId st)
             (mkPlotData (globalPlotId st) (mkPlot (nextWidget st) []) [])
             i (globalCurveId st) (mkCurve n true 0)); try lia.
    + apply wf_map_new_plot; [exact Hwf|lia].
    + apply find_insert_eq.
    + intros k c He. apply entry_new_plot in He. now apply Hni in He.
    + intros k v He. apply entry_new_plot in He. revert He.
      apply Hfc. intros k0 v0 c0 H0.
      destruct Hwf as (_ & _ & H3 & _). now apply (H3 k0 v0 c0).
  - destruct (StdMap.find p (plotData st)) as [pd|] eqn:Hp; [|exact Hwf].
    apply (well_formed_hide (set_plotData _ (set_globalCurveId _ st))).
    unfold well_formed. simpl. rewrite (uint32_succ_in_range _ Hrc).
    apply (wf_map_add_entry _ (globalPlotId st) (globalVariableId st)
             (globalCurveId st) p pd i (globalCurveId st) (mkCurve n true 0));
      try lia; try assumption.
    apply Hfc. intros k0 v0 c0 H0.
    destruct Hwf as (_ & _ & H3 & _). now apply (H3 k0 v0 c0).
Qed.

Lemma AddVariable_name_wf n p st :
  well_formed st -> counters_in_range st ->
  well_formed (snd (AddVariable_name n p st)).
Proof.
  intros Hwf (Hrp & Hrv & Hrc). unfold AddVariable_name, AddVariablePill.
  cbn [snd].
  set (st1 := set_globalVariableId _ (set_yVariableContainer _ st)).
  assert (Hwf1 : well_formed st1).
  { unfold well_formed, st1. simpl. rewrite (uint32_succ_in_range _ Hrv).
    apply wf_map_counters with (gp := globalPlotId st)
      (gv := globalVariableId st) (gc := globalCurveId st);
      [exact Hwf|lia|lia|lia]. }
  assert (Hni : forall k c, ~ entry (plotData st1) k (globalVariableId st) c).
  { intros k c He. destruct Hwf as (_ & _ & H3 & _).
    destruct (H3 k _ c He). lia. }
  assert (Hi : globalVariableId st < globalVariableId st1)
    by (unfold st1; simpl; rewrite (uint32_succ_in_range _ Hrv); lia).
  assert (Hadd : forall q, well_formed
                   (AddVariable (globalVariableId st) n q st1))
    by (intros q; now apply AddVariable_wf).
  unfold OnAddVariable.
  destruct (negb (_ =? EMPTY_VARIABLE)); [|apply Hadd].
  generalize (plotData st1) at 1. intros its.
  induction its as [|[k pd] its IH]; simpl; [exact Hwf1|].
  destruct (StdMap.mem _ (variableCurves pd)); [apply Hadd|exact IH].
Qed.

Lemma RemoveVariable_found_wf v k pd c st :
  well_formed st ->
  StdMap.find k (plotData st) = Some pd ->
  StdMap.find v (variableCurves pd) = Some c ->
  well_formed (RemoveVariable_found v k pd c st).
Proof.
  intros Hwf Hk Hv. unfold RemoveVariable_found.
  destruct (StdMap.empty (StdMap.erase v (variableCurves pd))).
  - unfold well_formed. simpl. now apply wf_map_erase.
  - unfold well_formed. simpl. now apply wf_map_remove_entry.
Qed.

Lemma RemoveVariable_wf v st :
  well_formed st -> well_formed (RemoveVariable v st).
Proof.
  intros Hwf. unfold RemoveVariable. apply well_formed_show.
  assert (Hin : forall k pd, In (k, pd) (plotData st) ->
                             StdMap.find k (plotData st) = Some pd)
    by (intros k pd H; apply In_find_some; [apply Hwf|exact H]).
  revert Hin. generalize (plotData st) at 1 3. intros its.
  induction its as [|[k pd] its IH]; intros Hin; simpl; [exact Hwf|].
  destruct (StdMap.find v (variableCurves pd)) as [c|] eqn:Hv.
  - apply RemoveVariable_found_wf; try assumption. apply Hin. now left.
  - apply IH. intros k0 pd0 H. apply Hin. now right.
Qed.

Lemma RemoveVariable_plot_wf v p st :
  well_formed st -> well_formed (RemoveVariable_plot v p st).
Proof.
  intros Hwf. unfold RemoveVariable_plot.
  destruct (StdMap.find p (plotData st)) as [pd|] eqn:Hp; [|exact Hwf].
  destruct (StdMap.find v (variableCurves pd)) as [c|] eqn:Hv; [|exact Hwf].
  destruct (StdMap.empty (StdMap.erase v (variableCurves pd))).
  - apply (well_formed_show
             (set_plotData _ (set_plotLayout _ (set_manager _ st)))).
    unfold well_formed. simpl. now apply wf_map_erase.
  - apply (well_formed_show (set_plotData _ (set_manager _ st))).
    unfold well_formed. simpl. now apply wf_map_remove_entry.
Qed.

Lemma RemovePlot_wf p st : well_formed st -> well_formed (RemovePlot p st).
Proof.
  apply RemovePlot_preserves.
  - intros v q s. apply RemoveVariable_plot_wf.
  - intros q pd s Hwf _ _. unfold well_formed. simpl. now apply wf_map_erase.
Qed.

Lemma Clear_wf st : well_formed st -> well_formed (Clear st).
Proof.
  apply Clear_preserves.
  - intros v q s. apply RemoveVariable_plot_wf.
  - intros q pd s Hwf _ _. unfold well_formed. simpl. now apply wf_map_erase.
Qed.

Lemma OnMoveVariable_wf v t st st' :
  well_formed st -> globalPlotId st < IGN_UINT32_MAX ->
  OnMoveVariable v t st = Some st' -> well_formed st'.
Proof.
  intros Hwf Hrp Hrun.
  destruct (OnMoveVariable_find v t (plotData st) None None)
    as [[[sk c]|] tgt] eqn:Hscan;
    [|unfold OnMoveVariable in Hrun; rewrite Hscan in Hrun;
      now injection Hrun as <-].
  pose proof Hwf as (H1 & H2 & H3 & H4 & H5 & H6).
  pose proof (OnMoveVariable_find_spec _ _ _ _ _ _ _ Hscan) as [Hsrc _].
  destruct Hsrc as [Hsrc|(src & Hin & Hv)]; [discriminate|].
  apply In_find_some in Hin; [|exact H1]. rename Hin into Hs.
  pose proof (H6 _ _ _ _ Hs Hv) as Hhold. unfold holds_curve in Hhold.
  destruct (StdMap.find c (curves (plot src))) as [pc|] eqn:Hc;
    [clear Hhold|contradiction].
  destruct (OnMoveVariable_exec v t st sk c tgt src pc Hscan Hs Hc)
    as (st'' & Hrun' & Hres & Hgv & Hgc & Hgp).
  rewrite Hrun in Hrun'. injection Hrun' as <-.
  unfold well_formed. rewrite Hgv, Hgc, Hgp.
  set (src' := mkPlotData (id src)
                 (set_curves (StdMap.erase c (curves (plot src))) (plot src))
                 (StdMap.erase v (variableCurves src))) in *.
  set (m1 := StdMap.insert sk src' (plotData st)) in *.
  assert (Hwf1 : wf_map m1 (globalPlotId st) (globalVariableId st)
                   (globalCurveId st))
    by (apply wf_map_remove_entry; assumption).
  assert (He : entry (plotData st) sk v c) by now exists src.
  destruct (H2 _ _ Hs) as (Hokv & _ & _ & Hsk).
  assert (Hnv : forall k' c', ~ entry m1 k' v c').
  { intros k' c' H. apply entry_insert in H as [[-> H]|[Hne H]].
    - simpl in H. apply find_erase_iff in H as [H _]; [|exact Hokv].
      now apply H.
    - apply Hne. exact (H4 _ _ _ _ _ H He). }
  assert (Hnc : forall k' v', ~ entry m1 k' v' c).
  { intros k' v' H. apply entry_insert in H as [[-> H]|[Hne H]].
    - simpl in H. apply find_erase_iff in H as [Hn H]; [|exact Hokv].
      apply Hn. apply (H5 sk sk v' v c); [now exists src|exact He].
    - apply Hne. apply (H5 k' sk v' v c); assumption. }
  destruct (H3 _ _ _ He) as [Hvlt Hclt].
  destruct tgt as [tk|].
  - destruct (StdMap.find tk m1) as [tg|] eqn:Htg.
    + cbv zeta in Hres. destruct Hres as [Hp _]. rewrite Hp.
      assert (Hwf2 : wf_map
                (StdMap.insert tk
                   (mkPlotData (id tg)
                      (IncrementalPlotOps.AttachCurve c pc (plot tg))
                      (StdMap.insert v c (variableCurves tg))) m1)
                (globalPlotId st) (globalVariableId st) (globalCurveId st))
        by (apply (wf_map_add_entry m1 _ (globalVariableId st)
                     (globalCurveId st) tk tg v c pc);
            try assumption; lia).
      destruct (StdMap.empty _); [now apply wf_map_erase|exact Hwf2].
    + destruct Hres as [Hp _]. rewrite Hp.
      destruct (StdMap.empty _); [now apply wf_map_erase|exact Hwf1].
  - cbv zeta in Hres. destruct Hres as [Hp _]. rewrite Hp.
    rewrite (uint32_succ_in_range _ Hrp).
    set (g := globalPlotId st) in *.
    set (empty := mkPlotData g (mkPlot (nextWidget st) []) []).
    assert (Hwf2 : wf_map (StdMap.insert g empty m1) (g + 1)
                     (globalVariableId st) (globalCurveId st))
      by (apply wf_map_new_plot; [exact Hwf1|lia]).
    assert (Hwf3 : wf_map
              (StdMap.insert g
                 (mkPlotData g
                    (IncrementalPlotOps.AttachCurve c pc
                       (mkPlot (nextWidget st) []))
                    (StdMap.insert v c [])) m1)
              (g + 1) (globalVariableId st) (globalCurveId st)).
    { rewrite <- (insert_insert g _ empty m1).
      apply (wf_map_add_entry _ _ (globalVariableId st) (globalCurveId st)
               g empty v c pc); try assumption; try lia.
      - apply find_insert_eq.
      - intros k' c' H. apply entry_new_plot in H. now apply Hnv in H.
      - intros k' v' H. apply entry_new_plot in H. now apply Hnc in H. }
    destruct (StdMap.empty _); [|exact Hwf3].
    destruct (g =? sk); [exact Hwf3|now apply wf_map_erase].
Qed.

Lemma well_formed_new p v c : well_formed (PlotCanvas_new p v c).
Proof.
  unfold well_formed, wf_map, entry. simpl.
  split; [reflexivity|]. split; [|split; [|split; [|split]]].
  - intros k pd H. discriminate.
  - intros k v0 c0 (pd & H & _). discriminate.
  - intros k k' v0 c0 c' (pd & H & _). discriminate.
  - intros k k' v0 v' c0 (pd & H & _). discriminate.
  - intros k pd v0 c0 H. discriminate.
Qed.

(** The data model holds at every canvas that container-driven
    operations reach before a counter wraps around. *)
Theorem reachable_well_formed st : reachable_in_range st -> well_formed st.
Proof.
  induction 1 as [p v c|st o st' _ IH Ho Hr Hrun];
    [apply well_formed_new|].
  pose proof Hr as (Hrp & Hrv & Hrc).
  destruct o; simpl in Hrun; try discriminate Ho;
    try (injection Hrun as <-).
  - now apply AddPlot_wf.
  - now apply AddVariable_name_wf.
  - now apply RemoveVariable_wf.
  - now apply RemoveVariable_plot_wf.
  - now apply RemovePlot_wf.
  - now apply (OnMoveVariable_wf _id _targetId st).
  - now apply Clear_wf.
Qed.

(** ** What the data model gives *)

Lemma well_formed_canvas_ok st : well_formed st -> canvas_ok st = true.
Proof.
  intros (H1 & H2 & _). unfold canvas_ok, records_ok.
  apply andb_true_iff. split; [exact H1|].
  apply forallb_forall. intros [k pd] Hin. simpl.
  apply In_find_some in Hin; [|exact H1].
  destruct (H2 k pd Hin) as (Ha & Hb & _). now rewrite Ha, Hb.
Qed.

Lemma well_formed_fresh st : well_formed st -> fresh_plot_id st.
Proof.
  intros (_ & H2 & _). unfold fresh_plot_id.
  destruct (StdMap.find (globalPlotId st) (plotData st)) as [pd|] eqn:E;
    [|reflexivity].
  destruct (H2 _ _ E) as (_ & _ & _ & Hlt). lia.
Qed.

Lemma owns_entry k v st :
  owns k v st = true -> exists c, entry (plotData st) k v c.
Proof.
  intros H. destruct (owns_find _ _ _ H) as (pd & Hf & Hm).
  unfold StdMap.mem in Hm.
  destruct (StdMap.find v (variableCurves pd)) as [c|] eqn:E; [|discriminate].
  exists c. now exists pd.
Qed.

Lemma well_formed_single t st : well_formed st -> single_owner t st.
Proof.
  intros (_ & _ & _ & H4 & _) k k' Hk Hk'.
  destruct (owns_entry _ _ _ Hk) as (c & He).
  destruct (owns_entry _ _ _ Hk') as (c' & He').
  exact (H4 _ _ _ _ _ He He').
Qed.

Lemma well_formed_sole v s st :
  well_formed st -> owns s v st = true -> sole_owner v s st.
Proof.
  intros Hwf Hs k Hk. exact (well_formed_single v st Hwf k s Hk Hs).
Qed.

Lemma well_formed_holds k pd v c st :
  well_formed st ->
  StdMap.find k (plotData st) = Some pd ->
  StdMap.find v (variableCurves pd) = Some c -> holds_curve c pd.
Proof. intros (_ & _ & _ & _ & _ & H6). apply H6. Qed.

Lemma in_range_one_var : reachable_in_range canvas_one_var.
Proof.
  apply in_range_step
    with (st := canvas0) (o := OpAddVariable_name "x" EMPTY_PLOT);
    [apply in_range_new|reflexivity|vm_compute; repeat split; reflexivity
     |vm_compute; reflexivity].
Qed.

Lemma in_range_two_vars : reachable_in_range canvas_two_vars.
Proof.
  apply in_range_step
    with (st := canvas_one_var) (o := OpAddVariable_name "y" 0);
    [apply in_range_one_var|reflexivity
     |vm_compute; repeat split; reflexivity|vm_compute; reflexivity].
Qed.

Lemma in_range_two_plots : reachable_in_range canvas_two_plots.
Proof.
  apply in_range_step
    with (st := canvas_two_vars) (o := OpAddVariable_name "z" EMPTY_PLOT);
    [apply in_range_two_vars|reflexivity
     |vm_compute; repeat split; reflexivity|vm_compute; reflexivity].
Qed.

(** ** Moving and removing variables on a well-formed canvas *)

(** C10: when [v] and [t] belong to the same Plot Record,
    [OnMoveVariable v t] detaches the curve of [v] and attaches it to the
    same plot again, erases the entry of [v] and inserts it again with
    the same curve id: the canvas (its Plot Records and every
    variable-to-curve mapping included) is what it was. *)
Theorem OnMoveVariable_same_plot v t s src c st :
  well_formed st ->
  StdMap.find s (plotData st) = Some src ->
  StdMap.find v (variableCurves src) = Some c ->
  StdMap.mem t (variableCurves src) = true ->
  OnMoveVariable v t st = Some st
  /\ (forall st', OnMoveVariable v t st = Some st' ->
       plotData st' = plotData st
       /\ forall k, vars_of k st' = vars_of k st).
Proof.
  intros Hwf Hs Hv Ht.
  assert (H : OnMoveVariable v t st = Some st).
  { apply (OnMoveVariable_within_plot v t s src c st); try assumption.
    - now apply well_formed_canvas_ok.
    - apply well_formed_sole; [exact Hwf|].
      eapply owns_intro; eauto using mem_of_find.
    - now apply well_formed_single.
    - exact (well_formed_holds _ _ _ _ _ Hwf Hs Hv). }
  split; [exact H|]. intros st' H'. rewrite H in H'. injection H' as <-.
  split; reflexivity.
Qed.

Lemma OnMoveVariable_same_plot_witness :
  (reachable_in_range canvas_two_vars
   /\ StdMap.find 0 (plotData canvas_two_vars)
      = Some (mkPlotData 0
                (mkPlot 1 [(0, mkCurve "x" true 0); (1, mkCurve "y" true 0)])
                [(1, 0); (2, 1)]))
  /\ OnMoveVariable 1 2 canvas_two_vars = Some canvas_two_vars
  /\ (forall st', OnMoveVariable 1 2 canvas_two_vars = Some st' ->
       plotData st' = plotData canvas_two_vars
       /\ forall k, vars_of k st' = vars_of k canvas_two_vars).
Proof.
  split; [split; [exact in_range_two_vars|reflexivity]|].
  apply (OnMoveVariable_same_plot 1 2 0
           (mkPlotData 0
              (mkPlot 1 [(0, mkCurve "x" true 0); (1, mkCurve "y" true 0)])
              [(1, 0); (2, 1)]) 0 canvas_two_vars);
    [exact (reachable_well_formed _ in_range_two_vars)
    |reflexivity|reflexivity|reflexivity].
Defined.

(** C2: [OnMoveVariable v t], for a variable [v] that the Plot Record
    [s] owns with curve [c], removes [v] from the mapping of [s] and adds
    exactly one entry, [v] to [c], to the mapping of the record that owns
    [t], a fresh record under the next plot id if none does; the number
    of entries of all Plot Records together does not change.  (When [s]
    itself owns [t], the entry is erased and inserted again.) *)
Theorem OnMoveVariable_moves v t s src c st :
  well_formed st ->
  StdMap.find s (plotData st) = Some src ->
  StdMap.find v (variableCurves src) = Some c ->
  exists st',
    OnMoveVariable v t st = Some st'
    /\ total_curves (plotData st') = total_curves (plotData st)
    /\ (forall tk, owns tk t st = true -> tk <> s ->
          StdMap.find v (vars_of tk st) = None
          /\ vars_of tk st' = StdMap.insert v c (vars_of tk st)
          /\ vars_of s st' = StdMap.erase v (vars_of s st))
    /\ (owns s t st = true -> vars_of s st' = vars_of s st)
    /\ ((forall k, owns k t st = false) ->
          vars_of (globalPlotId st) st = []
          /\ vars_of (globalPlotId st) st' = [(v, c)]
          /\ vars_of s st' = StdMap.erase v (vars_of s st)).
Proof.
  intros Hwf Hs Hv.
  apply (OnMoveVariable_moves_entry v t s src c st); try assumption.
  - now apply well_formed_canvas_ok.
  - apply well_formed_sole; [exact Hwf|].
    eapply owns_intro; eauto using mem_of_find.
  - now apply well_formed_single.
  - exact (well_formed_holds _ _ _ _ _ Hwf Hs Hv).
  - now apply well_formed_fresh.
Qed.

Lemma OnMoveVariable_moves_witness :
  reachable_in_range canvas_two_plots
  /\ exists st',
       OnMoveVariable 1 3 canvas_two_plots = Some st'
       /\ total_curves (plotData st') = total_curves (plotData canvas_two_plots)
       /\ (forall tk, owns tk 3 canvas_two_plots = true -> tk <> 0 ->
             StdMap.find 1 (vars_of tk canvas_two_plots) = None
             /\ vars_of tk st' = StdMap.insert 1 0 (vars_of tk canvas_two_plots)
             /\ vars_of 0 st' = StdMap.erase 1 (vars_of 0 canvas_two_plots))
       /\ (owns 0 3 canvas_two_plots = true ->
           vars_of 0 st' = vars_of 0 canvas_two_plots)
       /\ ((forall k, owns k 3 canvas_two_plots = false) ->
             vars_of (globalPlotId canvas_two_plots) canvas_two_plots = []
             /\ vars_of (globalPlotId canvas_two_plots) st' = [(1, 0)]
             /\ vars_of 0 st' = StdMap.erase 1 (vars_of 0 canvas_two_plots)).
Proof.
  split; [exact in_range_two_plots|].
  apply (OnMoveVariable_moves 1 3 0
           (mkPlotData 0
              (mkPlot 1 [(0, mkCurve "x" true 0); (1, mkCurve "y" true 0)])
              [(1, 0); (2, 1)]) 0 canvas_two_plots);
    [exact (reachable_well_formed _ in_range_two_plots)
    |reflexivity|reflexivity].
Defined.

(** C7: when [OnMoveVariable] moves the only variable of the Plot Record
    [s] to another plot, the record is destroyed: no record is stored
    under [s] afterwards, and [PlotByVariable] never returns [s] for a
    variable that some plot still holds. *)
Theorem OnMoveVariable_destroys_emptied_plot v t s src c st :
  well_formed st ->
  StdMap.find s (plotData st) = Some src ->
  variableCurves src = [(v, c)] ->
  t <> v ->
  exists st',
    OnMoveVariable v t st = Some st'
    /\ StdMap.find s (plotData st') = None
    /\ forall x, var_absent x st' = false -> PlotByVariable x st' <> s.
Proof.
  intros Hwf Hs Hvars Hne.
  assert (Hv : StdMap.find v (variableCurves src) = Some c)
    by (rewrite Hvars; simpl; now rewrite N.eqb_refl).
  apply (OnMoveVariable_erases_source v t s src c st); try assumption.
  - now apply well_formed_canvas_ok.
  - apply well_formed_sole; [exact Hwf|].
    eapply owns_intro; eauto using mem_of_find.
  - exact (well_formed_holds _ _ _ _ _ Hwf Hs Hv).
  - now apply well_formed_fresh.
Qed.

Lemma OnMoveVariable_destroys_emptied_plot_witness :
  (reachable_in_range canvas_two_plots
   /\ vars_of 1 canvas_two_plots = [(3, 2)])
  /\ exists st',
       OnMoveVariable 3 1 canvas_two_plots = Some st'
       /\ StdMap.find 1 (plotData st') = None
       /\ forall x, var_absent x st' = false -> PlotByVariable x st' <> 1.
Proof.
  split; [split; [exact in_range_two_plots|reflexivity]|].
  apply (OnMoveVariable_destroys_emptied_plot 3 1 1
           (mkPlotData 1 (mkPlot 2 [(2, mkCurve "z" true 0)]) [(3, 2)])
           2 canvas_two_plots);
    [exact (reachable_well_formed _ in_range_two_plots)
    |reflexivity|reflexivity|discriminate].
Defined.

(** C6 (amended): when the Plot Record [p] owns [v], the two overloads
    of [RemoveVariable] leave the same Plot Records (the curve removed
    from the plot handle in both), the same placeholder visibility and
    the same layout.  If [v] is the only variable of [p], the resulting
    states are identical.  Otherwise the overload that scans leaves the
    slot container and the registry as they are, and the overload that is
    given the plot removes the slot and asks the registry to remove the
    curve that the plot holds under the id [v]. *)
Theorem RemoveVariable_overloads v p pd c st :
  well_formed st ->
  StdMap.find p (plotData st) = Some pd ->
  StdMap.find v (variableCurves pd) = Some c ->
  plotData (RemoveVariable v st) = plotData (RemoveVariable_plot v p st)
  /\ emptyPlotVisible (RemoveVariable v st)
     = emptyPlotVisible (RemoveVariable_plot v p st)
  /\ plotLayout (RemoveVariable v st) = plotLayout (RemoveVariable_plot v p st)
  /\ (StdMap.erase v (variableCurves pd) = [] ->
      RemoveVariable v st = RemoveVariable_plot v p st)
  /\ (StdMap.erase v (variableCurves pd) <> [] ->
      yVariableContainer (RemoveVariable v st) = yVariableContainer st
      /\ manager (RemoveVariable v st) = manager st
      /\ yVariableContainer (RemoveVariable_plot v p st)
         = StdMap.erase v (yVariableContainer st)
      /\ manager (RemoveVariable_plot v p st)
         = PlotManager.RemoveCurve (curve_ref v (plot pd)) (manager st)).
Proof.
  intros Hwf Hp Hv.
  apply (RemoveVariable_overloads_sole v p pd c st); try assumption.
  - apply Hwf.
  - apply well_formed_sole; [exact Hwf|].
    eapply owns_intro; eauto using mem_of_find.
Qed.

Lemma RemoveVariable_overloads_witness :
  reachable_in_range canvas_two_plots
  /\ plotData (RemoveVariable 3 canvas_two_plots)
     = plotData (RemoveVariable_plot 3 1 canvas_two_plots)
  /\ emptyPlotVisible (RemoveVariable 3 canvas_two_plots)
     = emptyPlotVisible (RemoveVariable_plot 3 1 canvas_two_plots)
  /\ plotLayout (RemoveVariable 3 canvas_two_plots)
     = plotLayout (RemoveVariable_plot 3 1 canvas_two_plots)
  /\ (StdMap.erase 3 [(3, 2)] = [] ->
      RemoveVariable 3 canvas_two_plots
      = RemoveVariable_plot 3 1 canvas_two_plots)
  /\ (StdMap.erase 3 [(3, 2)] <> [] ->
      yVariableContainer (RemoveVariable 3 canvas_two_plots)
      = yVariableContainer canvas_two_plots
      /\ manager (RemoveVariable 3 canvas_two_plots) = manager canvas_two_plots
      /\ yVariableContainer (RemoveVariable_plot 3 1 canvas_two_plots)
         = StdMap.erase 3 (yVariableContainer canvas_two_plots)
      /\ manager (RemoveVariable_plot 3 1 canvas_two_plots)
         = PlotManager.RemoveCurve
             (curve_ref 3 (mkPlot 2 [(2, mkCurve "z" true 0)]))
             (manager canvas_two_plots)).
Proof.
  split; [exact in_range_two_plots|].
  apply (RemoveVariable_overloads 3 1
           (mkPlotData 1 (mkPlot 2 [(2, mkCurve "z" true 0)]) [(3, 2)])
           2 canvas_two_plots);
    [exact (reachable_well_formed _ in_range_two_plots)
    |reflexivity|reflexivity].
Defined.

(** C4 (what the code does): when [v] is the only variable of the Plot
    Record [p], [RemoveVariable v] removes the slot of [v], takes the
    plot out of the layout and destroys the record, so that no record is
    stored under [p] afterwards; but it asks the registry to remove the
    curve that the plot holds under the id [v], the variable's id, where
    the variable's curve has the id [c]: whenever the two ids differ, the
    variable's curve is as registered as it was. *)
Theorem RemoveVariable_only_variable v p pd c st :
  well_formed st ->
  StdMap.ok (yVariableContainer st) = true ->
  StdMap.find p (plotData st) = Some pd ->
  variableCurves pd = [(v, c)] ->
  StdMap.find p (plotData (RemoveVariable v st)) = None
  /\ GetVariablePill v (RemoveVariable v st) = None
  /\ plotLayout (RemoveVariable v st)
     = layout_take (widget (plot pd)) (plotLayout st)
  /\ manager (RemoveVariable v st)
     = PlotManager.RemoveCurve (curve_ref v (plot pd)) (manager st)
  /\ (v <> c ->
      PlotManager.registered c (manager (RemoveVariable v st))
      = PlotManager.registered c (manager st)).
Proof.
  intros Hwf Hoky Hp Hvars.
  apply (RemoveVariable_only_variable_sole v p pd c st); try assumption.
  - apply Hwf.
  - apply well_formed_sole; [exact Hwf|].
    apply (owns_intro _ _ _ _ Hp). rewrite Hvars. unfold StdMap.mem. simpl.
    now rewrite N.eqb_refl.
Qed.

Lemma RemoveVariable_only_variable_witness :
  (reachable_in_range canvas_one_var
   /\ vars_of 0 canvas_one_var = [(1, 0)]
   /\ PlotManager.registered 0 (manager canvas_one_var) = true)
  /\ StdMap.find 0 (plotData (RemoveVariable 1 canvas_one_var)) = None
  /\ GetVariablePill 1 (RemoveVariable 1 canvas_one_var) = None
  /\ plotLayout (RemoveVariable 1 canvas_one_var)
     = layout_take 1 (plotLayout canvas_one_var)
  /\ manager (RemoveVariable 1 canvas_one_var)
     = PlotManager.RemoveCurve
         (curve_ref 1 (mkPlot 1 [(0, mkCurve "x" true 0)]))
         (manager canvas_one_var)
  /\ (1 <> 0 ->
      PlotManager.registered 0 (manager (RemoveVariable 1 canvas_one_var))
      = PlotManager.registered 0 (manager canvas_one_var)).
Proof.
  split; [repeat split; exact in_range_one_var|].
  apply (RemoveVariable_only_variable 1 0
           (mkPlotData 0 (mkPlot 1 [(0, mkCurve "x" true 0)]) [(1, 0)])
           0 canvas_one_var);
    [exact (reachable_well_formed _ in_range_one_var)
    |reflexivity|reflexivity|reflexivity].
Defined.

(** * More of the canvas: plots, variables and labels *)

(** ** [AddPlot] *)

Lemma PlotByVariable_loop_insert_empty x g nd m :
  variableCurves nd = [] -> StdMap.find g m = None ->
  PlotByVariable_loop x (StdMap.insert g nd m) = PlotByVariable_loop x m.
Proof.
  intros Hnd. induction m as [|[k pd] m IH]; simpl; intros Hf.
  - now rewrite Hnd.
  - destruct (N.compare_spec g k) as [->|Hlt|Hgt].
    + rewrite N.eqb_refl in Hf. discriminate.
    + simpl. now rewrite Hnd.
    + simpl. destruct (g =? k) eqn:E; [discriminate|].
      now rewrite (IH Hf).
Qed.

(** X1: [AddPlot] returns the next plot id and stores under it a record
    without variables, whose plot is a new widget appended to the
    layout.  No other record, no pill and no registered curve changes,
    and the placeholder stays as it is.  When the id counter has not
    wrapped around onto a live plot, the canvas has one record more and
    every variable is found in the plot it was in. *)
Theorem AddPlot_adds_empty_record st :
  let r := AddPlot st in
  fst r = globalPlotId st
  /\ StdMap.find (fst r) (plotData (snd r))
     = Some (mkPlotData (fst r) (mkPlot (nextWidget st) []) [])
  /\ VariableCount (fst r) (snd r) = 0
  /\ (forall k, k <> fst r ->
        StdMap.find k (plotData (snd r)) = StdMap.find k (plotData st))
  /\ emptyPlotVisible (snd r) = emptyPlotVisible st
  /\ plotLayout (snd r) = (plotLayout st ++ [nextWidget st])%list
  /\ yVariableContainer (snd r) = yVariableContainer st
  /\ manager (snd r) = manager st
  /\ (fresh_plot_id st ->
      List.length (plotData (snd r)) = S (List.length (plotData st))
      /\ forall x, PlotByVariable x (snd r) = PlotByVariable x st).
Proof.
  intros r. unfold r, AddPlot, VariableCount, PlotByVariable. simpl.
  rewrite find_insert_eq. simpl.
  repeat split.
  - intros k Hk. now apply find_insert_ne.
  - now apply length_insert_new.
  - intros x. now apply PlotByVariable_loop_insert_empty.
Qed.

Lemma AddPlot_adds_empty_record_witness :
  fresh_plot_id canvas_two_plots
  /\ fst (AddPlot canvas_two_plots) = 2
  /\ VariableCount 2 (snd (AddPlot canvas_two_plots)) = 0
  /\ List.length (plotData (snd (AddPlot canvas_two_plots))) = 3%nat
  /\ PlotByVariable 3 (snd (AddPlot canvas_two_plots)) = 1.
Proof.
  assert (F : fresh_plot_id canvas_two_plots) by reflexivity.
  split; [exact F|].
  destruct (AddPlot_adds_empty_record canvas_two_plots)
    as (H1 & _ & H3 & _ & _ & _ & _ & _ & H9).
  destruct (H9 F) as (H5 & H6).
  split; [exact H1|]. split; [exact H3|]. split; [exact H5|].
  exact (H6 3).
Defined.

(** ** [PlotByVariable] *)

Lemma PlotByVariable_loop_spec x its :
  (PlotByVariable_loop x its = EMPTY_PLOT
   /\ forallb (fun e => negb (StdMap.mem x (variableCurves (snd e)))) its
      = true)
  \/ exists pd, In (PlotByVariable_loop x its, pd) its
                /\ StdMap.mem x (variableCurves pd) = true.
Proof.
  induction its as [|[k pd] its IH]; simpl; [now left|].
  destruct (StdMap.mem x (variableCurves pd)) eqn:E; simpl.
  - right. exists pd. split; [now left|exact E].
  - destruct IH as [IH|(pd' & Hin & Hm)]; [now left|].
    right. exists pd'. split; [now right|exact Hm].
Qed.

Lemma PlotByVariable_sole x p st :
  StdMap.ok (plotData st) = true ->
  sole_owner x p st -> owns p x st = true -> PlotByVariable x st = p.
Proof.
  intros Hok Hsole Hown. unfold PlotByVariable.
  destruct (PlotByVariable_loop_spec x (plotData st))
    as [(_ & Habs)|(pd & Hin & Hm)].
  - exfalso. destruct (owns_find _ _ _ Hown) as (pd & Hf & Hm).
    apply find_some_In in Hf.
    rewrite forallb_forall in Habs. specialize (Habs _ Hf). simpl in Habs.
    rewrite Hm in Habs. discriminate.
  - apply Hsole. eapply owns_intro; [|exact Hm].
    now apply In_find_some.
Qed.

(** X2: [PlotByVariable] returns [EMPTY_PLOT] for a variable that no
    plot holds, and the id of the plot that holds the variable
    otherwise: on a canvas whose records are a well-formed map in which
    at most one plot holds the variable, the result is that plot, and a
    result other than [EMPTY_PLOT] is always the id of a plot that holds
    the variable. *)
Theorem PlotByVariable_finds_owner x st :
  StdMap.ok (plotData st) = true ->
  single_owner x st ->
  (var_absent x st = true -> PlotByVariable x st = EMPTY_PLOT)
  /\ (forall p, owns p x st = true -> PlotByVariable x st = p)
  /\ (PlotByVariable x st <> EMPTY_PLOT ->
      owns (PlotByVariable x st) x st = true).
Proof.
  intros Hok Hsingle. split; [|split].
  - clear Hok Hsingle. unfold var_absent, PlotByVariable.
    induction (plotData st) as [|[k pd] m IH]; simpl; [reflexivity|].
    destruct (StdMap.mem x (variableCurves pd)); simpl;
      [discriminate|exact IH].
  - intros p Hp. apply PlotByVariable_sole; [exact Hok| |exact Hp].
    intros k Hk. exact (Hsingle k p Hk Hp).
  - unfold PlotByVariable.
    destruct (PlotByVariable_loop_spec x (plotData st))
      as [(He & _)|(pd & Hin & Hm)]; [intros H; now elim H|].
    intros _. eapply owns_intro; [|exact Hm]. now apply In_find_some.
Qed.

Lemma PlotByVariable_finds_owner_witness :
  (StdMap.ok (plotData canvas_two_plots) = true
   /\ single_owner 3 canvas_two_plots)
  /\ (var_absent 3 canvas_two_plots = true ->
      PlotByVariable 3 canvas_two_plots = EMPTY_PLOT)
  /\ (forall p, owns p 3 canvas_two_plots = true ->
        PlotByVariable 3 canvas_two_plots = p)
  /\ (PlotByVariable 3 canvas_two_plots <> EMPTY_PLOT ->
      owns (PlotByVariable 3 canvas_two_plots) 3 canvas_two_plots = true).
Proof.
  assert (H : single_owner 3 canvas_two_plots).
  { apply (sole_single 3 1). apply sole_owner_check. reflexivity. }
  split; [split; [reflexivity|exact H]|].
  apply (PlotByVariable_finds_owner 3 canvas_two_plots); [reflexivity|exact H].
Defined.

(** ** The loops that look for a variable *)

Lemma first_owner_absent v its :
  forallb (fun e => negb (StdMap.mem v (variableCurves (snd e)))) its = true
  <-> first_owner v its = None.
Proof.
  induction its as [|[k pd] its IH]; simpl; [tauto|].
  destruct (StdMap.mem v (variableCurves pd)); simpl; [|exact IH].
  split; discriminate.
Qed.

Lemma first_owner_In v its k pd :
  first_owner v its = Some (k, pd) ->
  In (k, pd) its /\ StdMap.mem v (variableCurves pd) = true.
Proof.
  induction its as [|[k0 pd0] its IH]; simpl; [discriminate|].
  destruct (StdMap.mem v (variableCurves pd0)) eqn:E.
  - intros H. injection H as <- <-. split; [now left|exact E].
  - intros H. destruct (IH H) as [Hin Hm]. split; [now right|exact Hm].
Qed.

Lemma first_owner_sole v p pd m :
  StdMap.ok m = true ->
  StdMap.find p m = Some pd ->
  StdMap.mem v (variableCurves pd) = true ->
  (forall k pd', StdMap.find k m = Some pd' ->
                 StdMap.mem v (variableCurves pd') = true -> k = p) ->
  first_owner v m = Some (p, pd).
Proof.
  intros Hok Hf Hm Hsole.
  destruct (first_owner v m) as [[k pd']|] eqn:E.
  - destruct (first_owner_In _ _ _ _ E) as [Hin Hm'].
    apply In_find_some in Hin; [|exact Hok].
    assert (k = p) by exact (Hsole _ _ Hin Hm'). subst k.
    rewrite Hf in Hin. now injection Hin as <-.
  - exfalso. apply first_owner_absent in E.
    rewrite forallb_forall in E.
    specialize (E _ (find_some_In _ _ _ Hf)). simpl in E.
    rewrite Hm in E. discriminate.
Qed.

Lemma first_owner_insert v p pd pd' m :
  StdMap.ok m = true ->
  StdMap.find p m = Some pd ->
  StdMap.mem v (variableCurves pd') = StdMap.mem v (variableCurves pd) ->
  first_owner v (StdMap.insert p pd' m)
  = match first_owner v m with
    | Some (k, x) => if k =? p then Some (p, pd') else Some (k, x)
    | None => None
    end.
Proof.
  intros Hok Hf Hm. induction m as [|[k x] m IH]; [discriminate|].
  simpl in Hf |- *. destruct (N.compare_spec p k) as [->|Hlt|Hgt].
  - rewrite N.eqb_refl in Hf. injection Hf as ->. simpl. rewrite Hm.
    destruct (StdMap.mem v (variableCurves pd)); [now rewrite N.eqb_refl|].
    destruct (first_owner v m) as [[k' x']|] eqn:E; [|reflexivity].
    destruct (first_owner_In _ _ _ _ E) as [Hin _].
    apply In_find_some in Hin; [|exact (ok_tail _ _ _ Hok)].
    destruct (N.eqb_spec k' k) as [->|Hne]; [|reflexivity].
    simpl in Hok. rewrite (above_find_none k k m Hok) in Hin by lia.
    discriminate.
  - exfalso. destruct (N.eqb_spec p k) as [->|_]; [lia|].
    simpl in Hok. rewrite (above_find_none k p m Hok) in Hf by lia.
    discriminate.
  - destruct (N.eqb_spec p k) as [->|Hne]; [lia|]. simpl.
    destruct (StdMap.mem v (variableCurves x)).
    + destruct (N.eqb_spec k p) as [->|_]; [lia|reflexivity].
    + exact (IH (ok_tail _ _ _ Hok) Hf).
Qed.

Lemma mem_true_find {V} k (m : StdMap.t V) :
  StdMap.mem k m = true -> exists x, StdMap.find k m = Some x.
Proof.
  unfold StdMap.mem. destruct (StdMap.find k m) as [x|]; [|discriminate].
  intros _. now exists x.
Qed.

Lemma PlotByVariable_loop_first v its :
  PlotByVariable_loop v its
  = match first_owner v its with
    | Some (k, _) => k
    | None => EMPTY_PLOT
    end.
Proof.
  induction its as [|[k pd] its IH]; simpl; [reflexivity|].
  now destruct (StdMap.mem v (variableCurves pd)).
Qed.

Lemma PlotCurve_loop_first v its :
  PlotCurve_loop v its
  = match first_owner v its with
    | Some (_, pd) =>
        match StdMap.find v (variableCurves pd) with
        | Some c => IncrementalPlotOps.Curve c (plot pd)
        | None => None
        end
    | None => None
    end.
Proof.
  induction its as [|[k pd] its IH]; simpl; [reflexivity|].
  unfold StdMap.mem.
  destruct (StdMap.find v (variableCurves pd)) eqn:E; [|exact IH].
  cbv iota beta. now rewrite E.
Qed.

Lemma OnSetVariableLabel_loop_first x label its st :
  OnSetVariableLabel_loop x label its st
  = match first_owner x its with
    | Some (k, pd) =>
        match StdMap.find x (variableCurves pd) with
        | Some c =>
            set_plotData
              (StdMap.insert k
                 (set_plot (IncrementalPlotOps.SetCurveLabel c label (plot pd))
                           pd)
                 (plotData st)) st
        | None => st
        end
    | None => st
    end.
Proof.
  induction its as [|[k pd] its IH]; simpl; [reflexivity|].
  unfold StdMap.mem.
  destruct (StdMap.find x (variableCurves pd)) eqn:E; [|exact IH].
  cbv iota beta. now rewrite E.
Qed.

Lemma OnAddVariable_loop_first i n t its st :
  OnAddVariable_loop i n t its st
  = match first_owner t its with
    | Some (_, pd) => AddVariable i n (id pd) st
    | None => st
    end.
Proof.
  induction its as [|[k pd] its IH]; simpl; [reflexivity|].
  now destruct (StdMap.mem t (variableCurves pd)).
Qed.

(** ** Requests about a variable that no plot holds *)

(** X3: a request about a variable that no plot holds changes nothing:
    [OnMoveVariable] of such a variable (whatever the target),
    [OnSetVariableLabel] of it, [RemoveVariable_plot] of it (whatever
    the plot) and [OnAddVariable] next to it; [PlotCurve] finds no curve
    for it. *)
Theorem absent_variable_requests x st :
  var_absent x st = true ->
  (forall t, OnMoveVariable x t st = Some st)
  /\ (forall label, OnSetVariableLabel x label st = st)
  /\ (forall p, RemoveVariable_plot x p st = st)
  /\ (forall i name, x <> EMPTY_VARIABLE -> OnAddVariable i name x st = st)
  /\ PlotCurveOf x st = None.
Proof.
  intros Habs. unfold var_absent in Habs.
  assert (Hnone : forall k pd, In (k, pd) (plotData st) ->
                    StdMap.find x (variableCurves pd) = None).
  { intros k pd Hin. rewrite forallb_forall in Habs.
    specialize (Habs _ Hin). simpl in Habs.
    apply mem_false_find. now destruct (StdMap.mem x (variableCurves pd)). }
  apply first_owner_absent in Habs.
  repeat split.
  - intros t. unfold OnMoveVariable.
    destruct (OnMoveVariable_find x t (plotData st) None None) as [r1 r2] eqn:E.
    destruct (OnMoveVariable_find_spec _ _ _ _ _ _ _ E) as (H1 & _).
    destruct r1 as [[k c]|]; [|reflexivity].
    destruct H1 as [H1|(pd & Hin & Hf)]; [discriminate|].
    rewrite (Hnone _ _ Hin) in Hf. discriminate.
  - intros label. unfold OnSetVariableLabel.
    now rewrite OnSetVariableLabel_loop_first, Habs.
  - intros p. unfold RemoveVariable_plot.
    destruct (StdMap.find p (plotData st)) as [pd|] eqn:E; [|reflexivity].
    now rewrite (Hnone p pd (find_some_In _ _ _ E)).
  - intros i name Hx. unfold OnAddVariable.
    apply N.eqb_neq in Hx. rewrite Hx. simpl.
    now rewrite OnAddVariable_loop_first, Habs.
  - unfold PlotCurveOf. now rewrite PlotCurve_loop_first, Habs.
Qed.

Lemma absent_variable_requests_witness :
  var_absent 7 canvas_two_plots = true
  /\ OnMoveVariable 7 1 canvas_two_plots = Some canvas_two_plots
  /\ OnSetVariableLabel 7 "w" canvas_two_plots = canvas_two_plots
  /\ RemoveVariable_plot 7 0 canvas_two_plots = canvas_two_plots
  /\ PlotCurveOf 7 canvas_two_plots = None.
Proof.
  assert (A : var_absent 7 canvas_two_plots = true) by reflexivity.
  split; [exact A|].
  destruct (absent_variable_requests 7 canvas_two_plots A)
    as (H1 & H2 & H3 & _ & H5).
  split; [exact (H1 1)|]. split; [exact (H2 "w"%string)|].
  split; [exact (H3 0)|exact H5].
Defined.

(** ** [AddVariable], both overloads *)

Lemma length_insert_old {V} k (v x : V) m :
  StdMap.ok m = true -> StdMap.find k m = Some x ->
  List.length (StdMap.insert k v m) = List.length m.
Proof.
  intros Hok Hf.
  destruct (find_split k x m Hok Hf) as (l1 & l2 & -> & Hb).
  rewrite (split_insert k x v l1 l2 Hb). now rewrite !length_app.
Qed.

(** What [AddVariable] does when the plot exists. *)
Lemma AddVariable_exec i name p pd st :
  StdMap.find p (plotData st) = Some pd ->
  p <> EMPTY_PLOT ->
  AddVariable i name p st
  = mkCanvas
      (StdMap.insert p
         (mkPlotData (id pd)
            (IncrementalPlotOps.AddCurve (globalCurveId st) name (plot pd))
            (StdMap.insert i (globalCurveId st) (variableCurves pd)))
         (plotData st))
      false (plotLayout st) (yVariableContainer st)
      (PlotManager.AddCurve name (globalCurveId st) (manager st))
      (globalPlotId st) (globalVariableId st)
      (uint32_succ (globalCurveId st)) (nextWidget st).
Proof.
  intros Hf Hp. unfold AddVariable.
  apply N.eqb_neq in Hp. rewrite Hp. rewrite Hf.
  unfold hide_emptyPlot. simpl. rewrite empty_insert. reflexivity.
Qed.

Lemma registered_AddCurve name c r :
  PlotManager.registered c (PlotManager.AddCurve name c r) = true.
Proof.
  unfold PlotManager.registered, PlotManager.AddCurve.
  rewrite existsb_app. simpl. rewrite N.eqb_refl.
  now rewrite orb_true_r.
Qed.

Lemma var_absent_find x st k pd :
  var_absent x st = true ->
  StdMap.find k (plotData st) = Some pd ->
  StdMap.find x (variableCurves pd) = None.
Proof.
  intros Habs Hf. unfold var_absent in Habs. rewrite forallb_forall in Habs.
  specialize (Habs _ (find_some_In _ _ _ Hf)). simpl in Habs.
  apply mem_false_find. now destruct (StdMap.mem x (variableCurves pd)).
Qed.

Lemma mem_insert_ne {V} x i (c : V) m :
  x <> i -> StdMap.mem x (StdMap.insert i c m) = StdMap.mem x m.
Proof. intros H. unfold StdMap.mem. now rewrite find_insert_ne. Qed.

(** The new variable and the others, after [AddVariable] has put [i] in
    the plot [p]. *)
Lemma AddVariable_existing i name p pd st :
  StdMap.ok (plotData st) = true ->
  StdMap.find p (plotData st) = Some pd ->
  p <> EMPTY_PLOT ->
  var_absent i st = true ->
  (forall k v c, entry (plotData st) k v c -> c <> globalCurveId st) ->
  let st' := AddVariable i name p st in
  vars_of p st' = StdMap.insert i (globalCurveId st) (variableCurves pd)
  /\ (forall k, k <> p ->
        StdMap.find k (plotData st') = StdMap.find k (plotData st))
  /\ List.length (plotData st') = List.length (plotData st)
  /\ PlotByVariable i st' = p
  /\ PlotCurveOf i st' = Some (mkCurve name true 0)
  /\ (forall x, x <> i ->
        PlotByVariable x st' = PlotByVariable x st
        /\ PlotCurveOf x st' = PlotCurveOf x st).
Proof.
  intros Hok Hf Hp Habs Hc st'. unfold st'.
  rewrite (AddVariable_exec i name p pd st Hf Hp).
  unfold vars_of, PlotByVariable, PlotCurveOf. simpl.
  set (pd' := mkPlotData (id pd)
                (IncrementalPlotOps.AddCurve (globalCurveId st) name (plot pd))
                (StdMap.insert i (globalCurveId st) (variableCurves pd))).
  assert (Hfirst : first_owner i (StdMap.insert p pd' (plotData st))
                   = Some (p, pd')).
  { apply first_owner_sole.
    - now apply ok_insert.
    - apply find_insert_eq.
    - unfold pd'. simpl. unfold StdMap.mem. now rewrite find_insert_eq.
    - intros k x Hk Hm. destruct (N.eq_dec k p) as [->|Hne]; [reflexivity|].
      rewrite find_insert_ne in Hk by exact Hne.
      apply mem_true_find in Hm. destruct Hm as (c & Hm).
      rewrite (var_absent_find _ _ _ _ Habs Hk) in Hm. discriminate. }
  rewrite find_insert_eq. split; [reflexivity|].
  split; [intros k Hk; now apply find_insert_ne|].
  split; [now apply (length_insert_old p pd' pd)|].
  split; [now rewrite PlotByVariable_loop_first, Hfirst|].
  split.
  { rewrite PlotCurve_loop_first, Hfirst. unfold pd'. simpl.
    rewrite find_insert_eq. unfold IncrementalPlotOps.Curve. simpl.
    apply find_insert_eq. }
  intros x Hx.
  assert (Hins : first_owner x (StdMap.insert p pd' (plotData st))
                 = match first_owner x (plotData st) with
                   | Some (k, y) => if k =? p then Some (p, pd') else Some (k, y)
                   | None => None
                   end).
  { apply first_owner_insert with (pd := pd); [exact Hok|exact Hf|].
    unfold pd'. simpl. now apply mem_insert_ne. }
  rewrite !PlotByVariable_loop_first, !PlotCurve_loop_first, Hins.
  destruct (first_owner x (plotData st)) as [[k y]|] eqn:E;
    [|split; reflexivity].
  destruct (first_owner_In _ _ _ _ E) as [Hin Hm].
  apply In_find_some in Hin; [|exact Hok].
  destruct (N.eqb_spec k p) as [->|Hne]; [|split; reflexivity].
  rewrite Hf in Hin. injection Hin as <-.
  split; [reflexivity|]. unfold pd'. simpl.
  rewrite find_insert_ne by exact Hx.
  destruct (StdMap.find x (variableCurves pd)) as [c|] eqn:Ex; [|reflexivity].
  unfold IncrementalPlotOps.Curve. simpl.
  apply find_insert_ne. apply (Hc p x c). now exists pd.
Qed.

Lemma well_formed_curve_below st k v c :
  well_formed st -> entry (plotData st) k v c -> c <> globalCurveId st.
Proof.
  intros (_ & _ & H3 & _) He. destruct (H3 _ _ _ He) as [_ Hlt]. lia.
Qed.

Lemma well_formed_ok st : well_formed st -> StdMap.ok (plotData st) = true.
Proof. now intros (H & _). Qed.

(** X4: [AddVariable] with a variable id that no plot holds and the id
    of an existing plot adds to that plot's mapping exactly the entry
    from the variable to the next curve id, creates for it in that plot
    an active curve of age 0 labelled with the variable's name,
    registers the curve and hides the placeholder.  No plot appears or
    disappears, the other records are what they were, and every other
    variable is found in the plot, and with the curve, it had. *)
Theorem AddVariable_to_plot i name p pd st :
  well_formed st ->
  StdMap.find p (plotData st) = Some pd ->
  p <> EMPTY_PLOT ->
  var_absent i st = true ->
  let st' := AddVariable i name p st in
  vars_of p st' = StdMap.insert i (globalCurveId st) (variableCurves pd)
  /\ (forall k, k <> p ->
        StdMap.find k (plotData st') = StdMap.find k (plotData st))
  /\ List.length (plotData st') = List.length (plotData st)
  /\ PlotByVariable i st' = p
  /\ PlotCurveOf i st' = Some (mkCurve name true 0)
  /\ (forall x, x <> i ->
        PlotByVariable x st' = PlotByVariable x st
        /\ PlotCurveOf x st' = PlotCurveOf x st)
  /\ emptyPlotVisible st' = false
  /\ PlotManager.registered (globalCurveId st) (manager st') = true
  /\ globalCurveId st' = uint32_succ (globalCurveId st).
Proof.
  intros Hwf Hf Hp Habs st'.
  destruct (AddVariable_existing i name p pd st (well_formed_ok _ Hwf) Hf Hp
              Habs (fun k v c => well_formed_curve_below st k v c Hwf))
    as (H1 & H2 & H3 & H4 & H5 & H6).
  fold st' in H1, H2, H3, H4, H5, H6.
  repeat (split; [assumption|]).
  unfold st'. rewrite (AddVariable_exec i name p pd st Hf Hp). simpl.
  split; [reflexivity|]. split; [apply registered_AddCurve|reflexivity].
Qed.

Lemma AddVariable_to_plot_witness :
  (StdMap.find 1 (plotData canvas_two_plots)
   = Some (mkPlotData 1 (mkPlot 2 [(2, mkCurve "z" true 0)]) [(3, 2)])
   /\ var_absent 9 canvas_two_plots = true)
  /\ vars_of 1 (AddVariable 9 "w" 1 canvas_two_plots) = [(3, 2); (9, 3)]
  /\ PlotByVariable 9 (AddVariable 9 "w" 1 canvas_two_plots) = 1
  /\ PlotCurveOf 9 (AddVariable 9 "w" 1 canvas_two_plots)
     = Some (mkCurve "w" true 0)
  /\ PlotCurveOf 3 (AddVariable 9 "w" 1 canvas_two_plots)
     = PlotCurveOf 3 canvas_two_plots.
Proof.
  split; [split; reflexivity|].
  destruct (AddVariable_to_plot 9 "w"%string 1
              (mkPlotData 1 (mkPlot 2 [(2, mkCurve "z"%string true 0)])
                 [(3, 2)])
              canvas_two_plots
              (reachable_well_formed _ in_range_two_plots)
              eq_refl ltac:(discriminate) eq_refl)
    as (H1 & _ & _ & H4 & H5 & H6 & _).
  split; [exact H1|]. split; [exact H4|]. split; [exact H5|].
  exact (proj2 (H6 3 ltac:(discriminate))).
Defined.

(** X5: [AddVariable(name, plotId)] for [EMPTY_PLOT], for a plot id that
    no record has and for a plot without variables finds no anchor, so
    the new variable does not go to the plot that was named: the slot
    container hands out the next variable id and the variable gets a
    plot of its own under the next plot id, with one curve under the
    next curve id; the placeholder is hidden.  When the plot id counter
    has not wrapped around onto a live plot, every record of the canvas,
    the named plot included, is what it was.  ([AddVariable] with an
    explicit variable id drops the variable when no record has the plot
    id.) *)
Theorem AddVariable_name_opens_plot name p st :
  p = EMPTY_PLOT \/ vars_of p st = [] ->
  AddVariable_name name p st
  = (globalVariableId st,
     mkCanvas
       (StdMap.insert (globalPlotId st)
          (mkPlotData (globalPlotId st)
             (mkPlot (nextWidget st)
                     [(globalCurveId st, mkCurve name true 0)])
             [(globalVariableId st, globalCurveId st)])
          (plotData st))
       false
       (plotLayout st ++ [nextWidget st])
       (StdMap.insert (globalVariableId st) (mkPill name name)
                      (yVariableContainer st))
       (manager st ++ [(name, globalCurveId st)])
       (uint32_succ (globalPlotId st)) (uint32_succ (globalVariableId st))
       (uint32_succ (globalCurveId st)) (nextWidget st + 1))
  /\ (fresh_plot_id st ->
      forall k pd, StdMap.find k (plotData st) = Some pd ->
                   StdMap.find k (plotData (snd (AddVariable_name name p st)))
                   = Some pd)
  /\ (p <> EMPTY_PLOT -> StdMap.find p (plotData st) = None ->
      forall i, AddVariable i name p st = st).
Proof.
  intros Hp.
  assert (Ht : AddVariable_name name p st
               = AddVariablePill name EMPTY_VARIABLE st).
  { unfold AddVariable_name. destruct Hp as [->|Hp]; [reflexivity|].
    destruct (negb (p =? EMPTY_PLOT)); [|reflexivity].
    unfold vars_of in Hp.
    destruct (StdMap.find p (plotData st)) as [pd|]; [|reflexivity].
    now rewrite Hp. }
  assert (He : AddVariablePill name EMPTY_VARIABLE st
               = (globalVariableId st,
     mkCanvas
       (StdMap.insert (globalPlotId st)
          (mkPlotData (globalPlotId st)
             (mkPlot (nextWidget st)
                     [(globalCurveId st, mkCurve name true 0)])
             [(globalVariableId st, globalCurveId st)])
          (plotData st))
       false
       (plotLayout st ++ [nextWidget st])
       (StdMap.insert (globalVariableId st) (mkPill name name)
                      (yVariableContainer st))
       (manager st ++ [(name, globalCurveId st)])
       (uint32_succ (globalPlotId st)) (uint32_succ (globalVariableId st))
       (uint32_succ (globalCurveId st)) (nextWidget st + 1))).
  { unfold AddVariablePill, OnAddVariable.
    change (negb (EMPTY_VARIABLE =? EMPTY_VARIABLE)) with false.
    cbv iota. unfold AddVariable.
    change (EMPTY_PLOT =? EMPTY_PLOT) with true. cbv iota.
    unfold AddPlot. cbv beta iota zeta. simpl.
    rewrite find_insert_eq. simpl. unfold hide_emptyPlot. simpl.
    rewrite empty_insert. simpl. rewrite insert_insert. reflexivity. }
  rewrite Ht, He. split; [reflexivity|]. split.
  - intros Hfresh k pd Hk. simpl. rewrite find_insert_ne; [exact Hk|].
    intros ->. unfold fresh_plot_id in Hfresh. rewrite Hfresh in Hk.
    discriminate.
  - intros Hne Hnone i. unfold AddVariable.
    apply N.eqb_neq in Hne. rewrite Hne. now rewrite Hnone.
Qed.

Lemma AddVariable_name_opens_plot_witness :
  (5 = EMPTY_PLOT \/ vars_of 5 canvas_two_plots = [])
  /\ fst (AddVariable_name "w" 5 canvas_two_plots) = 4
  /\ vars_of 2 (snd (AddVariable_name "w" 5 canvas_two_plots)) = [(4, 3)]
  /\ StdMap.find 5 (plotData (snd (AddVariable_name "w" 5 canvas_two_plots)))
     = None.
Proof.
  assert (H : 5 = EMPTY_PLOT \/ vars_of 5 canvas_two_plots = [])
    by (right; reflexivity).
  split; [exact H|].
  destruct (AddVariable_name_opens_plot "w"%string 5 canvas_two_plots H)
    as (E & _).
  rewrite E. repeat split.
Defined.

(** What [AddVariable(name, plotId)] does for a plot that holds
    variables. *)
Lemma AddVariable_name_existing name p pd st :
  well_formed st ->
  globalVariableId st <= IGN_UINT32_MAX ->
  StdMap.find p (plotData st) = Some pd ->
  variableCurves pd <> [] ->
  p <> EMPTY_PLOT ->
  let r := AddVariable_name name p st in
  fst r = globalVariableId st
  /\ GetVariablePill (fst r) (snd r) = Some (mkPill name name)
  /\ (forall y, y <> fst r ->
        GetVariablePill y (snd r) = GetVariablePill y st)
  /\ vars_of p (snd r)
     = StdMap.insert (fst r) (globalCurveId st) (variableCurves pd)
  /\ (forall k, k <> p ->
        StdMap.find k (plotData (snd r)) = StdMap.find k (plotData st))
  /\ PlotByVariable (fst r) (snd r) = p
  /\ PlotCurveOf (fst r) (snd r) = Some (mkCurve name true 0)
  /\ (forall x, x <> fst r ->
        PlotByVariable x (snd r) = PlotByVariable x st
        /\ PlotCurveOf x (snd r) = PlotCurveOf x st)
  /\ List.length (plotData (snd r)) = List.length (plotData st)
  /\ globalPlotId (snd r) = globalPlotId st
  /\ globalVariableId (snd r) = uint32_succ (globalVariableId st)
  /\ globalCurveId (snd r) = uint32_succ (globalCurveId st).
Proof.
  intros Hwf Hgv Hf Hne Hp r.
  pose proof (well_formed_ok _ Hwf) as Hok.
  destruct (variableCurves pd) as [|[a ca] vs] eqn:Ev; [now elim Hne|].
  clear Hne.
  assert (Hea : entry (plotData st) p a ca).
  { exists pd. split; [exact Hf|]. rewrite Ev. simpl. now rewrite N.eqb_refl. }
  assert (Ha : a < globalVariableId st).
  { destruct Hwf as (_ & _ & H3 & _). exact (proj1 (H3 _ _ _ Hea)). }
  assert (Hid : id pd = p).
  { destruct Hwf as (_ & H2 & _). exact (proj1 (proj2 (proj2 (H2 _ _ Hf)))). }
  set (st1 := set_globalVariableId (uint32_succ (globalVariableId st))
                (set_yVariableContainer
                   (StdMap.insert (globalVariableId st) (mkPill name name)
                                  (yVariableContainer st)) st)).
  assert (Hr : r = (globalVariableId st,
                    AddVariable (globalVariableId st) name p st1)).
  { unfold r, AddVariable_name.
    apply N.eqb_neq in Hp. rewrite Hp. simpl negb. cbv iota.
    rewrite Hf, Ev. simpl StdMap.begin. cbv iota beta.
    unfold AddVariablePill. fold st1. f_equal.
    unfold OnAddVariable.
    assert (Hna : (a =? EMPTY_VARIABLE) = false).
    { apply N.eqb_neq. unfold EMPTY_VARIABLE. lia. }
    rewrite Hna. simpl negb. cbv iota.
    rewrite OnAddVariable_loop_first.
    change (plotData st1) with (plotData st).
    rewrite (first_owner_sole a p pd (plotData st) Hok Hf).
    - now rewrite Hid.
    - rewrite Ev. unfold StdMap.mem. simpl. now rewrite N.eqb_refl.
    - intros k x Hk Hm. apply mem_true_find in Hm. destruct Hm as (c & Hm).
      destruct Hwf as (_ & _ & _ & H4 & _).
      apply (H4 k p a c ca); [now exists x|exact Hea]. }
  assert (Habs : var_absent (globalVariableId st) st1 = true).
  { unfold var_absent. change (plotData st1) with (plotData st).
    apply forallb_forall. intros [k x] Hin. simpl.
    apply In_find_some in Hin; [|exact Hok].
    destruct (StdMap.mem (globalVariableId st) (variableCurves x)) eqn:Em;
      [|reflexivity].
    apply mem_true_find in Em. destruct Em as (c & Em).
    destruct Hwf as (_ & _ & H3 & _).
    assert (He : entry (plotData st) k (globalVariableId st) c)
      by now exists x.
    pose proof (proj1 (H3 _ _ _ He)). lia. }
  destruct (AddVariable_existing (globalVariableId st) name p pd st1 Hok Hf Hp
              Habs (fun k v c => well_formed_curve_below st k v c Hwf))
    as (H1 & H2 & H3 & H4 & H5 & H6).
  rewrite Hr. cbn [fst snd].
  split; [reflexivity|]. split.
  { rewrite (AddVariable_exec _ name p pd st1 Hf Hp).
    unfold GetVariablePill. simpl. apply find_insert_eq. }
  split.
  { intros y Hy. rewrite (AddVariable_exec _ name p pd st1 Hf Hp).
    unfold GetVariablePill. simpl. now apply find_insert_ne. }
  rewrite Ev in H1.
  split; [exact H1|]. split; [exact H2|]. split; [exact H4|].
  split; [exact H5|]. split; [exact H6|]. split; [exact H3|].
  rewrite (AddVariable_exec _ name p pd st1 Hf Hp). now repeat split.
Qed.

(** X6: [AddVariable(name, plotId)] for a plot that holds variables:
    the slot container hands out the next variable id, shows the name in
    the new slot, and the variable joins the named plot with a new
    active curve of age 0 under the next curve id.  No plot is created:
    the plot id counter and the number of records are what they were,
    and the other records are untouched. *)
Theorem AddVariable_name_joins_plot name p pd st :
  well_formed st ->
  globalVariableId st <= IGN_UINT32_MAX ->
  StdMap.find p (plotData st) = Some pd ->
  variableCurves pd <> [] ->
  p <> EMPTY_PLOT ->
  let r := AddVariable_name name p st in
  fst r = globalVariableId st
  /\ GetVariablePill (fst r) (snd r) = Some (mkPill name name)
  /\ (forall y, y <> fst r ->
        GetVariablePill y (snd r) = GetVariablePill y st)
  /\ vars_of p (snd r)
     = StdMap.insert (fst r) (globalCurveId st) (variableCurves pd)
  /\ (forall k, k <> p ->
        StdMap.find k (plotData (snd r)) = StdMap.find k (plotData st))
  /\ PlotByVariable (fst r) (snd r) = p
  /\ PlotCurveOf (fst r) (snd r) = Some (mkCurve name true 0)
  /\ (forall x, x <> fst r ->
        PlotByVariable x (snd r) = PlotByVariable x st
        /\ PlotCurveOf x (snd r) = PlotCurveOf x st)
  /\ List.length (plotData (snd r)) = List.length (plotData st)
  /\ globalPlotId (snd r) = globalPlotId st
  /\ globalVariableId (snd r) = uint32_succ (globalVariableId st)
  /\ globalCurveId (snd r) = uint32_succ (globalCurveId st).
Proof. exact (AddVariable_name_existing name p pd st). Qed.

Lemma AddVariable_name_joins_plot_witness :
  (globalVariableId canvas_two_plots <= IGN_UINT32_MAX
   /\ StdMap.find 1 (plotData canvas_two_plots)
      = Some (mkPlotData 1 (mkPlot 2 [(2, mkCurve "z" true 0)]) [(3, 2)]))
  /\ fst (AddVariable_name "w" 1 canvas_two_plots) = 4
  /\ vars_of 1 (snd (AddVariable_name "w" 1 canvas_two_plots))
     = [(3, 2); (4, 3)]
  /\ PlotByVariable 4 (snd (AddVariable_name "w" 1 canvas_two_plots)) = 1.
Proof.
  split; [split; [vm_compute; discriminate|reflexivity]|].
  destruct (AddVariable_name_joins_plot "w"%string 1
              (mkPlotData 1 (mkPlot 2 [(2, mkCurve "z"%string true 0)])
                 [(3, 2)])
              canvas_two_plots
              (reachable_well_formed _ in_range_two_plots)
              ltac:(vm_compute; discriminate)
              eq_refl ltac:(discriminate) ltac:(discriminate))
    as (H1 & _ & _ & H3 & _ & H5 & _).
  rewrite H1 in H3, H5.
  split; [exact H1|]. split; [exact H3|exact H5].
Defined.

(** ** [SetVariableLabel] and [OnSetVariableLabel] *)

(** What [SetVariableLabel] does to the slot and, through
    [OnSetVariableLabel], to the curve. *)
Lemma SetVariableLabel_spec x label st :
  well_formed st ->
  (GetVariablePill x st = None -> SetVariableLabel x label st = st)
  /\ (forall pill, GetVariablePill x st = Some pill ->
        let st' := SetVariableLabel x label st in
        GetVariablePill x st' = Some (mkPill (pillName pill) label)
        /\ (forall y, y <> x -> GetVariablePill y st' = GetVariablePill y st)
        /\ (forall k, vars_of k st' = vars_of k st)
        /\ PlotCurveOf x st'
           = option_map
               (fun cv => mkCurve label (curveActive cv) (curveAge cv))
               (PlotCurveOf x st)
        /\ (forall y, y <> x -> PlotCurveOf y st' = PlotCurveOf y st)
        /\ manager st' = manager st).
Proof.
  intros Hwf. split.
  { intros Hn. unfold SetVariableLabel. now rewrite Hn. }
  intros pill Hpill st'.
  pose proof (well_formed_ok _ Hwf) as Hok.
  set (st1 := set_yVariableContainer
                (StdMap.insert x (mkPill (pillName pill) label)
                               (yVariableContainer st)) st).
  assert (Hst' : st' = OnSetVariableLabel x label st1).
  { unfold st', SetVariableLabel. now rewrite Hpill. }
  split; [exact (SetVariableLabel_pill x label pill st Hpill)|].
  split.
  { intros y Hy. rewrite Hst'. unfold GetVariablePill, OnSetVariableLabel.
    rewrite OnSetVariableLabel_loop_pills. simpl.
    now apply find_insert_ne. }
  rewrite Hst'. unfold OnSetVariableLabel.
  rewrite OnSetVariableLabel_loop_first.
  change (plotData st1) with (plotData st).
  unfold PlotCurveOf at 2 4. rewrite PlotCurve_loop_first.
  destruct (first_owner x (plotData st)) as [[k pd]|] eqn:E.
  2:{ split; [reflexivity|]. split; [|split; reflexivity].
      unfold PlotCurveOf. change (plotData st1) with (plotData st).
      now rewrite PlotCurve_loop_first, E. }
  destruct (first_owner_In _ _ _ _ E) as [Hin Hm].
  apply In_find_some in Hin; [|exact Hok].
  apply mem_true_find in Hm. destruct Hm as (c & Hc). rewrite Hc.
  destruct (StdMap.find c (curves (plot pd))) as [cv|] eqn:Ecv.
  2:{ exfalso. exact (well_formed_holds _ _ _ _ _ Hwf Hin Hc Ecv). }
  set (pd' := set_plot (IncrementalPlotOps.SetCurveLabel c label (plot pd)) pd).
  assert (Hcurves : curves (plot pd')
                    = StdMap.insert c
                        (mkCurve label (curveActive cv) (curveAge cv))
                        (curves (plot pd))).
  { unfold pd', IncrementalPlotOps.SetCurveLabel. rewrite Ecv. reflexivity. }
  assert (Hfirst : forall y,
             first_owner y (StdMap.insert k pd' (plotData st))
             = match first_owner y (plotData st) with
               | Some (k2, z) =>
                   if k2 =? k then Some (k, pd') else Some (k2, z)
               | None => None
               end).
  { intros y. now apply first_owner_insert with (pd := pd). }
  split.
  { intros k0. unfold vars_of. simpl.
    destruct (N.eq_dec k0 k) as [->|Hne].
    - now rewrite find_insert_eq, Hin.
    - now rewrite find_insert_ne. }
  split.
  { unfold PlotCurveOf. simpl. rewrite PlotCurve_loop_first, Hfirst, E.
    rewrite N.eqb_refl. change (variableCurves pd') with (variableCurves pd).
    rewrite Hc. unfold IncrementalPlotOps.Curve. rewrite Hcurves, Ecv.
    simpl. apply find_insert_eq. }
  split; [|reflexivity].
  intros y Hy. unfold PlotCurveOf. simpl.
  rewrite !PlotCurve_loop_first, Hfirst.
  destruct (first_owner y (plotData st)) as [[k2 z]|] eqn:Ey; [|reflexivity].
  destruct (N.eqb_spec k2 k) as [->|Hne]; [|reflexivity].
  destruct (first_owner_In _ _ _ _ Ey) as [Hin2 _].
  apply In_find_some in Hin2; [|exact Hok].
  rewrite Hin in Hin2. injection Hin2 as <-.
  change (variableCurves pd') with (variableCurves pd).
  destruct (StdMap.find y (variableCurves pd)) as [c'|] eqn:Ec'; [|reflexivity].
  unfold IncrementalPlotOps.Curve. rewrite Hcurves.
  apply find_insert_ne. intros ->.
  destruct Hwf as (_ & _ & _ & _ & H5 & _).
  destruct (H5 k k y x c) as [_ Hyx]; [now exists pd|now exists pd|].
  now elim Hy.
Qed.

(** X7: [SetVariableLabel] of an id without slot changes nothing.  For a
    slot, it stores the label in the slot (the name stays) and gives the
    same label to the curve of the variable, whose [Active] flag and age
    stay; no other slot and no other variable's curve changes, and every
    plot maps the variables it did to the curve ids it did.  The curve
    registry is not told. *)
Theorem SetVariableLabel_relabels x label st :
  (GetVariablePill x st = None -> SetVariableLabel x label st = st)
  /\ (well_formed st ->
      forall pill, GetVariablePill x st = Some pill ->
        let st' := SetVariableLabel x label st in
        GetVariablePill x st' = Some (mkPill (pillName pill) label)
        /\ (forall y, y <> x -> GetVariablePill y st' = GetVariablePill y st)
        /\ (forall k, vars_of k st' = vars_of k st)
        /\ PlotCurveOf x st'
           = option_map
               (fun cv => mkCurve label (curveActive cv) (curveAge cv))
               (PlotCurveOf x st)
        /\ (forall y, y <> x -> PlotCurveOf y st' = PlotCurveOf y st)
        /\ manager st' = manager st).
Proof.
  split.
  - intros Hn. unfold SetVariableLabel. now rewrite Hn.
  - intros Hwf. exact (proj2 (SetVariableLabel_spec x label st Hwf)).
Qed.

Lemma SetVariableLabel_relabels_witness :
  GetVariablePill 3 canvas_two_plots = Some (mkPill "z" "z")
  /\ GetVariablePill 3 (SetVariableLabel 3 "height" canvas_two_plots)
     = Some (mkPill "z" "height")
  /\ PlotCurveOf 3 (SetVariableLabel 3 "height" canvas_two_plots)
     = option_map (fun cv => mkCurve "height" (curveActive cv) (curveAge cv))
                  (PlotCurveOf 3 canvas_two_plots)
  /\ PlotCurveOf 1 (SetVariableLabel 3 "height" canvas_two_plots)
     = PlotCurveOf 1 canvas_two_plots.
Proof.
  assert (P : GetVariablePill 3 canvas_two_plots
              = Some (mkPill "z"%string "z"%string)) by reflexivity.
  split; [exact P|].
  destruct (SetVariableLabel_relabels 3 "height"%string canvas_two_plots)
    as (_ & H).
  destruct (H (reachable_well_formed _ in_range_two_plots) _ P)
    as (H1 & _ & _ & H4 & H5 & _).
  split; [exact H1|]. split; [exact H4|].
  apply H5. discriminate.
Defined.

(** ** [RemovePlot] and [Clear]: slots and layout *)

Lemma RemoveVariable_plot_exec v p pd c st :
  StdMap.find p (plotData st) = Some pd ->
  StdMap.find v (variableCurves pd) = Some c ->
  let st' := RemoveVariable_plot v p st in
  plotData st'
  = (if StdMap.empty (StdMap.erase v (variableCurves pd))
     then StdMap.erase p (plotData st)
     else StdMap.insert p
            (mkPlotData (id pd)
               (IncrementalPlotOps.RemoveCurve c (plot pd))
               (StdMap.erase v (variableCurves pd)))
            (plotData st))
  /\ yVariableContainer st' = StdMap.erase v (yVariableContainer st)
  /\ plotLayout st'
     = (if StdMap.empty (StdMap.erase v (variableCurves pd))
        then layout_take (widget (plot pd)) (plotLayout st)
        else plotLayout st)
  /\ manager st'
     = PlotManager.RemoveCurve (curve_ref v (plot pd)) (manager st).
Proof.
  intros Hp Hv st'. unfold st', RemoveVariable_plot. rewrite Hp, Hv.
  destruct (StdMap.empty (StdMap.erase v (variableCurves pd)));
    unfold show_emptyPlot; simpl;
    match goal with
    | |- context [StdMap.empty ?m] => destruct (StdMap.empty m)
    end; simpl; repeat split; reflexivity.
Qed.

Lemma erase_keys_app {V} ks ks' (m : StdMap.t V) :
  erase_keys (ks ++ ks') m = erase_keys ks' (erase_keys ks m).
Proof. unfold erase_keys. apply fold_left_app. Qed.

Lemma RemovePlot_loop_rest p :
  forall n fuel st pd,
    (n <= fuel)%nat ->
    StdMap.find p (plotData st) = Some pd ->
    List.length (variableCurves pd) = S n ->
    exists pd',
      StdMap.find p (plotData (RemovePlot_loop fuel p st)) = Some pd'
      /\ variableCurves pd' = skipn n (variableCurves pd)
      /\ widget (plot pd') = widget (plot pd)
      /\ yVariableContainer (RemovePlot_loop fuel p st)
         = erase_keys (firstn n (StdMap.keys (variableCurves pd)))
                      (yVariableContainer st)
      /\ plotLayout (RemovePlot_loop fuel p st) = plotLayout st.
Proof.
  induction n as [|n IH]; intros fuel st pd Hfuel Hf Hlen.
  - exists pd. destruct fuel as [|fuel]; simpl RemovePlot_loop.
    + now repeat split.
    + rewrite Hf. unfold StdMap.size. rewrite Hlen. simpl.
      now repeat split.
  - destruct fuel as [|fuel]; [lia|]. simpl RemovePlot_loop. rewrite Hf.
    assert (Hsz : (1 <? StdMap.size (variableCurves pd)) = true).
    { apply N.ltb_lt. unfold StdMap.size. rewrite Hlen. lia. }
    rewrite Hsz.
    destruct (variableCurves pd) as [|[v c] vs] eqn:Ev; [discriminate|].
    simpl StdMap.begin. cbv iota beta.
    assert (Hv : StdMap.find v (variableCurves pd) = Some c).
    { rewrite Ev. simpl. now rewrite N.eqb_refl. }
    destruct (RemoveVariable_plot_exec v p pd c st Hf Hv)
      as (H1 & H2 & H3 & _).
    assert (Hers : StdMap.erase v (variableCurves pd) = vs).
    { rewrite Ev. simpl. now rewrite N.eqb_refl. }
    rewrite Hers in H1, H3.
    simpl in Hlen. injection Hlen as Hlen.
    destruct vs as [|e vs']; [discriminate|].
    simpl StdMap.empty in H1, H3. cbv iota in H1, H3.
    set (st1 := RemoveVariable_plot v p st) in *.
    set (pd1 := mkPlotData (id pd)
                  (IncrementalPlotOps.RemoveCurve c (plot pd)) (e :: vs')) in *.
    assert (Hf1 : StdMap.find p (plotData st1) = Some pd1).
    { rewrite H1. apply find_insert_eq. }
    destruct (IH fuel st1 pd1 ltac:(lia) Hf1 Hlen)
      as (pd' & Ha & Hb & Hc & Hd & He).
    exists pd'. split; [exact Ha|]. split; [exact Hb|].
    split; [exact Hc|]. split; [|now rewrite He, H3].
    rewrite Hd, H2. reflexivity.
Qed.

Lemma keys_skipn {V} n (m : StdMap.t V) :
  StdMap.keys (skipn n m) = skipn n (StdMap.keys m).
Proof. unfold StdMap.keys. symmetry. apply skipn_map. Qed.

(** What [RemovePlot] does to the records, the slots and the layout. *)
Lemma RemovePlot_exec p pd st :
  StdMap.ok (plotData st) = true ->
  StdMap.find p (plotData st) = Some pd ->
  plotData (RemovePlot p st) = StdMap.erase p (plotData st)
  /\ emptyPlotVisible (RemovePlot p st)
     = emptyPlotVisible st
       || (negb (StdMap.empty (variableCurves pd))
           && StdMap.empty (StdMap.erase p (plotData st)))
  /\ yVariableContainer (RemovePlot p st)
     = erase_keys (StdMap.keys (variableCurves pd)) (yVariableContainer st)
  /\ plotLayout (RemovePlot p st)
     = layout_take (widget (plot pd)) (plotLayout st).
Proof.
  intros Hok Hf.
  destruct (find_split p pd _ Hok Hf) as (l1 & l2 & Hm & Hb).
  destruct (RemovePlot_plotData st p pd l1 l2 Hm Hb) as (Hd & Hv).
  assert (He : StdMap.erase p (plotData st) = (l1 ++ l2)%list).
  { rewrite Hm. now apply split_erase. }
  rewrite He. split; [exact Hd|]. split.
  { rewrite Hv. destruct (variableCurves pd), (l1 ++ l2)%list; simpl;
      now rewrite ?orb_false_r, ?orb_true_r. }
  unfold RemovePlot. rewrite Hf.
  destruct (variableCurves pd) as [|e vs] eqn:Ev.
  { simpl. split; reflexivity. }
  simpl StdMap.empty. cbv iota.
  destruct (RemovePlot_loop_rest p (List.length vs)
              (List.length (e :: vs)) st pd)
    as (pd' & Ha & Hb' & Hc & Hd' & He'); [simpl; lia|exact Hf|now rewrite Ev|].
  set (st2 := RemovePlot_loop (List.length (e :: vs)) p st) in *.
  rewrite Ev in Hd'. rewrite Ha.
  assert (Hlast : exists v c, skipn (List.length vs) (e :: vs) = [(v, c)]).
  { assert (Hl : List.length (skipn (List.length vs) (e :: vs)) = 1%nat)
      by (rewrite length_skipn; cbn [List.length]; lia).
    destruct (skipn (List.length vs) (e :: vs)) as [|[v c] [|? ?]];
      try discriminate. now exists v, c. }
  destruct Hlast as (v & c & Hs).
  rewrite Ev, Hs in Hb'. rewrite Hb'. simpl StdMap.begin. cbv iota beta.
  assert (Hfv : StdMap.find v (variableCurves pd') = Some c).
  { rewrite Hb'. simpl. now rewrite N.eqb_refl. }
  destruct (RemoveVariable_plot_exec v p pd' c st2 Ha Hfv)
    as (_ & H2 & H3 & _).
  assert (Hers : StdMap.erase v (variableCurves pd') = []).
  { rewrite Hb'. simpl. now rewrite N.eqb_refl. }
  rewrite Hers in H3. simpl StdMap.empty in H3. cbv iota in H3.
  rewrite H2, H3, Hd', He', Hc. split; [|reflexivity].
  rewrite <- (firstn_skipn (List.length vs) (StdMap.keys (e :: vs))) at 2.
  rewrite erase_keys_app, <- keys_skipn, Hs. reflexivity.
Qed.

Lemma find_erase_keys {V} x ks (m : StdMap.t V) :
  StdMap.ok m = true ->
  StdMap.find x (erase_keys ks m)
  = if existsb (N.eqb x) ks then None else StdMap.find x m.
Proof.
  revert m. induction ks as [|k ks IH]; intros m Hok; [reflexivity|].
  change (erase_keys (k :: ks) m) with (erase_keys ks (StdMap.erase k m)).
  rewrite IH by now apply ok_erase. simpl.
  destruct (N.eqb_spec x k) as [->|Hne]; simpl.
  - rewrite find_erase_eq by exact Hok. now destruct (existsb _ ks).
  - now rewrite find_erase_ne.
Qed.

Lemma existsb_keys {V} x (m : StdMap.t V) :
  existsb (N.eqb x) (StdMap.keys m) = StdMap.mem x m.
Proof.
  unfold StdMap.mem. induction m as [|[k v] m IH]; simpl; [reflexivity|].
  destruct (x =? k); [reflexivity|exact IH].
Qed.

(** X8: [RemovePlot] of an existing plot erases its record and no
    other, takes the plot's widget out of the layout and removes the
    slot of every variable the plot held, whatever their number.  The
    placeholder is shown only when the plot held a variable and was the
    last plot: removing a last plot that is empty leaves the placeholder
    as it is. *)
Theorem RemovePlot_removes_plot p pd st :
  StdMap.ok (plotData st) = true ->
  StdMap.ok (yVariableContainer st) = true ->
  StdMap.find p (plotData st) = Some pd ->
  let st' := RemovePlot p st in
  StdMap.find p (plotData st') = None
  /\ (forall k, k <> p ->
        StdMap.find k (plotData st') = StdMap.find k (plotData st))
  /\ S (List.length (plotData st')) = List.length (plotData st)
  /\ (forall x, GetVariablePill x st'
                = if StdMap.mem x (variableCurves pd) then None
                  else GetVariablePill x st)
  /\ plotLayout st' = layout_take (widget (plot pd)) (plotLayout st)
  /\ emptyPlotVisible st'
     = emptyPlotVisible st
       || (negb (StdMap.empty (variableCurves pd))
           && StdMap.empty (plotData st')).
Proof.
  intros Hok Hokc Hf st'.
  destruct (RemovePlot_exec p pd st Hok Hf) as (H1 & H2 & H3 & H4).
  fold st' in H1, H2, H3, H4. rewrite H1.
  split; [now apply find_erase_eq|].
  split; [intros k Hk; now apply find_erase_ne|].
  split; [exact (length_erase p pd _ Hf)|].
  split; [|split; [exact H4|exact H2]].
  intros x. unfold GetVariablePill. rewrite H3.
  rewrite find_erase_keys by exact Hokc. now rewrite existsb_keys.
Qed.

Lemma RemovePlot_removes_plot_witness :
  (StdMap.ok (plotData canvas_two_plots) = true
   /\ StdMap.ok (yVariableContainer canvas_two_plots) = true
   /\ StdMap.find 0 (plotData canvas_two_plots)
      = Some (mkPlotData 0
                (mkPlot 1 [(0, mkCurve "x" true 0); (1, mkCurve "y" true 0)])
                [(1, 0); (2, 1)]))
  /\ StdMap.find 0 (plotData (RemovePlot 0 canvas_two_plots)) = None
  /\ GetVariablePill 1 (RemovePlot 0 canvas_two_plots) = None
  /\ GetVariablePill 2 (RemovePlot 0 canvas_two_plots) = None
  /\ GetVariablePill 3 (RemovePlot 0 canvas_two_plots)
     = GetVariablePill 3 canvas_two_plots
  /\ plotLayout (RemovePlot 0 canvas_two_plots)
     = layout_take 1 (plotLayout canvas_two_plots).
Proof.
  split; [repeat split|].
  destruct (RemovePlot_removes_plot 0
              (mkPlotData 0
                 (mkPlot 1 [(0, mkCurve "x"%string true 0);
                            (1, mkCurve "y"%string true 0)])
                 [(1, 0); (2, 1)])
              canvas_two_plots eq_refl eq_refl eq_refl)
    as (H1 & _ & _ & H4 & H5 & _).
  split; [exact H1|]. split; [exact (H4 1)|]. split; [exact (H4 2)|].
  split; [exact (H4 3)|exact H5].
Defined.

Lemma Clear_loop_rest :
  forall m st,
    plotData st = m -> StdMap.ok m = true ->
    yVariableContainer (Clear_loop (List.length m) st)
    = erase_keys (all_variables m) (yVariableContainer st)
    /\ plotLayout (Clear_loop (List.length m) st)
       = fold_left (fun l e => layout_take (widget (plot (snd e))) l) m
                   (plotLayout st).
Proof.
  induction m as [|[p pd] m IH]; intros st Hm Hok; [now split|].
  simpl Clear_loop. rewrite Hm. simpl StdMap.begin. cbv iota beta.
  assert (Hf : StdMap.find p (plotData st) = Some pd).
  { rewrite Hm. simpl. now rewrite N.eqb_refl. }
  assert (Hok' : StdMap.ok (plotData st) = true) by now rewrite Hm.
  destruct (RemovePlot_exec p pd st Hok' Hf) as (H1 & _ & H3 & H4).
  assert (Hm1 : plotData (RemovePlot p st) = m).
  { rewrite H1, Hm. simpl. now rewrite N.eqb_refl. }
  destruct (IH (RemovePlot p st) Hm1 (ok_tail _ _ _ Hok)) as (Ha & Hb).
  rewrite Ha, Hb, H3, H4. split; [|reflexivity].
  unfold all_variables. simpl. now rewrite erase_keys_app.
Qed.

Lemma existsb_all_variables x st :
  existsb (N.eqb x) (all_variables (plotData st)) = negb (var_absent x st).
Proof.
  unfold var_absent, all_variables.
  induction (plotData st) as [|[k pd] m IH]; simpl; [reflexivity|].
  rewrite existsb_app, existsb_keys, IH.
  now destruct (StdMap.mem x (variableCurves pd)).
Qed.

(** X9: [Clear] removes the slot of every variable that a plot held, and
    no other slot, and takes the widget of every plot out of the layout,
    in ascending order of plot id.  Afterwards no variable is found in
    any plot, and a second [Clear] changes nothing. *)
Theorem Clear_removes_slots st :
  StdMap.ok (plotData st) = true ->
  StdMap.ok (yVariableContainer st) = true ->
  (forall x, GetVariablePill x (Clear st)
             = if var_absent x st then GetVariablePill x st else None)
  /\ plotLayout (Clear st)
     = fold_left (fun l e => layout_take (widget (plot (snd e))) l)
                 (plotData st) (plotLayout st)
  /\ (forall x, PlotByVariable x (Clear st) = EMPTY_PLOT
                /\ PlotCurveOf x (Clear st) = None)
  /\ (forall p, VariableCount p (Clear st) = 0)
  /\ Clear (Clear st) = Clear st.
Proof.
  intros Hok Hokc.
  destruct (Clear_loop_rest (plotData st) st eq_refl Hok) as (Ha & Hb).
  destruct (Clear_loop_spec (List.length (plotData st)) st eq_refl)
    as (Hd & _).
  fold (Clear st) in Ha, Hb, Hd.
  split; [|split; [exact Hb|]].
  - intros x. unfold GetVariablePill. rewrite Ha.
    rewrite find_erase_keys by exact Hokc.
    rewrite existsb_all_variables. now destruct (var_absent x st).
  - split; [|split].
    + intros x. unfold PlotByVariable, PlotCurveOf. rewrite Hd. now split.
    + intros p. unfold VariableCount. now rewrite Hd.
    + unfold Clear at 1. now rewrite Hd.
Qed.

Lemma Clear_removes_slots_witness :
  (StdMap.ok (plotData canvas_two_plots) = true
   /\ StdMap.ok (yVariableContainer canvas_two_plots) = true)
  /\ GetVariablePill 2 (Clear canvas_two_plots) = None
  /\ plotLayout (Clear canvas_two_plots) = [0]
  /\ PlotByVariable 2 (Clear canvas_two_plots) = EMPTY_PLOT.
Proof.
  split; [split; reflexivity|].
  destruct (Clear_removes_slots canvas_two_plots eq_refl eq_refl)
    as (H1 & H2 & H3 & _).
  split; [exact (H1 2)|]. split; [exact H2|]. exact (proj1 (H3 2)).
Defined.

(** ** Adding a variable and removing it again *)

Lemma PlotCount_eq st st' :
  List.length (plotData st') = List.length (plotData st) ->
  emptyPlotVisible st' = emptyPlotVisible st ->
  PlotCount st' = PlotCount st.
Proof.
  intros Hl Hv. unfold PlotCount, StdMap.size. now rewrite Hl, Hv.
Qed.

Lemma well_formed_record k pd st :
  well_formed st -> StdMap.find k (plotData st) = Some pd ->
  StdMap.ok (variableCurves pd) = true
  /\ StdMap.ok (curves (plot pd)) = true /\ id pd = k.
Proof.
  intros (_ & H2 & _) Hf. destruct (H2 _ _ Hf) as (Ha & Hb & Hc & _).
  now repeat split.
Qed.

Lemma sole_owner_after_add i p pd' st :
  var_absent i st = true ->
  sole_owner i p (set_plotData (StdMap.insert p pd' (plotData st)) st).
Proof.
  intros Habs k Hk. destruct (N.eq_dec k p) as [->|Hne]; [reflexivity|].
  destruct (owns_find _ _ _ Hk) as (x & Hf & Hm). simpl in Hf.
  rewrite find_insert_ne in Hf by exact Hne.
  apply mem_true_find in Hm. destruct Hm as (c & Hm).
  rewrite (var_absent_find _ _ _ _ Habs Hf) in Hm. discriminate.
Qed.

Lemma sole_owner_plotData v p st st' :
  plotData st' = plotData st -> sole_owner v p st -> sole_owner v p st'.
Proof. intros E H k Hk. apply H. unfold owns in *. now rewrite <- E. Qed.

(** X10: [AddVariable] with the id of a variable that no plot holds,
    followed by [RemoveVariable] of that id, gives back the plots and
    their variables: every plot id maps the variables it did to the
    curve ids it did, so every [VariableCount] and the number of records
    are what they were; when the placeholder was shown exactly for an
    empty canvas, it is as before and so is [PlotCount].  This holds for
    [EMPTY_PLOT], for a plot id that no record has and for a plot that
    holds a variable. *)
Theorem AddVariable_then_RemoveVariable i name p st :
  well_formed st ->
  var_absent i st = true ->
  p = EMPTY_PLOT \/ StdMap.find p (plotData st) = None \/ vars_of p st <> [] ->
  let st'' := RemoveVariable i (AddVariable i name p st) in
  (forall k, vars_of k st'' = vars_of k st)
  /\ (forall k, VariableCount k st'' = VariableCount k st)
  /\ List.length (plotData st'') = List.length (plotData st)
  /\ (emptyPlotVisible st = StdMap.empty (plotData st) ->
      emptyPlotVisible st'' = emptyPlotVisible st
      /\ PlotCount st'' = PlotCount st).
Proof.
  intros Hwf Habs Hp st''.
  pose proof (well_formed_ok _ Hwf) as Hok.
  assert (Hmain :
    (forall k, vars_of k st'' = vars_of k st)
    /\ (forall k, StdMap.find k (plotData st'') = None
                  <-> StdMap.find k (plotData st) = None)
    /\ List.length (plotData st'') = List.length (plotData st)
    /\ (emptyPlotVisible st = StdMap.empty (plotData st) ->
        emptyPlotVisible st'' = emptyPlotVisible st)).
  { destruct (N.eq_dec p EMPTY_PLOT) as [->|Hne].
    - (* a plot of its own, opened and closed again *)
      set (g := globalPlotId st). set (c := globalCurveId st).
      set (pd' := mkPlotData g
                    (IncrementalPlotOps.AddCurve c name
                                                 (mkPlot (nextWidget st) []))
                    [(i, c)]).
      assert (Hfresh : StdMap.find g (plotData st) = None)
        by exact (well_formed_fresh _ Hwf).
      assert (Hadd : exists st1,
                 AddVariable i name EMPTY_PLOT st = st1
                 /\ plotData st1 = StdMap.insert g pd' (plotData st)
                 /\ emptyPlotVisible st1 = false).
      { eexists. split; [reflexivity|].
        unfold AddVariable.
        change (EMPTY_PLOT =? EMPTY_PLOT) with true. cbv iota.
        unfold AddPlot. cbv beta iota zeta. simpl.
        rewrite find_insert_eq. simpl. unfold hide_emptyPlot. simpl.
        rewrite empty_insert. simpl. rewrite insert_insert.
        split; reflexivity. }
      destruct Hadd as (st1 & Hst1 & Hd1 & Hv1).
      unfold st''. rewrite Hst1.
      assert (Hf1 : StdMap.find g (plotData st1) = Some pd')
        by (rewrite Hd1; apply find_insert_eq).
      assert (Hi : StdMap.find i (variableCurves pd') = Some c)
        by (simpl; now rewrite N.eqb_refl).
      assert (Hok1 : StdMap.ok (plotData st1) = true)
        by (rewrite Hd1; now apply ok_insert).
      assert (Hsole : sole_owner i g st1).
      { apply (sole_owner_plotData i g
                 (set_plotData (StdMap.insert g pd' (plotData st)) st));
          [exact Hd1|now apply sole_owner_after_add]. }
      rewrite (RemoveVariable_owner i g pd' c st1 Hok1 Hf1 Hi Hsole).
      assert (Hfound :
        plotData (RemoveVariable_found i g pd' c st1) = plotData st
        /\ emptyPlotVisible (RemoveVariable_found i g pd' c st1) = false).
      { unfold RemoveVariable_found. simpl. rewrite N.eqb_refl. simpl.
        rewrite Hd1, Hv1. split; [|reflexivity].
        rewrite erase_insert_eq by exact Hok. now apply erase_absent. }
      destruct Hfound as (Hd2 & Hv2).
      assert (Hd3 : plotData (show_emptyPlot (RemoveVariable_found i g pd' c st1))
                    = plotData st).
      { unfold show_emptyPlot.
        now destruct (StdMap.empty (plotData (RemoveVariable_found i g pd' c st1))). }
      unfold vars_of. rewrite Hd3.
      split; [reflexivity|]. split; [reflexivity|]. split; [reflexivity|].
      intros Hvis. unfold show_emptyPlot. rewrite Hd2, Hvis.
      destruct (StdMap.empty (plotData st)); [reflexivity|exact Hv2].
    - destruct (StdMap.find p (plotData st)) as [pd|] eqn:Hf.
      + (* the variable joins the plot and leaves it *)
        destruct Hp as [Hp|[Hp|Hp]]; [now elim Hne|discriminate|].
        rewrite (vars_of_find _ _ _ Hf) in Hp.
        destruct (well_formed_record _ _ _ Hwf Hf) as (Hokv & _ & _).
        set (c := globalCurveId st).
        set (pd' := mkPlotData (id pd)
                      (IncrementalPlotOps.AddCurve c name (plot pd))
                      (StdMap.insert i c (variableCurves pd))).
        pose proof (AddVariable_exec i name p pd st Hf Hne) as Hexec.
        fold c in Hexec. fold pd' in Hexec.
        set (st1 := AddVariable i name p st) in *.
        assert (Hd1 : plotData st1 = StdMap.insert p pd' (plotData st))
          by now rewrite Hexec.
        assert (Hv1 : emptyPlotVisible st1 = false) by now rewrite Hexec.
        assert (Hf1 : StdMap.find p (plotData st1) = Some pd')
          by (rewrite Hd1; apply find_insert_eq).
        assert (Hi : StdMap.find i (variableCurves pd') = Some c)
          by apply find_insert_eq.
        assert (Hok1 : StdMap.ok (plotData st1) = true)
          by (rewrite Hd1; now apply ok_insert).
        assert (Hsole : sole_owner i p st1).
        { apply (sole_owner_plotData i p
                   (set_plotData (StdMap.insert p pd' (plotData st)) st));
            [exact Hd1|now apply sole_owner_after_add]. }
        unfold st''.
        rewrite (RemoveVariable_owner i p pd' c st1 Hok1 Hf1 Hi Hsole).
        assert (Hers : StdMap.erase i (variableCurves pd') = variableCurves pd).
        { unfold pd'. simpl. rewrite erase_insert_eq by exact Hokv.
          apply erase_absent. exact (var_absent_find _ _ _ _ Habs Hf). }
        assert (Hne' : StdMap.empty (variableCurves pd) = false)
          by (destruct (variableCurves pd); [now elim Hp|reflexivity]).
        assert (Hfound :
          plotData (RemoveVariable_found i p pd' c st1)
          = StdMap.insert p
              (mkPlotData (id pd)
                 (IncrementalPlotOps.RemoveCurve c (plot pd'))
                 (variableCurves pd)) (plotData st)
          /\ emptyPlotVisible (RemoveVariable_found i p pd' c st1) = false).
        { unfold RemoveVariable_found. rewrite Hers, Hne'. simpl.
          rewrite Hd1, Hv1, insert_insert. split; reflexivity. }
        destruct Hfound as (Hd2 & Hv2).
        assert (Hshow : show_emptyPlot (RemoveVariable_found i p pd' c st1)
                        = RemoveVariable_found i p pd' c st1).
        { apply show_emptyPlot_id. left. rewrite Hd2. apply insert_not_nil. }
        rewrite Hshow. unfold vars_of. rewrite Hd2.
        split; [|split; [|split]].
        * intros k. destruct (N.eq_dec k p) as [->|Hk].
          -- now rewrite find_insert_eq, Hf.
          -- now rewrite find_insert_ne.
        * intros k. destruct (N.eq_dec k p) as [->|Hk].
          -- rewrite find_insert_eq, Hf. split; discriminate.
          -- now rewrite find_insert_ne.
        * now apply length_insert_old with (x := pd).
        * intros Hvis. rewrite Hv2, Hvis. symmetry.
          exact (find_not_empty _ _ _ Hf).
      + (* no such plot: nothing is added, nothing is removed *)
        assert (Hadd : AddVariable i name p st = st).
        { unfold AddVariable. apply N.eqb_neq in Hne. rewrite Hne.
          now rewrite Hf. }
        unfold st''. rewrite Hadd.
        rewrite (RemoveVariable_absent_show i st Habs).
        assert (Hd : plotData (show_emptyPlot st) = plotData st)
          by (unfold show_emptyPlot; now destruct (StdMap.empty (plotData st))).
        unfold vars_of. rewrite Hd.
        split; [reflexivity|]. split; [reflexivity|]. split; [reflexivity|].
        intros Hvis. unfold show_emptyPlot.
        destruct (StdMap.empty (plotData st)) eqn:E; [|reflexivity].
        simpl. now rewrite Hvis. }
  destruct Hmain as (H1 & H2 & H3 & H4).
  split; [exact H1|]. split; [|split; [exact H3|]].
  - intros k. unfold VariableCount. specialize (H1 k). unfold vars_of in H1.
    specialize (H2 k).
    destruct (StdMap.find k (plotData st'')) as [a|],
             (StdMap.find k (plotData st)) as [b|].
    + now rewrite H1.
    + destruct H2 as [_ H2]. now specialize (H2 eq_refl).
    + destruct H2 as [H2 _]. now specialize (H2 eq_refl).
    + reflexivity.
  - intros Hvis. split; [exact (H4 Hvis)|].
    apply PlotCount_eq; [exact H3|exact (H4 Hvis)].
Qed.

Lemma AddVariable_then_RemoveVariable_witness :
  (var_absent 9 canvas_two_plots = true
   /\ (1 = EMPTY_PLOT \/ StdMap.find 1 (plotData canvas_two_plots) = None
       \/ vars_of 1 canvas_two_plots <> []))
  /\ (forall k,
        vars_of k (RemoveVariable 9 (AddVariable 9 "w" 1 canvas_two_plots))
        = vars_of k canvas_two_plots)
  /\ List.length
       (plotData (RemoveVariable 9 (AddVariable 9 "w" 1 canvas_two_plots)))
     = List.length (plotData canvas_two_plots).
Proof.
  assert (H : 1 = EMPTY_PLOT \/ StdMap.find 1 (plotData canvas_two_plots) = None
              \/ vars_of 1 canvas_two_plots <> [])
    by (right; right; discriminate).
  split; [split; [reflexivity|exact H]|].
  destruct (AddVariable_then_RemoveVariable 9 "w"%string 1 canvas_two_plots
              (reachable_well_formed _ in_range_two_plots) eq_refl H)
    as (H1 & _ & H3 & _).
  split; [exact H1|exact H3].
Defined.

(** X11: the one case in which adding a variable and removing it again
    does not give back the plots: [AddVariable] into an existing plot
    without variables followed by [RemoveVariable] of that variable
    destroys the plot, which was there before the variable came. *)
Theorem AddVariable_RemoveVariable_of_empty_plot i name p pd st :
  StdMap.ok (plotData st) = true ->
  var_absent i st = true ->
  StdMap.find p (plotData st) = Some pd ->
  variableCurves pd = [] ->
  p <> EMPTY_PLOT ->
  let st'' := RemoveVariable i (AddVariable i name p st) in
  plotData st'' = StdMap.erase p (plotData st)
  /\ StdMap.find p (plotData st'') = None
  /\ S (List.length (plotData st'')) = List.length (plotData st)
  /\ plotLayout st'' = layout_take (widget (plot pd)) (plotLayout st).
Proof.
  intros Hok Habs Hf Hv Hne st''.
  set (c := globalCurveId st).
  set (pd' := mkPlotData (id pd)
                (IncrementalPlotOps.AddCurve c name (plot pd))
                (StdMap.insert i c (variableCurves pd))).
  pose proof (AddVariable_exec i name p pd st Hf Hne) as Hexec.
  fold c in Hexec. fold pd' in Hexec.
  set (st1 := AddVariable i name p st) in *.
  assert (Hd1 : plotData st1 = StdMap.insert p pd' (plotData st))
    by now rewrite Hexec.
  assert (Hl1 : plotLayout st1 = plotLayout st) by now rewrite Hexec.
  assert (Hf1 : StdMap.find p (plotData st1) = Some pd')
    by (rewrite Hd1; apply find_insert_eq).
  assert (Hi : StdMap.find i (variableCurves pd') = Some c)
    by apply find_insert_eq.
  assert (Hok1 : StdMap.ok (plotData st1) = true)
    by (rewrite Hd1; now apply ok_insert).
  assert (Hsole : sole_owner i p st1).
  { apply (sole_owner_plotData i p
             (set_plotData (StdMap.insert p pd' (plotData st)) st));
      [exact Hd1|now apply sole_owner_after_add]. }
  unfold st''.
  rewrite (RemoveVariable_owner i p pd' c st1 Hok1 Hf1 Hi Hsole).
  assert (Hers : StdMap.erase i (variableCurves pd') = []).
  { unfold pd'. simpl. rewrite Hv. simpl. now rewrite N.eqb_refl. }
  assert (Hfound :
    plotData (RemoveVariable_found i p pd' c st1)
    = StdMap.erase p (plotData st)
    /\ plotLayout (RemoveVariable_found i p pd' c st1)
       = layout_take (widget (plot pd)) (plotLayout st)).
  { unfold RemoveVariable_found. rewrite Hers. simpl.
    rewrite Hd1, Hl1. split; [|reflexivity].
    now apply erase_insert_eq. }
  destruct Hfound as (Hd2 & Hl2).
  assert (Hshow :
    plotData (show_emptyPlot (RemoveVariable_found i p pd' c st1))
    = StdMap.erase p (plotData st)
    /\ plotLayout (show_emptyPlot (RemoveVariable_found i p pd' c st1))
       = layout_take (widget (plot pd)) (plotLayout st)).
  { unfold show_emptyPlot.
    now destruct (StdMap.empty
                    (plotData (RemoveVariable_found i p pd' c st1))). }
  destruct Hshow as (Hd3 & Hl3). rewrite Hd3, Hl3.
  split; [reflexivity|]. split; [now apply find_erase_eq|].
  split; [exact (length_erase p pd _ Hf)|reflexivity].
Qed.

Lemma AddVariable_RemoveVariable_of_empty_plot_witness :
  (StdMap.ok (plotData (snd (AddPlot canvas_one_var))) = true
   /\ var_absent 9 (snd (AddPlot canvas_one_var)) = true
   /\ StdMap.find 1 (plotData (snd (AddPlot canvas_one_var)))
      = Some (mkPlotData 1 (mkPlot 2 []) []))
  /\ StdMap.find 1
       (plotData
          (RemoveVariable 9
             (AddVariable 9 "w" 1 (snd (AddPlot canvas_one_var)))))
     = None.
Proof.
  split; [repeat split|].
  exact (proj1 (proj2
    (AddVariable_RemoveVariable_of_empty_plot 9 "w"%string 1
       (mkPlotData 1 (mkPlot 2 []) []) (snd (AddPlot canvas_one_var))
       eq_refl eq_refl eq_refl eq_refl ltac:(discriminate)))).
Defined.

(** ** [RemoveVariable] on a plot that keeps other variables *)




(** ** The age suffix of a label *)

Lemma atoi_digits_uint_acc d acc :
  atoi_digits (Z.pos acc) (NilEmpty.string_of_uint d)
  = Z.pos (Pos.of_uint_acc d acc).
Proof.
  revert acc. induction d; intros acc;
    cbn [NilEmpty.string_of_uint atoi_digits Pos.of_uint_acc];
    try reflexivity;
    match goal with
    | |- context [digit_of ?a] =>
        let x := eval vm_compute in (digit_of a) in
        change (digit_of a) with x
    end; cbv iota beta; rewrite <- IHd; f_equal; lia.
Qed.

Lemma atoi_digits_uint d :
  atoi_digits 0 (NilEmpty.string_of_uint d) = Z.of_N (Pos.of_uint d).
Proof.
  induction d;
    cbn [NilEmpty.string_of_uint atoi_digits Pos.of_uint];
    try reflexivity;
    match goal with
    | |- context [digit_of ?a] =>
        let x := eval vm_compute in (digit_of a) in
        change (digit_of a) with x
    end; cbv iota beta;
    [exact IHd|apply atoi_digits_uint_acc ..].
Qed.

Lemma strtol_uint d :
  strtol (NilEmpty.string_of_uint d)
  = Z.max LONG_MIN
      (Z.min LONG_MAX (atoi_digits 0 (NilEmpty.string_of_uint d))).
Proof. destruct d; reflexivity. Qed.

Lemma int_of_long_small z :
  (-2147483648 <= z < 2147483648)%Z -> int_of_long z = z.
Proof.
  intros H. unfold int_of_long. rewrite Z.mod_small by lia. lia.
Qed.

(** The numeral of a number that fits an [int] parses to that number. *)
Lemma atoi_to_string n : n < 2147483648 -> atoi (to_string n) = Z.of_N n.
Proof.
  intros Hn. unfold atoi, to_string.
  assert (H : strtol (NilZero.string_of_uint (N.to_uint n)) = Z.of_N n).
  { rewrite <- (DecimalN.Unsigned.of_to n) at 2. unfold N.of_uint.
    assert (Hd : atoi_digits 0 (NilEmpty.string_of_uint (N.to_uint n))
                 = Z.of_N n).
    { rewrite atoi_digits_uint.
      now rewrite <- (DecimalN.Unsigned.of_to n) at 2. }
    destruct (N.to_uint n) eqn:E; try reflexivity;
      unfold NilZero.string_of_uint; rewrite strtol_uint, atoi_digits_uint;
      rewrite atoi_digits_uint in Hd; unfold LONG_MIN, LONG_MAX; lia. }
  rewrite H. apply int_of_long_small. lia.
Qed.

(** Beyond the range of [int]: the numeral of 2147483648 parses to a
    negative number and a numeral beyond [LONG_MAX] to -1, so that
    [Restart] leaves such labels as they are. *)
Lemma aged_label_beyond_int :
  atoi "2147483648" = (-2147483648)%Z
  /\ atoi "99999999999999999999" = (-1)%Z
  /\ aged_label "v_2147483648" 2 = None
  /\ aged_label "v_99999999999999999999" 2 = None.
Proof. repeat split; vm_compute; reflexivity. Qed.

Lemma has_underscore_uint d :
  has_underscore (NilEmpty.string_of_uint d) = false.
Proof. induction d; simpl; try reflexivity; exact IHd. Qed.

Lemma has_underscore_to_string n : has_underscore (to_string n) = false.
Proof.
  unfold to_string, NilZero.string_of_uint.
  destruct (N.to_uint n); try reflexivity; apply has_underscore_uint.
Qed.

(** X13: the label that [Restart] gives to a slot whose text ends in an
    underscore and a decimal age (an age that fits an [int], as
    [std::atoi] needs): when the curve reaches age 1 the suffix [_1] is
    appended to the whole text; at any other age the number is replaced
    by the age of the curve if it is positive, and a text that ends in
    [_0] gets no new label. *)
Theorem aged_label_ladder v n age :
  n < 2147483648 ->
  aged_label (v ++ "_" ++ to_string n) age
  = if age =? 1 then Some ((v ++ "_" ++ to_string n) ++ "_1")%string
    else if n =? 0 then None
    else Some (v ++ "_" ++ to_string age)%string.
Proof.
  intros Hint. destruct (N.eqb_spec age 1) as [->|Hage]; [reflexivity|].
  change (v ++ "_" ++ to_string n)%string
    with (v ++ String "_" (to_string n))%string.
  rewrite (aged_label_suffix v (to_string n) age Hage
             (has_underscore_to_string n)).
  rewrite (atoi_to_string n Hint).
  destruct (N.eqb_spec n 0) as [->|Hn]; [reflexivity|].
  assert (H : (0 <? Z.of_N n)%Z = true) by (apply Z.ltb_lt; lia).
  now rewrite H.
Qed.

Lemma aged_label_ladder_witness :
  3 < 2147483648
  /\ aged_label ("x" ++ "_" ++ to_string 3) 4
     = Some ("x" ++ "_" ++ to_string 4)%string.
Proof.
  split; [reflexivity|].
  exact (aged_label_ladder "x"%string 3 4 eq_refl).
Defined.

(** ** The data model at every reachable canvas *)

(** X14: at every canvas that container-driven operations ([AddPlot],
    [AddVariable(name, plotId)], both [RemoveVariable], [RemovePlot],
    [OnMoveVariable], [Clear]) reach from a new canvas before an id
    counter wraps around, the maps are well-formed, every record is
    stored under its own id, below the next plot id, so that [AddPlot]
    never takes the id of a live plot; a variable is held by at most one
    plot, which is the one [PlotByVariable] returns, its id is below
    the next variable id and its curve is in that plot, so that
    [PlotCurve] finds it; and no curve id is mapped twice. *)
Theorem reachable_data_model st :
  reachable_in_range st ->
  canvas_ok st = true
  /\ fresh_plot_id st
  /\ (forall k pd, StdMap.find k (plotData st) = Some pd ->
        id pd = k /\ k < globalPlotId st)
  /\ (forall x, single_owner x st)
  /\ (forall k x c, entry (plotData st) k x c ->
        x < globalVariableId st /\ c < globalCurveId st
        /\ PlotByVariable x st = k
        /\ exists cv, PlotCurveOf x st = Some cv)
  /\ (forall k k' x x' c,
        entry (plotData st) k x c -> entry (plotData st) k' x' c ->
        k = k' /\ x = x').
Proof.
  intros Hr. pose proof (reachable_well_formed st Hr) as Hwf.
  pose proof (well_formed_ok _ Hwf) as Hok.
  split; [now apply well_formed_canvas_ok|].
  split; [now apply well_formed_fresh|].
  split.
  { intros k pd Hf. destruct Hwf as (_ & H2 & _).
    destruct (H2 _ _ Hf) as (_ & _ & Ha & Hb). now split. }
  split; [intros x; now apply well_formed_single|].
  split; [|now destruct Hwf as (_ & _ & _ & _ & H5 & _)].
  intros k x c (pd & Hf & Hx).
  assert (He : entry (plotData st) k x c) by now exists pd.
  destruct Hwf as (H1 & H2 & H3 & H4 & H5 & H6).
  destruct (H3 _ _ _ He) as [Ha Hb].
  split; [exact Ha|]. split; [exact Hb|].
  assert (Hfirst : first_owner x (plotData st) = Some (k, pd)).
  { apply first_owner_sole; [exact Hok|exact Hf|exact (mem_of_find _ _ _ Hx)|].
    intros k' pd' Hf' Hm. apply mem_true_find in Hm. destruct Hm as (c' & Hm).
    apply (H4 k' k x c' c); [now exists pd'|exact He]. }
  split.
  - unfold PlotByVariable. now rewrite PlotByVariable_loop_first, Hfirst.
  - unfold PlotCurveOf. rewrite PlotCurve_loop_first, Hfirst, Hx.
    unfold IncrementalPlotOps.Curve.
    destruct (StdMap.find c (curves (plot pd))) as [cv|] eqn:E;
      [now exists cv|].
    exfalso. exact (H6 k pd x c Hf Hx E).
Qed.

Lemma reachable_data_model_witness :
  reachable_in_range canvas_two_plots
  /\ canvas_ok canvas_two_plots = true
  /\ fresh_plot_id canvas_two_plots
  /\ (forall x, single_owner x canvas_two_plots).
Proof.
  split; [exact in_range_two_plots|].
  destruct (reachable_data_model canvas_two_plots in_range_two_plots)
    as (H1 & H2 & _ & H4 & _).
  split; [exact H1|]. split; [exact H2|exact H4].
Defined.

(** ** One step of [Restart] *)

Lemma first_owner_entry st k pd x c :
  well_formed st ->
  StdMap.find k (plotData st) = Some pd ->
  StdMap.find x (variableCurves pd) = Some c ->
  first_owner x (plotData st) = Some (k, pd).
Proof.
  intros Hwf Hf Hx.
  apply first_owner_sole;
    [exact (well_formed_ok _ Hwf)|exact Hf|exact (mem_of_find _ _ _ Hx)|].
  intros k' pd' Hf' Hm. apply mem_true_find in Hm. destruct Hm as (c' & Hm).
  destruct Hwf as (_ & _ & _ & H4 & _).
  apply (H4 k' k x c' c); [now exists pd'|now exists pd].
Qed.

Lemma PlotCurveOf_entry st k pd x c :
  well_formed st ->
  StdMap.find k (plotData st) = Some pd ->
  StdMap.find x (variableCurves pd) = Some c ->
  PlotCurveOf x st = StdMap.find c (curves (plot pd)).
Proof.
  intros Hwf Hf Hx. unfold PlotCurveOf.
  rewrite PlotCurve_loop_first, (first_owner_entry st k pd x c Hwf Hf Hx).
  now rewrite Hx.
Qed.

Lemma PlotCurveOf_absent st x :
  first_owner x (plotData st) = None -> PlotCurveOf x st = None.
Proof. intros H. unfold PlotCurveOf. now rewrite PlotCurve_loop_first, H. Qed.

(** Replacing the curve objects of a plot keeps the data model, as long
    as the plot holds the curve ids it held. *)
Lemma wf_map_same_vars m gp gv gc k pd pd' :
  wf_map m gp gv gc ->
  StdMap.find k m = Some pd ->
  id pd' = id pd ->
  variableCurves pd' = variableCurves pd ->
  StdMap.ok (curves (plot pd')) = true ->
  (forall c, StdMap.find c (curves (plot pd)) <> None ->
             StdMap.find c (curves (plot pd')) <> None) ->
  wf_map (StdMap.insert k pd' m) gp gv gc.
Proof.
  intros (H1 & H2 & H3 & H4 & H5 & H6) Hf Hid Hv Hokc Hc.
  assert (He : forall k0 v c,
             entry (StdMap.insert k pd' m) k0 v c <-> entry m k0 v c).
  { intros k0 v c. rewrite entry_insert. split.
    - intros [(-> & Hx)|(_ & Hx)]; [|exact Hx].
      exists pd. split; [exact Hf|now rewrite <- Hv].
    - intros (y & Hy & Hx). destruct (N.eq_dec k0 k) as [->|Hne].
      + left. split; [reflexivity|]. rewrite Hf in Hy. injection Hy as <-.
        now rewrite Hv.
      + right. split; [exact Hne|now exists y]. }
  split; [now apply ok_insert|]. split; [|split; [|split; [|split]]].
  - intros k0 y Hy. apply find_insert_iff in Hy.
    destruct Hy as [(-> & ->)|(_ & Hy)]; [|exact (H2 _ _ Hy)].
    destruct (H2 _ _ Hf) as (Ha & _ & Hb & Hd).
    rewrite Hv, Hid. now repeat split.
  - intros k0 v c Hx. apply He in Hx. exact (H3 _ _ _ Hx).
  - intros k0 k' v c c' Hx Hx'. apply He in Hx. apply He in Hx'.
    exact (H4 _ _ _ _ _ Hx Hx').
  - intros k0 k' v v' c Hx Hx'. apply He in Hx. apply He in Hx'.
    exact (H5 _ _ _ _ _ Hx Hx').
  - intros k0 y v c Hy Hx. apply find_insert_iff in Hy.
    destruct Hy as [(-> & ->)|(_ & Hy)]; [|exact (H6 _ _ _ _ Hy Hx)].
    rewrite Hv in Hx. unfold holds_curve. apply Hc.
    exact (H6 _ _ _ _ Hf Hx).
Qed.

Lemma find_insert_not_none {V} c c0 (x : V) m :
  StdMap.find c m <> None -> StdMap.find c (StdMap.insert c0 x m) <> None.
Proof.
  intros H. destruct (N.eq_dec c c0) as [->|Hne].
  - now rewrite find_insert_eq.
  - now rewrite find_insert_ne.
Qed.

Lemma SetVariableLabel_counters x label st :
  globalPlotId (SetVariableLabel x label st) = globalPlotId st
  /\ globalVariableId (SetVariableLabel x label st) = globalVariableId st
  /\ globalCurveId (SetVariableLabel x label st) = globalCurveId st.
Proof.
  unfold SetVariableLabel. destruct (GetVariablePill x st); [|now repeat split].
  unfold OnSetVariableLabel. rewrite OnSetVariableLabel_loop_first.
  destruct (first_owner x _) as [[k pd]|]; [|now repeat split].
  destruct (StdMap.find x (variableCurves pd)); now repeat split.
Qed.

Lemma SetVariableLabel_wf x label st :
  well_formed st -> well_formed (SetVariableLabel x label st).
Proof.
  intros Hwf. unfold SetVariableLabel.
  destruct (GetVariablePill x st) as [pill|]; [|exact Hwf].
  unfold OnSetVariableLabel. rewrite OnSetVariableLabel_loop_first.
  cbn [plotData set_yVariableContainer].
  destruct (first_owner x (plotData st)) as [[k pd]|] eqn:E; [|exact Hwf].
  destruct (first_owner_In _ _ _ _ E) as [Hin _].
  apply In_find_some in Hin; [|exact (well_formed_ok _ Hwf)].
  destruct (StdMap.find x (variableCurves pd)) as [c|]; [|exact Hwf].
  unfold well_formed. cbn [plotData set_plotData globalPlotId
                           globalVariableId globalCurveId
                           set_yVariableContainer].
  apply wf_map_same_vars with (pd := pd);
    [exact Hwf|exact Hin|reflexivity|reflexivity| |].
  - cbn [plot set_plot]. unfold IncrementalPlotOps.SetCurveLabel.
    destruct (StdMap.find c (curves (plot pd)));
      [cbn [curves set_curves]; apply ok_insert|];
      exact (proj1 (proj2 (well_formed_record _ _ _ Hwf Hin))).
  - intros c0 Hc0. cbn [plot set_plot].
    unfold IncrementalPlotOps.SetCurveLabel.
    destruct (StdMap.find c (curves (plot pd))); [|exact Hc0].
    cbn [curves set_curves]. now apply find_insert_not_none.
Qed.

(** One round of the first loop of [Restart], for a variable with a
    slot. *)
Lemma Restart_variable_spec k x cid st q pill :
  well_formed st ->
  entry (plotData st) k x cid ->
  GetVariablePill x st = Some pill ->
  exists c,
    PlotCurveOf x st = Some c
    /\ let r := Restart_variable k x cid (st, q) in
       PlotCurveOf x (fst r) = Some (frozen_curve pill c)
       /\ GetVariablePill x (fst r) = Some (aged_pill pill c)
       /\ snd r = (if curveActive c
                   then (q ++ [(pillText pill, x, k)])%list else q)
       /\ manager (fst r)
          = (if curveActive c
             then PlotManager.RemoveCurve (Some cid) (manager st)
             else manager st)
       /\ (forall k', vars_of k' (fst r) = vars_of k' st)
       /\ (forall y, y <> x ->
             PlotCurveOf y (fst r) = PlotCurveOf y st
             /\ GetVariablePill y (fst r) = GetVariablePill y st)
       /\ well_formed (fst r)
       /\ globalPlotId (fst r) = globalPlotId st
       /\ globalVariableId (fst r) = globalVariableId st
       /\ globalCurveId (fst r) = globalCurveId st.
Proof.
  intros Hwf (pd & Hf & Hx) Hpill.
  pose proof (well_formed_ok _ Hwf) as Hok.
  destruct (StdMap.find cid (curves (plot pd))) as [c|] eqn:Ec.
  2:{ exfalso. exact (well_formed_holds _ _ _ _ _ Hwf Hf Hx Ec). }
  exists c. split; [now rewrite (PlotCurveOf_entry st k pd x cid Hwf Hf Hx)|].
  set (age := uint32_succ (curveAge c)).
  set (c' := mkCurve (curveLabel c) false age).
  set (pd1 := set_plot (IncrementalPlotOps.SetCurve cid c' (plot pd)) pd).
  set (reg := if curveActive c
              then PlotManager.RemoveCurve (Some cid) (manager st)
              else manager st).
  set (q' := if curveActive c
             then (q ++ [(pillText pill, x, k)])%list else q).
  set (st1 := set_manager reg
                (set_plotData (StdMap.insert k pd1 (plotData st)) st)).
  assert (Hstep : Restart_variable k x cid (st, q)
                  = match aged_label (pillText pill) age with
                    | Some label => (SetVariableLabel x label st1, q')
                    | None => (st1, q')
                    end).
  { unfold Restart_variable. rewrite Hpill, Hf.
    unfold IncrementalPlotOps.Curve. rewrite Ec.
    unfold st1, reg, q', pd1, c', age.
    destruct (curveActive c); reflexivity. }
  assert (Hwf1 : well_formed st1).
  { unfold well_formed, st1. simpl.
    apply wf_map_same_vars with (pd := pd);
      [exact Hwf|exact Hf|reflexivity|reflexivity| |].
    - unfold pd1. simpl. apply ok_insert.
      exact (proj1 (proj2 (well_formed_record _ _ _ Hwf Hf))).
    - intros c0 Hc0. unfold pd1. simpl. now apply find_insert_not_none. }
  assert (Hf1 : StdMap.find k (plotData st1) = Some pd1)
    by (simpl; apply find_insert_eq).
  assert (Hcur1 : PlotCurveOf x st1 = Some c').
  { rewrite (PlotCurveOf_entry st1 k pd1 x cid Hwf1 Hf1 Hx).
    unfold pd1. simpl. apply find_insert_eq. }
  assert (Hvars1 : forall k', vars_of k' st1 = vars_of k' st).
  { intros k'. unfold vars_of. simpl.
    destruct (N.eq_dec k' k) as [->|Hne].
    - now rewrite find_insert_eq, Hf.
    - now rewrite find_insert_ne. }
  assert (Hoth1 : forall y, y <> x -> PlotCurveOf y st1 = PlotCurveOf y st).
  { intros y Hy.
    destruct (first_owner y (plotData st)) as [[k2 z]|] eqn:Ey.
    - destruct (first_owner_In _ _ _ _ Ey) as [Hin Hm].
      apply In_find_some in Hin; [|exact Hok].
      apply mem_true_find in Hm. destruct Hm as (cy & Hcy).
      rewrite (PlotCurveOf_entry st k2 z y cy Hwf Hin Hcy).
      destruct (N.eq_dec k2 k) as [->|Hne].
      + rewrite Hf in Hin. injection Hin as <-.
        rewrite (PlotCurveOf_entry st1 k pd1 y cy Hwf1 Hf1 Hcy).
        unfold pd1. simpl. apply find_insert_ne. intros ->.
        destruct Hwf as (_ & _ & _ & _ & H5 & _).
        destruct (H5 k k y x cid) as [_ Hyx];
          [now exists pd|now exists pd|]. now elim Hy.
      + assert (Hz : StdMap.find k2 (plotData st1) = Some z)
          by (simpl; now rewrite find_insert_ne).
        now rewrite (PlotCurveOf_entry st1 k2 z y cy Hwf1 Hz Hcy).
    - rewrite (PlotCurveOf_absent st y Ey). apply PlotCurveOf_absent.
      simpl. rewrite (first_owner_insert y k pd pd1 _ Hok Hf eq_refl).
      now rewrite Ey. }
  cbv zeta. unfold frozen_curve, aged_pill. cbv zeta. fold age.
  rewrite Hstep.
  destruct (aged_label (pillText pill) age) as [label|] eqn:El;
    cbn [fst snd].
  - assert (Hpill1 : GetVariablePill x st1 = Some pill) by exact Hpill.
    destruct (SetVariableLabel_spec x label st1 Hwf1) as (_ & Hs).
    destruct (Hs pill Hpill1) as (S1 & S2 & S3 & S4 & S5 & S6).
    destruct (SetVariableLabel_counters x label st1) as (G1 & G2 & G3).
    split; [now rewrite S4, Hcur1|]. split; [exact S1|].
    split; [reflexivity|]. split; [now rewrite S6|].
    split; [intros k'; now rewrite S3|].
    split.
    { intros y Hy. split; [now rewrite (S5 y Hy), (Hoth1 y Hy)|].
      now rewrite (S2 y Hy). }
    split; [now apply SetVariableLabel_wf|].
    now rewrite G1, G2, G3.
  - split; [exact Hcur1|]. split; [now destruct pill|].
    split; [reflexivity|]. split; [reflexivity|].
    split; [exact Hvars1|].
    split; [intros y Hy; split; [exact (Hoth1 y Hy)|reflexivity]|].
    split; [exact Hwf1|]. now repeat split.
Qed.



(** ** [OnMoveVariable]: what travels with the variable *)

Lemma OnMoveVariable_rest v t st st' :
  OnMoveVariable v t st = Some st' ->
  yVariableContainer st' = yVariableContainer st
  /\ manager st' = manager st.
Proof.
  unfold OnMoveVariable.
  destruct (OnMoveVariable_find v t (plotData st) None None)
    as [[[sk c]|] tgt]; [|intros H; injection H as <-; now split].
  destruct (StdMap.find sk (plotData st)) as [src|];
    [|intros H; injection H as <-; now split].
  destruct (IncrementalPlotOps.DetachCurve c (plot src)) as [[pc|] plot'];
    [|discriminate].
  destruct tgt as [tk|].
  - match goal with
    | |- context [StdMap.find tk ?m] => destruct (StdMap.find tk m) as [tg|]
    end; cbv beta iota zeta;
    match goal with
    | |- context [StdMap.empty ?m] => destruct (StdMap.empty m)
    end; cbv beta iota zeta; intros H; injection H as <-; now split.
  - unfold AddPlot. cbv beta iota zeta. cbn [plotData fst snd].
    rewrite find_insert_eq. cbv beta iota zeta. unfold hide_emptyPlot.
    cbn [plotData set_plotData]. rewrite empty_insert. cbn [negb].
    cbv beta iota zeta.
    repeat match goal with
           | |- context [if ?b then _ else _] => destruct b
           end; intros H; injection H as <-; now split.
Qed.

(** The variable [v] with its curve is in the plot [k] of a canvas of
    the data model: that is where [PlotByVariable] and [PlotCurve] find
    them. *)
Lemma curve_in_plot_found v c cv k st :
  well_formed st -> curve_in_plot v c cv k st ->
  PlotByVariable v st = k /\ PlotCurveOf v st = Some cv.
Proof.
  intros Hwf (pd & Hf & Hv & Hc). split.
  - unfold PlotByVariable.
    now rewrite PlotByVariable_loop_first,
      (first_owner_entry st k pd v c Hwf Hf Hv).
  - now rewrite (PlotCurveOf_entry st k pd v c Hwf Hf Hv).
Qed.

(** X16: [OnMoveVariable] moves the curve object together with the
    variable.  Before the call the variable and its curve are in the
    source plot.  When another plot holds the target variable, the
    variable and the same curve object (label, [Active] flag and age as
    they were) are in that plot afterwards, which is the plot that
    [PlotByVariable] then returns; when no plot holds the target, they
    are in a new plot under the next plot id.  In both cases the source
    plot, if it is still there, holds neither the variable nor the
    curve.  The slot container and the curve registry are not involved:
    no slot and no registered curve changes, and no variable or curve id
    is handed out. *)
Theorem OnMoveVariable_carries_curve v t s src c st :
  well_formed st ->
  globalPlotId st < IGN_UINT32_MAX ->
  StdMap.find s (plotData st) = Some src ->
  StdMap.find v (variableCurves src) = Some c ->
  exists st' cv,
    OnMoveVariable v t st = Some st'
    /\ curve_in_plot v c cv s st
    /\ PlotByVariable v st = s
    /\ PlotCurveOf v st = Some cv
    /\ PlotCurveOf v st' = Some cv
    /\ (forall tk, owns tk t st = true -> tk <> s ->
          curve_in_plot v c cv tk st'
          /\ PlotByVariable v st' = tk
          /\ curve_left_plot v c s st')
    /\ ((forall k, owns k t st = false) ->
          StdMap.find (globalPlotId st) (plotData st) = None
          /\ curve_in_plot v c cv (globalPlotId st) st'
          /\ PlotByVariable v st' = globalPlotId st
          /\ curve_left_plot v c s st')
    /\ yVariableContainer st' = yVariableContainer st
    /\ manager st' = manager st
    /\ globalVariableId st' = globalVariableId st
    /\ globalCurveId st' = globalCurveId st.
Proof.
  intros Hwf Hgp Hf Hv.
  pose proof (well_formed_ok _ Hwf) as Hok.
  destruct (well_formed_record _ _ _ Hwf Hf) as (Hokv & Hokc & _).
  assert (Hown : owns s v st = true)
    by (eapply owns_intro; eauto using mem_of_find).
  pose proof (well_formed_sole v s st Hwf Hown) as Hsole.
  destruct (OnMoveVariable_find_owner v t s src c st Hok Hf Hv Hsole)
    as (tgt & Hfind & Htgt).
  destruct (StdMap.find c (curves (plot src))) as [pc|] eqn:Epc.
  2:{ exfalso. exact (well_formed_holds _ _ _ _ _ Hwf Hf Hv Epc). }
  destruct (OnMoveVariable_exec v t st s c tgt src pc Hfind Hf Epc)
    as (st' & Hrun & Hdata & Hgv & Hgc & _).
  pose proof (OnMoveVariable_wf v t st st' Hwf Hgp Hrun) as Hwf'.
  destruct (OnMoveVariable_rest v t st st' Hrun) as (Hy & Hm).
  assert (Hbefore : curve_in_plot v c pc s st) by now exists src.
  destruct (curve_in_plot_found v c pc s st Hwf Hbefore) as (Hp0 & Hc0).
  cbv zeta in Hdata.
  set (src' := mkPlotData (id src)
                 (set_curves (StdMap.erase c (curves (plot src))) (plot src))
                 (StdMap.erase v (variableCurves src))) in *.
  assert (Hsrc' : StdMap.find v (variableCurves src') = None
                  /\ IncrementalPlotOps.Curve c (plot src') = None).
  { unfold src', IncrementalPlotOps.Curve. simpl.
    split; now apply find_erase_eq. }
  exists st', pc. split; [exact Hrun|]. split; [exact Hbefore|].
  split; [exact Hp0|]. split; [exact Hc0|].
  destruct tgt as [tk'|].
  - destruct (owns_find _ _ _ Htgt) as (tg0 & Htg0 & _).
    assert (Htk : exists tg,
               StdMap.find tk' (StdMap.insert s src' (plotData st)) = Some tg).
    { destruct (N.eq_dec tk' s) as [->|Hne].
      - exists src'. apply find_insert_eq.
      - exists tg0. now rewrite find_insert_ne. }
    destruct Htk as (tg & Htg). rewrite Htg in Hdata.
    destruct Hdata as (Hdata & _).
    set (tg' := mkPlotData (id tg)
                  (IncrementalPlotOps.AttachCurve c pc (plot tg))
                  (StdMap.insert v c (variableCurves tg))) in *.
    assert (Hin : curve_in_plot v c pc tk' st').
    { exists tg'. split; [|split].
      - rewrite Hdata. destruct (N.eqb_spec tk' s) as [->|Hne].
        + unfold tg' at 1. cbn [variableCurves]. rewrite empty_insert.
          apply find_insert_eq.
        + destruct (StdMap.empty (variableCurves src')).
          * rewrite find_erase_ne by exact Hne. apply find_insert_eq.
          * apply find_insert_eq.
      - apply find_insert_eq.
      - unfold tg', IncrementalPlotOps.Curve. simpl. apply find_insert_eq. }
    destruct (curve_in_plot_found v c pc tk' st' Hwf' Hin) as (Hp1 & Hc1).
    split; [exact Hc1|]. split; [|split; [|now repeat split]].
    + intros tk Htk Hne.
      assert (Etk : tk = tk')
        by exact (well_formed_single t st Hwf tk tk' Htk Htgt).
      rewrite Etk in Hne |- *. clear Etk Htk.
      split; [exact Hin|]. split; [exact Hp1|].
      intros pd0 Hpd0. rewrite Hdata in Hpd0.
      destruct (N.eqb_spec tk' s) as [E|_]; [now elim Hne|].
      destruct (StdMap.empty (variableCurves src')).
      * rewrite find_erase_eq in Hpd0; [discriminate|].
        apply ok_insert. now apply ok_insert.
      * rewrite find_insert_ne in Hpd0 by (intros E; now elim Hne).
        rewrite find_insert_eq in Hpd0. injection Hpd0 as <-.
        exact Hsrc'.
    + intros Hnone. rewrite (Hnone tk') in Htgt. discriminate.
  - destruct Hdata as (Hdata & _).
    set (g := globalPlotId st) in *.
    set (new' := mkPlotData g
                   (IncrementalPlotOps.AttachCurve c pc
                                                   (mkPlot (nextWidget st) []))
                   (StdMap.insert v c [])) in *.
    pose proof (well_formed_fresh _ Hwf) as Hfresh.
    unfold fresh_plot_id in Hfresh. fold g in Hfresh.
    assert (Hgs : g <> s).
    { intros E. rewrite E, Hf in Hfresh. discriminate. }
    assert (Hin : curve_in_plot v c pc g st').
    { exists new'. split; [|split].
      - rewrite Hdata.
        destruct (StdMap.empty (variableCurves src')); [|apply find_insert_eq].
        destruct (N.eqb_spec g s) as [E|_]; [now elim Hgs|].
        rewrite find_erase_ne by exact Hgs. apply find_insert_eq.
      - unfold new'. simpl. now rewrite N.eqb_refl.
      - unfold new', IncrementalPlotOps.Curve. simpl. now rewrite N.eqb_refl. }
    destruct (curve_in_plot_found v c pc g st' Hwf' Hin) as (Hp1 & Hc1).
    split; [exact Hc1|]. split; [|split; [|now repeat split]].
    + intros tk Htk _. rewrite (Htgt tk) in Htk. discriminate.
    + intros _. split; [exact Hfresh|]. split; [exact Hin|].
      split; [exact Hp1|].
      intros pd0 Hpd0. rewrite Hdata in Hpd0.
      destruct (StdMap.empty (variableCurves src')).
      * destruct (N.eqb_spec g s) as [E|_]; [now elim Hgs|].
        rewrite find_erase_eq in Hpd0; [discriminate|].
        apply ok_insert. now apply ok_insert.
      * rewrite find_insert_ne in Hpd0 by (intros E; now elim Hgs).
        rewrite find_insert_eq in Hpd0. injection Hpd0 as <-.
        exact Hsrc'.
Qed.

Lemma OnMoveVariable_carries_curve_witness :
  (globalPlotId canvas_two_plots < IGN_UINT32_MAX
   /\ StdMap.find 0 (plotData canvas_two_plots)
      = Some (mkPlotData 0
                (mkPlot 1 [(0, mkCurve "x" true 0); (1, mkCurve "y" true 0)])
                [(1, 0); (2, 1)])
   /\ owns 1 3 canvas_two_plots = true)
  /\ exists st' cv,
       OnMoveVariable 1 3 canvas_two_plots = Some st'
       /\ PlotByVariable 1 canvas_two_plots = 0
       /\ PlotCurveOf 1 canvas_two_plots = Some cv
       /\ curve_in_plot 1 0 cv 1 st'
       /\ PlotByVariable 1 st' = 1
       /\ curve_left_plot 1 0 0 st'.
Proof.
  assert (G : globalPlotId canvas_two_plots < IGN_UINT32_MAX) by reflexivity.
  assert (O : owns 1 3 canvas_two_plots = true) by reflexivity.
  split; [split; [exact G|split; [reflexivity|exact O]]|].
  destruct (OnMoveVariable_carries_curve 1 3 0
              (mkPlotData 0
                 (mkPlot 1 [(0, mkCurve "x"%string true 0);
                            (1, mkCurve "y"%string true 0)])
                 [(1, 0); (2, 1)])
              0 canvas_two_plots
              (reachable_well_formed _ in_range_two_plots) G eq_refl eq_refl)
    as (st' & cv & H1 & _ & H3 & H4 & _ & H6 & _).
  destruct (H6 1 O ltac:(discriminate)) as (M1 & M2 & M3).
  exists st', cv. split; [exact H1|]. split; [exact H3|].
  split; [exact H4|]. split; [exact M1|]. split; [exact M2|exact M3].
Defined.

(** ** [Restart] on any canvas of the data model *)

Lemma entry_vars_of st k x c :
  entry (plotData st) k x c <-> StdMap.find x (vars_of k st) = Some c.
Proof.
  unfold entry, vars_of. split.
  - intros (pd & Hf & Hx). now rewrite Hf.
  - destruct (StdMap.find k (plotData st)) as [pd|]; [|discriminate].
    intros Hx. now exists pd.
Qed.

Lemma entry_same_vars st st' k x c :
  (forall k', vars_of k' st' = vars_of k' st) ->
  entry (plotData st') k x c <-> entry (plotData st) k x c.
Proof. intros H. now rewrite !entry_vars_of, H. Qed.

Lemma same_variables_refl st : same_variables st st.
Proof. now repeat split. Qed.

Lemma same_variables_trans st1 st2 st3 :
  same_variables st1 st2 -> same_variables st2 st3 -> same_variables st1 st3.
Proof.
  intros (A1 & A2 & A3 & A4) (B1 & B2 & B3 & B4).
  split; [intros k; now rewrite B1, A1|].
  now rewrite B2, B3, B4, A2, A3, A4.
Qed.

Lemma same_curve_refl y st : same_curve y st st.
Proof. now split. Qed.

Lemma same_curve_trans y st1 st2 st3 :
  same_curve y st1 st2 -> same_curve y st2 st3 -> same_curve y st1 st3.
Proof. intros (A1 & A2) (B1 & B2). split; [now rewrite B1|now rewrite B2]. Qed.

Lemma frozen_then_same x st1 st2 st3 :
  frozen_in x st1 st2 -> same_curve x st2 st3 -> frozen_in x st1 st3.
Proof.
  unfold frozen_in. intros H (B1 & B2).
  destruct (GetVariablePill x st1) as [pill|];
    [destruct (PlotCurveOf x st1) as [c|]|].
  - destruct H as (H1 & H2). split; [now rewrite B1|now rewrite B2].
  - exact (same_curve_trans _ _ _ _ H (conj B1 B2)).
  - exact (same_curve_trans _ _ _ _ H (conj B1 B2)).
Qed.

Lemma same_then_frozen x st1 st2 st3 :
  same_curve x st1 st2 -> frozen_in x st2 st3 -> frozen_in x st1 st3.
Proof.
  unfold frozen_in. intros HA H. pose proof HA as (A1 & A2).
  rewrite A1, A2 in H.
  destruct (GetVariablePill x st1) as [pill|];
    [destruct (PlotCurveOf x st1) as [c|]|]; try exact H;
    exact (same_curve_trans _ _ _ _ HA H).
Qed.

Lemma above_keys {V} lo (m : StdMap.t V) k :
  StdMap.above lo m = true -> In k (map fst m) -> lo < k.
Proof.
  revert lo. induction m as [|[k' v] m IH]; intros lo Hab Hin; [easy|].
  simpl in Hab. apply andb_true_iff in Hab. destruct Hab as [Hlt Hab].
  apply N.ltb_lt in Hlt. destruct Hin as [<-|Hin]; [exact Hlt|].
  specialize (IH _ Hab Hin). lia.
Qed.

Lemma ok_NoDup {V} (m : StdMap.t V) :
  StdMap.ok m = true -> NoDup (map fst m).
Proof.
  induction m as [|[k v] m IH]; intros Hok; [constructor|].
  simpl. constructor.
  - intros Hin. simpl in Hok. pose proof (above_keys _ _ _ Hok Hin). lia.
  - apply IH. exact (ok_tail _ _ _ Hok).
Qed.

Lemma find_none_not_In {V} x (m : StdMap.t V) :
  StdMap.find x m = None -> ~ In x (map fst m).
Proof.
  induction m as [|[k v] m IH]; simpl; [tauto|].
  destruct (N.eqb_spec x k) as [->|Hne]; [discriminate|].
  intros H [E|Hin]; [now elim Hne|exact (IH H Hin)].
Qed.

Lemma In_keys_mem {V} x (m : StdMap.t V) :
  In x (map fst m) -> StdMap.mem x m = true.
Proof.
  intros Hin. destruct (StdMap.mem x m) eqn:E; [reflexivity|].
  elim (find_none_not_In x m (mem_false_find _ _ E) Hin).
Qed.

(** One round of the first loop, with or without slot. *)
Lemma Restart_variable_step k x cid st q :
  well_formed st ->
  entry (plotData st) k x cid ->
  let r := Restart_variable k x cid (st, q) in
  well_formed (fst r)
  /\ same_variables st (fst r)
  /\ (forall y, y <> x -> same_curve y st (fst r))
  /\ frozen_in x st (fst r)
  /\ (List.length (snd r) <= S (List.length q))%nat
  /\ (forall e, In e (snd r) ->
        In e q \/ exists pill, GetVariablePill x st = Some pill
                               /\ e = (pillText pill, x, k)).
Proof.
  intros Hwf He r.
  destruct (GetVariablePill x st) as [pill|] eqn:Hpill.
  - destruct (Restart_variable_spec k x cid st q pill Hwf He Hpill)
      as (c & Hc & H1 & H2 & H3 & _ & H5 & H6 & H7 & G1 & G2 & G3).
    fold r in H1, H2, H3, H5, H6, H7, G1, G2, G3.
    split; [exact H7|]. split; [now repeat split|].
    split; [exact H6|]. split.
    { unfold frozen_in. rewrite Hpill, Hc. now split. }
    rewrite H3. destruct (curveActive c).
    + split; [rewrite length_app; simpl; lia|].
      intros e Hin. apply in_app_or in Hin.
      destruct Hin as [Hin|[<-|[]]]; [now left|right; now exists pill].
    + split; [lia|]. intros e Hin. now left.
  - assert (Hr : r = (st, q)).
    { unfold r, Restart_variable. now rewrite Hpill. }
    rewrite Hr. cbn [fst snd].
    split; [exact Hwf|]. split; [apply same_variables_refl|].
    split; [intros y _; apply same_curve_refl|]. split.
    { unfold frozen_in. rewrite Hpill. apply same_curve_refl. }
    split; [lia|]. intros e Hin. now left.
Qed.

(** The loop over the variables of one plot. *)
Lemma Restart_variables_spec k :
  forall vs st q,
    well_formed st ->
    (forall x cid, In (x, cid) vs -> entry (plotData st) k x cid) ->
    NoDup (map fst vs) ->
    let r := Restart_variables k vs (st, q) in
    well_formed (fst r)
    /\ same_variables st (fst r)
    /\ (forall y, ~ In y (map fst vs) -> same_curve y st (fst r))
    /\ (forall x, In x (map fst vs) -> frozen_in x st (fst r))
    /\ (List.length (snd r) <= List.length q + List.length vs)%nat
    /\ (forall e, In e (snd r) ->
          In e q \/ (In (snd (fst e)) (map fst vs) /\ snd e = k)).
Proof.
  induction vs as [|[x cid] vs IH]; intros st q Hwf Hent Hnd r.
  - unfold r. simpl. split; [exact Hwf|]. split; [apply same_variables_refl|].
    split; [intros y _; apply same_curve_refl|]. split; [intros x []|].
    split; [lia|]. intros e Hin. now left.
  - assert (He : entry (plotData st) k x cid) by (apply Hent; now left).
    destruct (Restart_variable_step k x cid st q Hwf He)
      as (S1 & S2 & S3 & S4 & S5 & S6).
    destruct (Restart_variable k x cid (st, q)) as [st1 q1] eqn:E1.
    cbn [fst snd] in S1, S2, S3, S4, S5, S6.
    inversion Hnd as [|? ? Hx Hnd']; subst.
    assert (Hent1 : forall x' cid', In (x', cid') vs ->
                      entry (plotData st1) k x' cid').
    { intros x' cid' Hin. apply (entry_same_vars st st1); [exact (proj1 S2)|].
      apply Hent. now right. }
    destruct (IH st1 q1 S1 Hent1 Hnd') as (I1 & I2 & I3 & I4 & I5 & I6).
    assert (Hr : r = Restart_variables k vs (st1, q1)).
    { unfold r. cbn [Restart_variables]. now rewrite E1. }
    rewrite Hr.
    split; [exact I1|].
    split; [exact (same_variables_trans _ _ _ S2 I2)|].
    split.
    { intros y Hy. simpl in Hy.
      apply (same_curve_trans y st st1).
      - apply S3. intros ->. apply Hy. now left.
      - apply I3. intros Hin. apply Hy. now right. }
    split.
    { intros x' [<-|Hin].
      - exact (frozen_then_same _ _ _ _ S4 (I3 x Hx)).
      - apply (same_then_frozen x' st st1); [|exact (I4 x' Hin)].
        apply S3. intros ->. exact (Hx Hin). }
    split; [simpl; lia|].
    intros e Hin. destruct (I6 e Hin) as [Hq1|(Hv & Hk)].
    + destruct (S6 e Hq1) as [Hq|(pill & _ & ->)]; [now left|].
      right. split; [now left|reflexivity].
    + right. split; [now right|exact Hk].
Qed.

Lemma well_formed_vars_ok st k :
  well_formed st -> StdMap.ok (vars_of k st) = true.
Proof.
  intros Hwf. unfold vars_of.
  destruct (StdMap.find k (plotData st)) as [pd|] eqn:E; [|reflexivity].
  exact (proj1 (well_formed_record _ _ _ Hwf E)).
Qed.

(** The first loop of [Restart], over the plots [its] of the canvas. *)
Lemma Restart_plots_spec :
  forall its st q,
    well_formed st ->
    NoDup (map fst its) ->
    (forall k pd, In (k, pd) its -> vars_of k st = variableCurves pd) ->
    let r := Restart_plots its (st, q) in
    well_formed (fst r)
    /\ same_variables st (fst r)
    /\ (forall y, (forall k pd, In (k, pd) its ->
                                StdMap.find y (variableCurves pd) = None) ->
                  same_curve y st (fst r))
    /\ (forall k pd x, In (k, pd) its ->
                       In x (map fst (variableCurves pd)) ->
                       frozen_in x st (fst r))
    /\ (List.length (snd r) <= List.length q + total_curves its)%nat
    /\ (forall e, In e (snd r) ->
          In e q \/ exists c, entry (plotData st) (snd e) (snd (fst e)) c).
Proof.
  induction its as [|[k pd] its IH]; intros st q Hwf Hnd Hsnap r.
  - unfold r. simpl. split; [exact Hwf|]. split; [apply same_variables_refl|].
    split; [intros y _; apply same_curve_refl|].
    split; [intros k pd x []|]. split; [lia|]. intros e Hin. now left.
  - inversion Hnd as [|? ? Hk Hnd']; subst.
    assert (Hvk : vars_of k st = variableCurves pd)
      by (apply Hsnap; now left).
    assert (Hokv : StdMap.ok (variableCurves pd) = true)
      by (rewrite <- Hvk; now apply well_formed_vars_ok).
    assert (Hent : forall x cid, In (x, cid) (variableCurves pd) ->
                     entry (plotData st) k x cid).
    { intros x cid Hin. apply entry_vars_of. rewrite Hvk.
      now apply In_find_some. }
    destruct (Restart_variables_spec k (variableCurves pd) st q Hwf Hent
                (ok_NoDup _ Hokv))
      as (S1 & S2 & S3 & S4 & S5 & S6).
    destruct (Restart_variables k (variableCurves pd) (st, q))
      as [st1 q1] eqn:E1.
    cbn [fst snd] in S1, S2, S3, S4, S5, S6.
    assert (Hsnap1 : forall k' pd', In (k', pd') its ->
                       vars_of k' st1 = variableCurves pd').
    { intros k' pd' Hin. rewrite (proj1 S2). apply Hsnap. now right. }
    destruct (IH st1 q1 S1 Hnd' Hsnap1) as (I1 & I2 & I3 & I4 & I5 & I6).
    assert (Hr : r = Restart_plots its (st1, q1)).
    { unfold r. cbn [Restart_plots]. now rewrite E1. }
    rewrite Hr.
    (* a variable of one plot is in no other plot *)
    assert (Hdisj : forall k' pd' x,
               In (k', pd') its -> In x (map fst (variableCurves pd)) ->
               StdMap.find x (variableCurves pd') = None).
    { intros k' pd' x Hin Hx.
      destruct (StdMap.find x (variableCurves pd')) as [c'|] eqn:Ex;
        [|reflexivity].
      exfalso. apply In_keys_mem in Hx. apply mem_true_find in Hx.
      destruct Hx as (c & Hx).
      assert (E : entry (plotData st) k x c)
        by (apply entry_vars_of; now rewrite Hvk).
      assert (E' : entry (plotData st) k' x c').
      { apply entry_vars_of. rewrite (Hsnap k' pd'); [exact Ex|now right]. }
      destruct Hwf as (_ & _ & _ & H4 & _).
      pose proof (H4 _ _ _ _ _ E E') as Hkk. subst k'.
      apply Hk. change k with (fst (k, pd')). now apply in_map. }
    split; [exact I1|].
    split; [exact (same_variables_trans _ _ _ S2 I2)|].
    split.
    { intros y Hy. apply (same_curve_trans y st st1).
      - apply S3. apply find_none_not_In. apply (Hy k pd). now left.
      - apply I3. intros k' pd' Hin. apply (Hy k' pd'). now right. }
    split.
    { intros k' pd' x [E|Hin] Hx.
      - injection E as <- <-.
        apply (frozen_then_same x st st1); [exact (S4 x Hx)|].
        apply I3. intros k' pd' Hin. exact (Hdisj k' pd' x Hin Hx).
      - apply (same_then_frozen x st st1); [|exact (I4 k' pd' x Hin Hx)].
        apply S3. intros Hx'.
        pose proof (Hdisj k' pd' x Hin Hx') as Hn.
        exact (find_none_not_In _ _ Hn Hx). }
    split; [simpl; lia|].
    intros e Hin. destruct (I6 e Hin) as [Hq1|(c & Hc)].
    + destruct (S6 e Hq1) as [Hq|(Hv & Hke)]; [now left|].
      right. apply In_keys_mem in Hv. apply mem_true_find in Hv.
      destruct Hv as (c & Hv). exists c. rewrite Hke.
      apply entry_vars_of. now rewrite Hvk.
    + right. exists c. now apply (entry_same_vars st st1); [exact (proj1 S2)|].
Qed.

Lemma SetVariableLabel_others x label st :
  well_formed st ->
  same_variables st (SetVariableLabel x label st)
  /\ (forall y, y <> x -> same_curve y st (SetVariableLabel x label st)).
Proof.
  intros Hwf. destruct (SetVariableLabel_spec x label st Hwf) as (Hn & Hs).
  destruct (GetVariablePill x st) as [pill|] eqn:E.
  - destruct (Hs pill eq_refl) as (_ & S2 & S3 & _ & S5 & _).
    destruct (SetVariableLabel_counters x label st) as (G1 & G2 & G3).
    split; [now repeat split|].
    intros y Hy. split; [exact (S5 y Hy)|exact (S2 y Hy)].
  - rewrite (Hn eq_refl). split; [apply same_variables_refl|].
    intros y _. apply same_curve_refl.
Qed.

(** The second loop of [Restart]: the copies join the plots of the
    originals; what was on the canvas stays as the first loop left it. *)
Lemma Restart_clone_spec :
  forall q st,
    well_formed st ->
    globalPlotId st < IGN_UINT32_MAX ->
    globalVariableId st + N.of_nat (List.length q) <= IGN_UINT32_MAX ->
    globalCurveId st + N.of_nat (List.length q) <= IGN_UINT32_MAX ->
    (forall e, In e q ->
       exists c, entry (plotData st) (snd e) (snd (fst e)) c) ->
    let st' := Restart_clone q st in
    well_formed st'
    /\ globalPlotId st' = globalPlotId st
    /\ (forall k x c, entry (plotData st) k x c -> entry (plotData st') k x c)
    /\ (forall y, y < globalVariableId st -> same_curve y st st').
Proof.
  induction q as [|[[text x] k] q IH]; intros st Hwf Hgp Hgv Hgc Hq st'.
  - unfold st'. simpl. split; [exact Hwf|]. split; [reflexivity|].
    split; [tauto|]. intros y _. apply same_curve_refl.
  - cbn [List.length] in Hgv, Hgc.
    assert (Hq' : forall e, In e q ->
                    exists c, entry (plotData st) (snd e) (snd (fst e)) c)
      by (intros e Hin; apply Hq; now right).
    unfold st'. cbn [Restart_clone].
    destruct (GetVariablePill x st) as [pill|] eqn:Hpill.
    2:{ apply IH; try assumption; lia. }
    destruct (Hq (text, x, k) (or_introl eq_refl)) as (c & He).
    cbn [fst snd] in He. pose proof He as (pd & Hf & Hx).
    assert (Hne : variableCurves pd <> [])
      by (intros E; rewrite E in Hx; discriminate).
    assert (Hk : k <> EMPTY_PLOT).
    { destruct Hwf as (_ & H2 & _). destruct (H2 _ _ Hf) as (_ & _ & _ & Hlt).
      unfold EMPTY_PLOT. lia. }
    assert (Hrange : counters_in_range st) by (unfold counters_in_range; lia).
    pose proof (AddVariable_name_wf (pillName pill) k st Hwf Hrange) as Hwfa.
    destruct (AddVariable_name_existing (pillName pill) k pd st Hwf
                ltac:(lia) Hf Hne Hk)
      as (A1 & A2 & A3 & A4 & A5 & _ & _ & A8 & _ & A10 & A11 & A12).
    destruct (AddVariable_name (pillName pill) k st) as [newId sta] eqn:Ea.
    cbn [fst snd] in Hwfa, A1, A2, A3, A4, A5, A8, A10, A11, A12.
    subst newId.
    rewrite (uint32_succ_in_range (globalVariableId st)) in A11 by lia.
    rewrite (uint32_succ_in_range (globalCurveId st)) in A12 by lia.
    (* the canvas of [st] is still there *)
    assert (Hent_a : forall k0 x0 c0, entry (plotData st) k0 x0 c0 ->
                       entry (plotData sta) k0 x0 c0).
    { intros k0 x0 c0 He0. destruct (N.eq_dec k0 k) as [->|Hk0].
      - apply entry_vars_of. rewrite A4.
        assert (Hx0 : x0 <> globalVariableId st).
        { destruct Hwf as (_ & _ & H3 & _).
          pose proof (proj1 (H3 _ _ _ He0)). lia. }
        rewrite find_insert_ne by exact Hx0.
        destruct He0 as (pd0 & Hf0 & Hx0'). rewrite Hf in Hf0.
        now injection Hf0 as <-.
      - destruct He0 as (pd0 & Hf0 & Hx0). exists pd0.
        split; [now rewrite (A5 k0 Hk0)|exact Hx0]. }
    assert (Hsame_a : forall y, y < globalVariableId st -> same_curve y st sta).
    { intros y Hy. split; [apply A8; lia|apply A3; lia]. }
    set (stb := if negb (String.eqb text (pillName pill))
                then SetVariableLabel (globalVariableId st) text sta
                else sta).
    assert (Hb : well_formed stb
                 /\ same_variables sta stb
                 /\ forall y, y <> globalVariableId st -> same_curve y sta stb).
    { unfold stb. destruct (negb (String.eqb text (pillName pill))).
      - split; [now apply SetVariableLabel_wf|].
        now apply SetVariableLabel_others.
      - split; [exact Hwfa|]. split; [apply same_variables_refl|].
        intros y _. apply same_curve_refl. }
    destruct Hb as (Hwfb & (B1 & B2 & B3 & B4) & Hsame_b).
    assert (Hqb : forall e, In e q ->
                    exists c0, entry (plotData stb) (snd e) (snd (fst e)) c0).
    { intros e Hin. destruct (Hq' e Hin) as (c0 & He0). exists c0.
      apply (entry_same_vars sta stb); [exact B1|]. now apply Hent_a. }
    destruct (IH stb Hwfb ltac:(rewrite B2, A10; exact Hgp)
                ltac:(rewrite B3, A11; lia) ltac:(rewrite B4, A12; lia) Hqb)
      as (I1 & I2 & I3 & I4).
    split; [exact I1|]. split; [now rewrite I2, B2, A10|].
    split.
    { intros k0 x0 c0 He0. apply I3.
      apply (entry_same_vars sta stb); [exact B1|]. now apply Hent_a. }
    intros y Hy. apply (same_curve_trans y st sta); [now apply Hsame_a|].
    apply (same_curve_trans y sta stb); [apply Hsame_b; lia|].
    apply I4. rewrite B3, A11. lia.
Qed.

(** [Restart], both loops. *)
Lemma Restart_spec st :
  well_formed st ->
  globalPlotId st < IGN_UINT32_MAX ->
  globalVariableId st + N.of_nat (total_curves (plotData st))
    <= IGN_UINT32_MAX ->
  globalCurveId st + N.of_nat (total_curves (plotData st))
    <= IGN_UINT32_MAX ->
  well_formed (Restart st)
  /\ globalPlotId (Restart st) = globalPlotId st
  /\ forall k x cid,
       entry (plotData st) k x cid ->
       entry (plotData (Restart st)) k x cid
       /\ exists c,
            PlotCurveOf x st = Some c
            /\ match GetVariablePill x st with
               | Some pill =>
                   PlotCurveOf x (Restart st) = Some (frozen_curve pill c)
                   /\ GetVariablePill x (Restart st)
                      = Some (aged_pill pill c)
               | None =>
                   PlotCurveOf x (Restart st) = Some c
                   /\ GetVariablePill x (Restart st) = None
               end.
Proof.
  intros Hwf Hgp Hgv Hgc.
  pose proof (well_formed_ok _ Hwf) as Hok.
  assert (Hsnap : forall k pd, In (k, pd) (plotData st) ->
                    vars_of k st = variableCurves pd).
  { intros k pd Hin. apply vars_of_find. now apply In_find_some. }
  destruct (Restart_plots_spec (plotData st) st [] Hwf (ok_NoDup _ Hok) Hsnap)
    as (S1 & S2 & _ & S4 & S5 & S6).
  unfold Restart.
  destruct (Restart_plots (plotData st) (st, [])) as [st1 q] eqn:E1.
  cbn [fst snd] in S1, S2, S4, S5, S6.
  destruct S2 as (V1 & G1 & G2 & G3). cbn [List.length] in S5.
  assert (Hq : forall e, In e q ->
                 exists c, entry (plotData st1) (snd e) (snd (fst e)) c).
  { intros e Hin. destruct (S6 e Hin) as [[]|(c & Hc)]. exists c.
    now apply (entry_same_vars st st1). }
  assert (Hgp1 : globalPlotId st1 < IGN_UINT32_MAX) by now rewrite G1.
  assert (Hgv1 : globalVariableId st1 + N.of_nat (List.length q)
                 <= IGN_UINT32_MAX).
  { rewrite G2. lia. }
  assert (Hgc1 : globalCurveId st1 + N.of_nat (List.length q)
                 <= IGN_UINT32_MAX) by (rewrite G3; lia).
  destruct (Restart_clone_spec q st1 S1 Hgp1 Hgv1 Hgc1 Hq)
    as (I1 & I2 & I3 & I4).
  split; [exact I1|]. split; [now rewrite I2|].
  intros k x cid He.
  split; [apply I3; now apply (entry_same_vars st st1)|].
  pose proof He as (pd & Hf & Hx).
  assert (Hlt : x < globalVariableId st1).
  { rewrite G2. destruct Hwf as (_ & _ & H3 & _).
    exact (proj1 (H3 _ _ _ He)). }
  assert (Hfr : frozen_in x st (Restart_clone q st1)).
  { apply (frozen_then_same x st st1); [|exact (I4 x Hlt)].
    apply (S4 k pd x); [now apply find_some_In|].
    change x with (fst (x, cid)). apply in_map. now apply find_some_In. }
  unfold frozen_in in Hfr.
  destruct (StdMap.find cid (curves (plot pd))) as [c|] eqn:Ec.
  2:{ exfalso. exact (well_formed_holds _ _ _ _ _ Hwf Hf Hx Ec). }
  assert (Hc : PlotCurveOf x st = Some c)
    by now rewrite (PlotCurveOf_entry st k pd x cid Hwf Hf Hx).
  exists c. split; [exact Hc|]. rewrite Hc in Hfr.
  destruct (GetVariablePill x st) as [pill|] eqn:Ep; [exact Hfr|].
  destruct Hfr as (F1 & F2). rewrite F1, F2, Hc, Ep. now split.
Qed.



(** * Removing twice, and [Restart] as a whole *)

(** ** [RemoveVariable] and [RemovePlot], called again *)

Lemma RemoveVariable_found_absent v k pd c st :
  StdMap.ok (plotData st) = true ->
  StdMap.find k (plotData st) = Some pd ->
  StdMap.ok (variableCurves pd) = true ->
  sole_owner v k st ->
  var_absent v (RemoveVariable_found v k pd c st) = true.
Proof.
  intros Hok Hf Hokv Hsole.
  assert (Hother : forall k0 pd0,
             k0 <> k -> StdMap.find k0 (plotData st) = Some pd0 ->
             StdMap.mem v (variableCurves pd0) = false).
  { intros k0 pd0 Hne Hf0.
    destruct (StdMap.mem v (variableCurves pd0)) eqn:E; [|reflexivity].
    elim Hne. apply Hsole. eapply owns_intro; eauto. }
  unfold var_absent, RemoveVariable_found.
  apply forallb_forall. intros [k0 pd0] Hin. cbn [snd].
  apply negb_true_iff.
  destruct (StdMap.empty (StdMap.erase v (variableCurves pd))).
  - cbn [plotData set_plotData] in Hin.
    apply In_find_some in Hin; [|now apply ok_erase].
    apply find_erase_iff in Hin; [|exact Hok].
    destruct Hin as [Hne Hf0]. exact (Hother _ _ Hne Hf0).
  - cbn [plotData set_plotData] in Hin.
    apply In_find_some in Hin; [|now apply ok_insert].
    apply find_insert_iff in Hin.
    destruct Hin as [(-> & ->)|(Hne & Hf0)]; [|exact (Hother _ _ Hne Hf0)].
    cbn [variableCurves]. unfold StdMap.mem.
    now rewrite find_erase_eq.
Qed.

(** After [RemoveVariable v], no plot of a canvas of the data model
    holds [v]. *)
Lemma RemoveVariable_removes v st :
  canvas_ok st = true -> single_owner v st ->
  var_absent v (RemoveVariable v st) = true.
Proof.
  intros Hcok Hsingle. pose proof (canvas_ok_plotData _ Hcok) as Hok.
  destruct (first_owner v (plotData st)) as [[k pd]|] eqn:E.
  - destruct (first_owner_In _ _ _ _ E) as [Hin Hm].
    apply In_find_some in Hin; [|exact Hok].
    apply mem_true_find in Hm. destruct Hm as (c & Hc).
    assert (Hown : owns k v st = true)
      by (eapply owns_intro; eauto using mem_of_find).
    assert (Hsole : sole_owner v k st)
      by (intros k' Hk'; exact (Hsingle k' k Hk' Hown)).
    rewrite (RemoveVariable_owner v k pd c st Hok Hin Hc Hsole).
    rewrite var_absent_show.
    apply RemoveVariable_found_absent; try assumption.
    exact (proj1 (canvas_ok_record _ _ _ Hcok Hin)).
  - apply first_owner_absent in E.
    rewrite (RemoveVariable_absent_show v st E).
    now rewrite var_absent_show.
Qed.

Lemma RemoveVariable_twice_absent v st :
  var_absent v st = true ->
  RemoveVariable v (RemoveVariable v st) = RemoveVariable v st.
Proof.
  intros Hv. rewrite (RemoveVariable_absent_show v st Hv).
  rewrite RemoveVariable_absent_show; [apply show_emptyPlot_idem|].
  now rewrite var_absent_show.
Qed.

Lemma RemoveVariable_show v st :
  show_emptyPlot (RemoveVariable v st) = RemoveVariable v st.
Proof. unfold RemoveVariable. apply show_emptyPlot_idem. Qed.

(** C9 (amended): when no Plot Record holds [v], [RemoveVariable v]
    changes nothing but the placeholder, which it shows if there is no
    Plot Record at all; so the state is unchanged when a Plot Record
    exists or the placeholder is visible already.  A second
    [RemoveVariable v] right after a first one has no further effect,
    whether the first call found [v] in a plot of a canvas of the data
    model (well-formed maps, at most one plot holds [v]) and removed it,
    or found it in no plot of any canvas.  [RemovePlot] on an id that no
    record has changes nothing, and a second [RemovePlot p] right after
    a first one has no further effect. *)
Theorem RemoveVariable_absent_noop v p st :
  (var_absent v st = true ->
   RemoveVariable v st = show_emptyPlot st
   /\ (plotData st <> [] \/ emptyPlotVisible st = true ->
       RemoveVariable v st = st)
   /\ RemoveVariable v (RemoveVariable v st) = RemoveVariable v st)
  /\ (canvas_ok st = true -> single_owner v st ->
      var_absent v (RemoveVariable v st) = true
      /\ RemoveVariable v (RemoveVariable v st) = RemoveVariable v st)
  /\ (StdMap.find p (plotData st) = None -> RemovePlot p st = st)
  /\ (StdMap.ok (plotData st) = true ->
      RemovePlot p (RemovePlot p st) = RemovePlot p st).
Proof.
  split; [|split; [|split]].
  - intros Hv. pose proof (RemoveVariable_absent_show v st Hv) as H1.
    split; [exact H1|]. split; [|now apply RemoveVariable_twice_absent].
    intros H. rewrite H1. now apply show_emptyPlot_id.
  - intros Hcok Hsingle.
    pose proof (RemoveVariable_removes v st Hcok Hsingle) as Habs.
    split; [exact Habs|].
    rewrite (RemoveVariable_absent_show v _ Habs).
    apply RemoveVariable_show.
  - apply RemovePlot_absent.
  - intros Hok. apply RemovePlot_absent. now apply RemovePlot_removes.
Qed.

Lemma RemoveVariable_absent_noop_witness :
  (canvas_ok canvas_three_plots = true
   /\ single_owner 1 canvas_three_plots
   /\ var_absent 1 canvas_three_plots = false
   /\ var_absent 9 canvas_three_plots = true)
  /\ var_absent 1 (RemoveVariable 1 canvas_three_plots) = true
  /\ RemoveVariable 1 (RemoveVariable 1 canvas_three_plots)
     = RemoveVariable 1 canvas_three_plots
  /\ RemoveVariable 9 canvas_three_plots = canvas_three_plots
  /\ RemovePlot 1 (RemovePlot 1 canvas_three_plots)
     = RemovePlot 1 canvas_three_plots.
Proof.
  assert (Hs : single_owner 1 canvas_three_plots).
  { apply (sole_single 1 0). apply sole_owner_check. reflexivity. }
  split; [split; [reflexivity|split; [exact Hs|split; reflexivity]]|].
  destruct (RemoveVariable_absent_noop 1 1 canvas_three_plots)
    as (_ & H2 & _ & H4).
  destruct (RemoveVariable_absent_noop 9 1 canvas_three_plots)
    as (H1 & _).
  destruct (H2 eq_refl Hs) as (Ha & Hb).
  destruct (H1 eq_refl) as (_ & Hc & _).
  split; [exact Ha|]. split; [exact Hb|].
  split; [apply Hc; left; discriminate|exact (H4 eq_refl)].
Defined.

(** ** The age suffix, in [Restart] as a whole *)




(** ** [Restart] on one plot with one active curve *)

Lemma insert_last {V} k (v : V) m :
  (forall k', In k' (map fst m) -> k' < k) ->
  StdMap.insert k v m = (m ++ [(k, v)])%list.
Proof.
  induction m as [|[k0 v0] m IH]; intros H; [reflexivity|].
  assert (H0 : k0 < k) by (apply H; now left).
  simpl. destruct (N.compare_spec k k0); try lia.
  f_equal. apply IH. intros k' Hin. apply H. now right.
Qed.

Lemma singleton_map {V} p (x : V) m :
  List.length m = 1%nat -> StdMap.find p m = Some x -> m = [(p, x)].
Proof.
  destruct m as [|[k v] [|e m]]; try discriminate. intros _. simpl.
  destruct (N.eqb_spec p k) as [->|_]; [|discriminate].
  intros H. now injection H as ->.
Qed.

Lemma SetVariableLabel_length x label st :
  StdMap.ok (plotData st) = true ->
  List.length (plotData (SetVariableLabel x label st))
  = List.length (plotData st).
Proof.
  intros Hok. unfold SetVariableLabel.
  destruct (GetVariablePill x st); [|reflexivity].
  unfold OnSetVariableLabel. rewrite OnSetVariableLabel_loop_first.
  cbn [plotData set_yVariableContainer].
  destruct (first_owner x (plotData st)) as [[k pd]|] eqn:E; [|reflexivity].
  destruct (first_owner_In _ _ _ _ E) as [Hin _].
  apply In_find_some in Hin; [|exact Hok].
  destruct (StdMap.find x (variableCurves pd)); [|reflexivity].
  cbn [plotData set_plotData]. now apply length_insert_old with (x := pd).
Qed.

Lemma Restart_variable_length k x cid st q :
  StdMap.ok (plotData st) = true ->
  List.length (plotData (fst (Restart_variable k x cid (st, q))))
  = List.length (plotData st).
Proof.
  intros Hok. unfold Restart_variable.
  destruct (GetVariablePill x st) as [pill|]; [|reflexivity].
  destruct (StdMap.find k (plotData st)) as [pd|] eqn:Hf; [|reflexivity].
  destruct (IncrementalPlotOps.Curve cid (plot pd)) as [c|]; [|reflexivity].
  destruct (curveActive c); cbv zeta;
    destruct (aged_label (pillText pill) (uint32_succ (curveAge c)));
    cbn [fst]; rewrite ?SetVariableLabel_length;
    cbn [plotData set_plotData set_manager];
    try (now apply length_insert_old with (x := pd));
    now apply ok_insert.
Qed.

(** [Restart] on a canvas with one plot. *)
Lemma Restart_single_plot p pd st :
  plotData st = [(p, pd)] ->
  Restart st
  = Restart_clone (snd (Restart_variables p (variableCurves pd) (st, [])))
                  (fst (Restart_variables p (variableCurves pd) (st, []))).
Proof.
  intros H. unfold Restart. rewrite H. cbn [Restart_plots].
  now destruct (Restart_variables p (variableCurves pd) (st, [])).
Qed.

(** The second loop of [Restart] for one queued variable whose slot
    showed its name: the copy joins the plot, named like the original. *)
Lemma Restart_clone_single v x0 text p st :
  well_formed st -> counters_in_range st ->
  (exists c0, entry (plotData st) p x0 c0) ->
  GetVariablePill x0 st = Some (mkPill v text) ->
  let y := globalVariableId st in
  let st' := Restart_clone [(v, x0, p)] st in
  vars_of p st' = StdMap.insert y (globalCurveId st) (vars_of p st)
  /\ List.length (plotData st') = List.length (plotData st)
  /\ PlotCurveOf y st' = Some (mkCurve v true 0)
  /\ GetVariablePill y st' = Some (mkPill v v)
  /\ (forall z, z <> y ->
        PlotCurveOf z st' = PlotCurveOf z st
        /\ GetVariablePill z st' = GetVariablePill z st)
  /\ globalPlotId st' = globalPlotId st
  /\ globalVariableId st' = y + 1
  /\ globalCurveId st' = globalCurveId st + 1.
Proof.
  intros Hwf (Hgp & Hgv & Hgc) (c0 & pd & Hf & Hx) Hpill y st'.
  assert (Hne : variableCurves pd <> [])
    by (intros E; rewrite E in Hx; discriminate).
  assert (Hk : p <> EMPTY_PLOT).
  { destruct Hwf as (_ & H2 & _). destruct (H2 _ _ Hf) as (_ & _ & _ & Hlt).
    unfold EMPTY_PLOT. lia. }
  destruct (AddVariable_name_existing v p pd st Hwf ltac:(lia) Hf Hne Hk)
    as (A1 & A2 & A3 & A4 & _ & _ & A7 & A8 & A9 & A10 & A11 & A12).
  unfold st'. cbn [Restart_clone]. rewrite Hpill. cbn [pillName].
  destruct (AddVariable_name v p st) as [newId sta].
  cbn [fst snd] in A1, A2, A3, A4, A7, A8, A9, A10, A11, A12.
  subst newId. rewrite String.eqb_refl. cbn [negb].
  rewrite (uint32_succ_in_range (globalVariableId st)) in A11 by lia.
  rewrite (uint32_succ_in_range (globalCurveId st)) in A12 by lia.
  fold y in A2, A3, A4, A7, A8, A11.
  split; [now rewrite A4, (vars_of_find _ _ _ Hf)|].
  split; [exact A9|]. split; [exact A7|]. split; [exact A2|].
  split; [|now repeat split].
  intros z Hz. split; [exact (proj2 (A8 z Hz))|exact (A3 z Hz)].
Qed.

Lemma uint32_succ_0 : uint32_succ 0 = 1.
Proof. reflexivity. Qed.

Lemma uint32_succ_1 : uint32_succ 1 = 2.
Proof. reflexivity. Qed.

(** C3: a canvas of the data model with one plot that holds one
    variable, whose slot has the name [v] and shows it, and whose curve
    is active, of the current run (age 0), with room under the id
    counters for two more variables.  One [Restart] leaves the old curve
    deactivated, with age 1 and label [v_1] (on the curve and on its
    slot), and a new variable named [v] with a new active curve labelled
    [v] in the same plot, which is still the only plot.  A second
    [Restart] relabels the frozen curve to [v_2], freezes the second
    curve as [v_1] and again adds a new variable [v] with a new active
    curve [v] to the same plot. *)
Theorem Restart_ages_curve v p pd x cid c st :
  well_formed st ->
  globalPlotId st < IGN_UINT32_MAX ->
  globalVariableId st + 2 <= IGN_UINT32_MAX ->
  globalCurveId st + 2 <= IGN_UINT32_MAX ->
  plotData st = [(p, pd)] ->
  variableCurves pd = [(x, cid)] ->
  IncrementalPlotOps.Curve cid (plot pd) = Some c ->
  curveActive c = true ->
  curveAge c = 0 ->
  GetVariablePill x st = Some (mkPill v v) ->
  let y := globalVariableId st in
  let d := globalCurveId st in
  let st1 := Restart st in
  let st2 := Restart st1 in
  (List.length (plotData st1) = 1%nat
   /\ vars_of p st1 = [(x, cid); (y, d)]
   /\ PlotCurveOf x st1 = Some (mkCurve (v ++ "_1") false 1)
   /\ PlotCurveOf y st1 = Some (mkCurve v true 0)
   /\ GetVariablePill x st1 = Some (mkPill v (v ++ "_1"))
   /\ GetVariablePill y st1 = Some (mkPill v v))
  /\ (List.length (plotData st2) = 1%nat
      /\ vars_of p st2 = [(x, cid); (y, d); (y + 1, d + 1)]
      /\ PlotCurveOf x st2 = Some (mkCurve (v ++ "_2") false 2)
      /\ PlotCurveOf y st2 = Some (mkCurve (v ++ "_1") false 1)
      /\ PlotCurveOf (y + 1) st2 = Some (mkCurve v true 0)
      /\ GetVariablePill x st2 = Some (mkPill v (v ++ "_2"))
      /\ GetVariablePill y st2 = Some (mkPill v (v ++ "_1"))
      /\ GetVariablePill (y + 1) st2 = Some (mkPill v v)).
Proof.
  intros Hwf Hgp Hgv Hgc Hm Hvs Hc Hact Hage Hpill y d st1 st2.
  pose proof (well_formed_ok _ Hwf) as Hok.
  assert (Hf : StdMap.find p (plotData st) = Some pd)
    by (rewrite Hm; simpl; now rewrite N.eqb_refl).
  assert (Hx : StdMap.find x (variableCurves pd) = Some cid)
    by (rewrite Hvs; simpl; now rewrite N.eqb_refl).
  assert (He : entry (plotData st) p x cid) by now exists pd.
  assert (Hxy : x < y).
  { destruct Hwf as (_ & _ & H3 & _). exact (proj1 (H3 _ _ _ He)). }
  assert (Hlen : List.length (plotData st) = 1%nat) by now rewrite Hm.
  (* the first Restart: the first loop *)
  destruct (Restart_variable_spec p x cid st [] (mkPill v v) Hwf He Hpill)
    as (c' & Hc' & A1 & A2 & A3 & _ & A5 & A6 & A7 & A8 & A9 & A10).
  rewrite (PlotCurveOf_entry st p pd x cid Hwf Hf Hx) in Hc'.
  unfold IncrementalPlotOps.Curve in Hc. rewrite Hc in Hc'.
  injection Hc' as <-.
  pose proof (Restart_variable_length p x cid st [] Hok) as A11.
  assert (Hst1 : st1 = Restart_clone
                         (snd (Restart_variable p x cid (st, [])))
                         (fst (Restart_variable p x cid (st, [])))).
  { unfold st1. rewrite (Restart_single_plot p pd st Hm), Hvs.
    reflexivity. }
  destruct (Restart_variable p x cid (st, [])) as [sta qa].
  cbn [fst snd] in A1, A2, A3, A5, A6, A7, A8, A9, A10, A11, Hst1.
  rewrite Hact in A3. cbn [app pillText] in A3. subst qa.
  unfold frozen_curve in A1. unfold aged_pill in A2.
  cbv zeta in A1. rewrite Hage, uint32_succ_0 in A1, A2.
  cbn [pillText pillName] in A1, A2.
  change (aged_label v 1) with (Some (v ++ "_1")%string) in A1, A2.
  cbv iota in A1, A2.
  (* the first Restart: the copy *)
  assert (Hra : counters_in_range sta).
  { unfold counters_in_range. rewrite A8, A9, A10. fold y d. lia. }
  assert (Hea : entry (plotData sta) p x cid)
    by now apply (entry_same_vars st sta).
  destruct (Restart_clone_single v x (v ++ "_1")%string p sta A7 Hra
              (ex_intro _ cid Hea) A2)
    as (B1 & B2 & B3 & B4 & B5 & B6 & B7 & B8).
  rewrite <- Hst1 in B1, B2, B3, B4, B5, B6, B7, B8.
  rewrite A9 in B1, B3, B4, B5, B7. rewrite A10 in B1, B8.
  rewrite A5, (vars_of_find _ _ _ Hf), Hvs in B1.
  fold y in B1, B3, B4, B5, B7. fold d in B1, B8.
  rewrite insert_last in B1
    by (intros k' [<-|[]]; exact Hxy).
  cbn [app] in B1.
  assert (Hxne : x <> y) by lia.
  destruct (B5 x Hxne) as (B5c & B5p). rewrite A1 in B5c. rewrite A2 in B5p.
  assert (F2 : List.length (plotData st1) = 1%nat)
    by now rewrite B2, A11.
  split.
  { split; [exact F2|]. split; [exact B1|]. split; [exact B5c|].
    split; [exact B3|]. split; [exact B5p|exact B4]. }
  (* the second Restart *)
  assert (Hwf1 : well_formed st1).
  { unfold st1. apply Restart_spec; try assumption;
      rewrite Hm; simpl; rewrite Hvs; simpl; lia. }
  pose proof (well_formed_ok _ Hwf1) as Hok1.
  assert (Hpd1 : exists pd1, plotData st1 = [(p, pd1)]
                             /\ variableCurves pd1 = [(x, cid); (y, d)]).
  { unfold vars_of in B1.
    destruct (StdMap.find p (plotData st1)) as [pd1|] eqn:E;
      [|discriminate].
    exists pd1. split; [now apply singleton_map|exact B1]. }
  destruct Hpd1 as (pd1 & Hm1 & Hvs1).
  assert (Hf1 : StdMap.find p (plotData st1) = Some pd1)
    by (rewrite Hm1; simpl; now rewrite N.eqb_refl).
  assert (Hex : entry (plotData st1) p x cid).
  { exists pd1. split; [exact Hf1|]. rewrite Hvs1. simpl.
    now rewrite N.eqb_refl. }
  assert (Hey : entry (plotData st1) p y d).
  { exists pd1. split; [exact Hf1|]. rewrite Hvs1. simpl.
    destruct (N.eqb_spec y x) as [E|_]; [lia|]. now rewrite N.eqb_refl. }
  destruct (Restart_variable_spec p x cid st1 [] (mkPill v (v ++ "_1"))
              Hwf1 Hex B5p)
    as (cx & Hcx & C1 & C2 & C3 & _ & C5 & C6 & C7 & C8 & C9 & C10).
  rewrite B5c in Hcx. injection Hcx as <-.
  pose proof (Restart_variable_length p x cid st1 [] Hok1) as C11.
  assert (Hst2 : st2 = Restart_clone
                         (snd (Restart_variable p y d
                                 (Restart_variable p x cid (st1, []))))
                         (fst (Restart_variable p y d
                                 (Restart_variable p x cid (st1, []))))).
  { unfold st2. rewrite (Restart_single_plot p pd1 st1 Hm1), Hvs1.
    reflexivity. }
  destruct (Restart_variable p x cid (st1, [])) as [stb qb].
  cbn [fst snd] in C1, C2, C3, C5, C6, C7, C8, C9, C10, C11, Hst2.
  cbn [curveActive] in C3. subst qb.
  unfold frozen_curve in C1. unfold aged_pill in C2.
  cbv zeta in C1. cbn [curveAge pillText pillName curveLabel] in C1, C2.
  rewrite uint32_succ_1, aged_label_second in C1, C2.
  destruct (C6 y ltac:(lia)) as (C6c & C6p).
  rewrite B3 in C6c. rewrite B4 in C6p.
  assert (Heyb : entry (plotData stb) p y d)
    by now apply (entry_same_vars st1 stb).
  destruct (Restart_variable_spec p y d stb [] (mkPill v v) C7 Heyb C6p)
    as (cy & Hcy & D1 & D2 & D3 & _ & D5 & D6 & D7 & D8 & D9 & D10).
  rewrite C6c in Hcy. injection Hcy as <-.
  pose proof (Restart_variable_length p y d stb []
                (well_formed_ok _ C7)) as D11.
  destruct (Restart_variable p y d (stb, [])) as [stc qc].
  cbn [fst snd] in D1, D2, D3, D5, D6, D7, D8, D9, D10, D11, Hst2.
  cbn [curveActive app pillText] in D3. subst qc.
  unfold frozen_curve in D1. unfold aged_pill in D2.
  cbv zeta in D1. cbn [curveAge pillText pillName curveLabel] in D1, D2.
  rewrite uint32_succ_0 in D1, D2.
  change (aged_label v 1) with (Some (v ++ "_1")%string) in D1, D2.
  cbv iota in D1, D2.
  destruct (D6 x ltac:(lia)) as (D6c & D6p).
  rewrite C1 in D6c. rewrite C2 in D6p.
  assert (Hrc : counters_in_range stc).
  { unfold counters_in_range. rewrite D8, D9, D10, C8, C9, C10, B6, B7, B8.
    rewrite A8. fold y d. lia. }
  assert (Heyc : entry (plotData stc) p y d)
    by now apply (entry_same_vars stb stc).
  destruct (Restart_clone_single v y (v ++ "_1")%string p stc D7 Hrc
              (ex_intro _ d Heyc) D2)
    as (E1 & E2 & E3 & E4 & E5 & _).
  rewrite <- Hst2 in E1, E2, E3, E4, E5.
  rewrite D9, C9, B7 in E1, E3, E4, E5. rewrite D10, C10, B8 in E1.
  rewrite D5, C5, (vars_of_find _ _ _ Hf1), Hvs1 in E1.
  rewrite insert_last in E1
    by (intros k' [<-|[<-|[]]]; simpl; lia).
  cbn [app] in E1.
  destruct (E5 x ltac:(lia)) as (E5xc & E5xp).
  destruct (E5 y ltac:(lia)) as (E5yc & E5yp).
  rewrite D6c in E5xc. rewrite D6p in E5xp.
  rewrite D1 in E5yc. rewrite D2 in E5yp.
  split; [now rewrite E2, D11, C11|]. split; [exact E1|].
  split; [exact E5xc|]. split; [exact E5yc|]. split; [exact E3|].
  split; [exact E5xp|]. split; [exact E5yp|exact E4].
Qed.

Lemma Restart_ages_curve_witness :
  (globalPlotId canvas_one_var < IGN_UINT32_MAX
   /\ globalVariableId canvas_one_var + 2 <= IGN_UINT32_MAX
   /\ globalCurveId canvas_one_var + 2 <= IGN_UINT32_MAX
   /\ plotData canvas_one_var
      = [(0, mkPlotData 0 (mkPlot 1 [(0, mkCurve "x" true 0)]) [(1, 0)])]
   /\ GetVariablePill 1 canvas_one_var = Some (mkPill "x" "x"))
  /\ vars_of 0 (Restart canvas_one_var) = [(1, 0); (2, 1)]
  /\ PlotCurveOf 1 (Restart canvas_one_var) = Some (mkCurve "x_1" false 1)
  /\ PlotCurveOf 2 (Restart canvas_one_var) = Some (mkCurve "x" true 0)
  /\ vars_of 0 (Restart (Restart canvas_one_var)) = [(1, 0); (2, 1); (3, 2)]
  /\ PlotCurveOf 1 (Restart (Restart canvas_one_var))
     = Some (mkCurve "x_2" false 2)
  /\ PlotCurveOf 2 (Restart (Restart canvas_one_var))
     = Some (mkCurve "x_1" false 1)
  /\ PlotCurveOf 3 (Restart (Restart canvas_one_var))
     = Some (mkCurve "x" true 0).
Proof.
  assert (G1 : globalPlotId canvas_one_var < IGN_UINT32_MAX) by reflexivity.
  assert (G2 : globalVariableId canvas_one_var + 2 <= IGN_UINT32_MAX)
    by (vm_compute; discriminate).
  assert (G3 : globalCurveId canvas_one_var + 2 <= IGN_UINT32_MAX)
    by (vm_compute; discriminate).
  split; [split; [exact G1|split; [exact G2|split; [exact G3|split;
          reflexivity]]]|].
  destruct (Restart_ages_curve "x"%string 0
              (mkPlotData 0 (mkPlot 1 [(0, mkCurve "x"%string true 0)])
                 [(1, 0)])
              1 0 (mkCurve "x"%string true 0) canvas_one_var
              (reachable_well_formed _ in_range_one_var) G1 G2 G3
              eq_refl eq_refl eq_refl eq_refl eq_refl eq_refl)
    as ((_ & H2 & H3 & H4 & _) & (_ & K2 & K3 & K4 & K5 & _)).
  split; [exact H2|]. split; [exact H3|]. split; [exact H4|].
  split; [exact K2|]. split; [exact K3|]. split; [exact K4|exact K5].
Defined.
